(* ===== verification/_CoqProject ===== *)
-Q . S2P
Prelude.v
JsNumber.v
Fsm.v
Model.v
Webgl.v
Layout.v
Graph.v
Frame.v
Lifecycle.v
Render.v
Context.v
Destination.v
Info.v
Small.v
System.v
GraphProps.v
Termination.v
GlState.v
SmallDest.v
Viewport.v
