(* ===== verification/Prelude.v ===== *)
(** * VideoContext in Rocq: a model of the video graph and its proofs

    The program is the TypeScript library [src/src] of
    langhuihui/VideoContext: a [VideoContext] ([video-context.ts]) owns a
    canvas with a WebGL (or 2-D) context, and [VideoNode]s
    ([video-node/base.ts]) form a pull graph on it.  A node has at most one
    [input] and one [output]; [connect] links a producer to a consumer,
    [disconnect] and [close] unlink it, [resize] propagates sizes
    downstream.  Sources ([source.ts]) upload an image or a video,
    [VideoMirrorNode] ([mirror.ts]) flips its input, [VideoMixNode]
    ([mix.ts]) composes several inputs held in a sparse array indexed by
    [zIndex], and destinations ([destination.ts]) pull frames on a
    [wtimer] interval and draw them onto the context's canvas.  Lifecycle
    methods are guarded by the [@ChangeState] decorator of the [afsm]
    package, which is not in the repository.

    ** Files
    - [Prelude] (this file): a state-and-exception monad [M E S] whose
      exceptions keep the store reached when they were thrown (a JS
      [throw] keeps earlier mutations), its notations in [vc_scope], the
      JS semantics the sources rely on ([js_or] for [a || b] on numbers, the
      sparse array [jsarr] with [findIndex] and writes beyond the end or at
      negative keys), the relation [preserves R m] (every outcome of [m]
      leaves a store related by [R]) with its composition lemmas, the
      invariants of the runs that return ([restores], [establishes]), the
      hint databases [vc] and [vc_rw] and the tactic [crunch].
    - [Fsm]: [@ChangeState(from, to, {ignoreError, success})] as
      [change_state], modelled from the specification.
    - [Model]: the data: [Node] (the fields of [VideoNode] and, in [Kind],
      of each subclass), [Ctx] ([VideoContext]), WebGL handles ([GL]) and
      the binding state of the WebGL context ([Binding]), intervals, a
      trace of visible effects ([Event]) and the exceptions ([Err]); all
      of it in one [World], nodes in a [gmap] keyed by object identity.
      [VC A] is the monad of the methods.
    - [Webgl]: the WebGL calls the code makes on the bindings (a draw
      records the bindings it runs under, a call on a missing binding
      records [INVALID_OPERATION]), and the helpers of [VideoNode]
      ([useTexture], [useInputTexture], [useProgram], [useBufferFrame],
      [createBuffer], [setTexBuffer], [setPosBuffer], [changeBufferData],
      [setAttributes]) and [VideoContext.useTexture].
    - [Layout]: the getters of [NodeMixInfo], the bounding box of
      [VideoMixNode.resize], [getVertexPoint] and [layout2texCoords] on
      exact rationals.
    - [Graph]: [removeInput], [disconnect], [resize], [addInput],
      [connect], [close], each dispatched on the node's class as JS
      dispatches on the prototype chain, with the overrides of the mix and
      the destinations; [timer_set]/[timer_clear] model [wtimer].
    - [Frame], [Lifecycle]: relations respected by every method;
      [Lifecycle] defines the abstract lifecycle [lc_step] and proves every
      graph method refines it.
    - [Render]: [requestFrame], [render], [render2d] of every class.
    - [Context]: [create] (with its ['webglcontextlost'] listener),
      [destroy], [disconnect], the [width]/[height] setters and the
      factories of the context, the constructors of every node class, and
      [VideoTrackSourceNode.replaceTrack] on the stream's list of tracks.
    - [Destination]: the interval callback of [start] ([tick]): the rate
      check [tick_rearm], [requestFrame(this._sequence++)], and the
      [getError] check [tick_glcheck] with its teardown reason.
    - [Info]: [getInfo] of the base class and of the mix, the snapshot
      stored in [lastInfo], and the frame rate computed on doubles and
      converted by [ToInt32] as [>> 0] does.
    - [Small]: the size computation of [SmallVideoTrackDestination.resize]
      on real numbers, the abstraction of its rounded computation, with
      its pixel count and aspect ratio.
    - [JsNumber]: JS numbers as Rocq's primitive IEEE 754 doubles,
      ECMAScript's [ToInt32] (also WebIDL's conversion to [long], the
      [GLsizei] of [gl.viewport]), the canvas's [width]/[height] setters,
      and the exactness of integers below [2^53].
    - [System]: the public operations [Op] (the application's calls and
      the browser's events: intervals, a muted track, a recorded WebGL
      error, a lost WebGL context, a [setTimeout] callback), [run_op], and
      the runs [reach] of a program.
    - [GraphProps]: the relation keeping the graph's edges, the
      [connect]/[disconnect] round trip, and the concrete witnesses of the
      properties.
    - [Termination]: steps that cannot overflow the stack, output chains,
      the fuel bounds of [resize] and of [requestFrame].
    - [GlState]: the framebuffer and texture bindings a frame pull leaves
      behind, where the destination draws and what the mix clears.
    - [SmallDest]: [SmallVideoTrackDestination.resize] with its sizes as
      doubles, through [VideoTrackDestination.resize], [VideoNode.resize]
      and [VideoContext.setSize] on numbers.
    - [Viewport]: the invariant of every run that the references between
      nodes name nodes that exist ([refs_ok]), so that the teardown never
      throws, and that the viewport is the canvas's size unless a WebGL
      error is pending ([vp_ok]); the relation [RR] every method respects.

    ** Theorems (the claim ids C1-C30 of the manifest)
    - Lifecycle (C1, C4, C7): along every run of operations, each node
      moves only by [uninitialized -> connected -> uninitialized] and any
      -> [closed], and frame counters never decrease
      ([System.reach_refines_lifecycle], [System.totalFrames_monotone]);
      one generic lemma per method over any [PointRel] relation carries
      both, and a further instance ([seq_le]: destinations' sequence
      numbers never decrease) gives the progress of the frame clock
      ([System.tick_sequence_increases]).
    - Termination (C5, C6): [resize] never exhausts its fuel when the
      output chain is shorter than the fuel, and [requestFrame] never does
      when every pull it makes fits in the fuel ([pull_ok]).
    - WebGL state (C8-C11): a [requestFrame] that returns closes every
      [useBufferFrame] and [useTexture] bracket it opened, so the
      destination, which binds no framebuffer, draws its input's texture
      on the canvas, and the mix clears the canvas, not its own
      framebuffer; along every run, while the context holds WebGL and no
      error is pending, the viewport is the canvas's size
      ([Viewport.viewport_is_canvas_size]), so a node draws into its
      framebuffer with the canvas's viewport, whatever its own size.
    - Intervals and teardown (C12-C16): a destination given a second
      input keeps its first interval armed beside the new one;
      disconnecting any producer of a destination drops its current input
      and clears its current interval; a recorded WebGL error makes the
      next tick destroy the context with a reason that reports code [0];
      along every run [destroy] on a created context returns; a failing
      WebGL allocation in a constructor destroys the context.
    - Numbers (C17): the small destination turns a zero width into a
      [NaN] width, an [Infinity] height and an empty canvas.
    - Graph edits (C2, C3, C18-C20, C24): the configuration conflict of a
      mix, the connect/disconnect round trip, the guard on a closed node,
      a second [close], [resize] to the current size, and the exact
      effect of [connect] on a mix.
    - Frames (C21): drop-frame accounting on a video's new frame.
    - Context (C22, C25, C26, C30): [destroy] reports its reason and
      closes every node; a shader failure in [create] leaves a WebGL
      context without fallback; [replaceTrack] swaps the stream's track,
      also on a closed source.
    - Geometry (C23): the mix's size is the least bounding box of its
      slots.
    - Diagnostics (C27-C29): [getInfo] changes nothing but [lastInfo] and
      returns the snapshot of a node without inputs; its frame rate is [0]
      when no frame was counted or no millisecond elapsed.

    ** Bounds and fuel
    [resize] follows [output] edges, [requestFrame] and [getInfo] follow
    [input] edges and mix slots; all recurse without end on a cyclic
    graph, where JS raises a [RangeError].  They take a [fuel] argument
    and throw [EStack] when it is exhausted.  A pull through a chain of
    [n] nodes nests at most [2 n] calls ([requestFrame] of each node, and
    the [resize] a source starts on its own output chain); the witnesses
    use fuel 10 on graphs of at most five nodes, and their theorems show
    the runs reach their normal results.  The lifecycle, monotonicity,
    viewport and teardown theorems hold for every fuel, including the
    runs that exhaust it.  Sizes and coordinates are integers ([Z]) in
    the store and exact rationals ([Q]) in vertex data; a size handed to
    [gl.viewport] goes through [ToInt32] and one handed to the canvas
    through its setter's range check ([JsNumber]).  The small
    destination, whose sizes are not integers, keeps them as doubles, and
    so does the frame rate of [getInfo]; [Date.now()] is a parameter of
    the call, read once.

    ** Not modelled
    The GLSL shader texts; [SmallVideoTrackDestination] as a node of the
    store, whose sizes are integers ([SmallDest] models its [resize] on
    the fields it reads and writes, so its constructor, and [getInfo] and
    [render2d] reading its non-integer sizes, are not modelled); the
    clamping of [gl.viewport] to the implementation's
    [MAX_VIEWPORT_DIMS]; the pixel data of the [VideoFrame] of
    [getVideoFrame] (the model returns the canvas it is taken from); the
    pixels drawn (draw calls are events of a trace with the bindings they
    use, canvas transforms are kept only in their horizontal part); the
    WebGL state the code sets and never reads back ([blendFunc],
    [clearColor], the texture filters); ['webglcontextlost'] events on a
    canvas the context no longer holds (only the current canvas's
    listener is modelled). *)

From stdpp Require Import base list gmap.
From Stdlib Require Import ZArith Lia.

(** ** The effect of JavaScript code: state, and exceptions that keep the
    state reached when they were thrown.

    A JS method that mutates objects and may [throw] is modelled as a
    function from the store to a result that carries the store in both
    cases: a [throw] in the middle of a method leaves the mutations done
    before it in place, exactly as in the source. *)

Inductive res (E S A : Type) : Type :=
| Ok (a : A) (s : S)
| Exn (e : E) (s : S).
Arguments Ok {E S A} a s.
Arguments Exn {E S A} e s.

Definition M (E S A : Type) : Type := S -> res E S A.

Section Monad.
Context {E S : Type}.

Definition mret {A} (a : A) : M E S A := fun s => Ok a s.

Definition mbind {A B} (m : M E S A) (k : A -> M E S B) : M E S B :=
  fun s => match m s with
           | Ok a s' => k a s'
           | Exn e s' => Exn e s'
           end.

Definition throw {A} (e : E) : M E S A := fun s => Exn e s.

Definition mget : M E S S := fun s => Ok s s.

Definition mput (s : S) : M E S unit := fun _ => Ok tt s.

Definition modify (f : S -> S) : M E S unit := fun s => Ok tt (f s).

(** [try { m } catch { h }]: the handler runs on the store reached by the throw. *)
Definition try_catch {A} (m : M E S A) (h : E -> M E S A) : M E S A :=
  fun s => match m s with
           | Ok a s' => Ok a s'
           | Exn e s' => h e s'
           end.

(** [for (const x of l) body(x)] *)
Fixpoint mfor {A} (l : list A) (body : A -> M E S unit) : M E S unit :=
  match l with
  | [] => mret tt
  | x :: l' => mbind (body x) (fun _ => mfor l' body)
  end.

(** [l.map(f)] for an [f] with effects: the calls run in list order. *)
Fixpoint mmap {A B} (f : A -> M E S B) (l : list A) : M E S (list B) :=
  match l with
  | [] => mret []
  | x :: l' => mbind (f x) (fun y => mbind (mmap f l') (fun ys => mret (y :: ys)))
  end.

(** The store after running [m], whatever its outcome. *)
Definition res_state {A} (r : res E S A) : S :=
  match r with Ok _ s => s | Exn _ s => s end.

Definition exec {A} (m : M E S A) (s : S) : S := res_state (m s).
End Monad.

Declare Scope vc_scope.
Delimit Scope vc_scope with vc.
Notation "x <- m ;; k" := (mbind m (fun x => k))
  (at level 100, m at next level, right associativity) : vc_scope.
Notation "m ;;; k" := (mbind m (fun _ => k))
  (at level 100, right associativity) : vc_scope.
Open Scope vc_scope.

(** ** JavaScript values used by the sources *)

(** [a || d] where [a : number | undefined]: both [undefined] and [0] are
    falsy, so an explicit [0] falls back to the default too. *)
Definition js_or (a : option Z) (d : Z) : Z :=
  match a with
  | Some v => if Z.eqb v 0 then d else v
  | None => d
  end.

(** A JS array used as a sparse map from integer keys (the [inputs]
    array of the mix node): non-negative keys are array elements, in
    ascending order, where a hole and an [undefined] element read the
    same; a negative key is an ordinary property, which [reduce],
    [forEach], [findIndex] and [for (i < length)] never visit. *)
Record jsarr (A : Type) : Type := JsArr {
  ja_elems : list (option A);
  ja_props : gmap Z A
}.
Arguments JsArr {A} _ _.
Arguments ja_elems {A} _.
Arguments ja_props {A} _.

Definition ja_empty {A} : jsarr A := JsArr [] ∅.

(** Writing element [i] of a list-backed array: inside the array it is an
    update; past its end the array grows, holes reading as [undefined]. *)
Definition list_write {A} (l : list (option A)) (i : nat) (x : option A) : list (option A) :=
  if decide (i < length l) then <[i := x]> l
  else l ++ replicate (i - length l) None ++ [x].

(** [arr[k]] *)
Definition ja_get {A} (a : jsarr A) (k : Z) : option A :=
  if decide (0 <= k)%Z then mjoin (ja_elems a !! Z.to_nat k) else ja_props a !! k.

(** [arr[k] = x] (with [x = None] for [void 0]) *)
Definition ja_set {A} (a : jsarr A) (k : Z) (x : option A) : jsarr A :=
  if decide (0 <= k)%Z then JsArr (list_write (ja_elems a) (Z.to_nat k) x) (ja_props a)
  else JsArr (ja_elems a) (match x with Some v => <[k := v]> (ja_props a)
                                      | None => delete k (ja_props a) end).

(** [arr.findIndex(p)]: the first element index satisfying [p], or [-1]. *)
Fixpoint find_index_from {A} (p : option A -> bool) (l : list (option A)) (i : Z) : Z :=
  match l with
  | [] => (-1)%Z
  | x :: l' => if p x then i else find_index_from p l' (i + 1)
  end.

Definition ja_find_index {A} (p : option A -> bool) (a : jsarr A) : Z :=
  find_index_from p (ja_elems a) 0.

(** The occupied slots, visited in ascending index order (what
    [reduce]/[forEach]/[for] over the array see). *)

(** ** Automation shared by the components *)

Create HintDb vc discriminated.
Create Rewrite HintDb vc_rw.

Ltac invc H := inversion H; subst; clear H.

(** Unfold one monadic step whose head is a known outcome. *)
Ltac mstep :=
  repeat match goal with
  | |- context [mbind (fun s => Ok ?a s) ?k] => change (mbind (fun s => Ok a s) k) with (fun s => k a s)
  end; cbn beta iota.

(** ** Generic lemmas on the JS helpers *)

Lemma js_or_none d : js_or None d = d.
Proof. reflexivity. Qed.

Lemma js_or_pos v d : v <> 0%Z -> js_or (Some v) d = v.
Proof. intros H. unfold js_or. destruct (Z.eqb_spec v 0); [contradiction | reflexivity]. Qed.

Lemma js_or_zero d : js_or (Some 0%Z) d = d.
Proof. reflexivity. Qed.

Lemma js_or_cases a d : js_or a d = d \/ exists v, a = Some v /\ v <> 0%Z /\ js_or a d = v.
Proof.
  destruct a as [v|]; [|now left]. unfold js_or.
  destruct (Z.eqb_spec v 0); [now left | right; eauto].
Qed.

Lemma list_write_lookup_eq {A} (l : list (option A)) i x :
  list_write l i x !! i = Some x.
Proof.
  unfold list_write. case_decide.
  - by apply list_lookup_insert_eq.
  - rewrite lookup_app_r by lia. rewrite lookup_app_r; rewrite length_replicate; [|lia].
    replace (i - length l - (i - length l)) with 0 by lia. done.
Qed.

Lemma list_write_lookup_ne {A} (l : list (option A)) i j x :
  i <> j -> mjoin (list_write l i x !! j) = mjoin (l !! j).
Proof.
  intros Hij. unfold list_write. case_decide.
  - by rewrite list_lookup_insert_ne.
  - destruct (decide (j < length l)).
    + by rewrite lookup_app_l.
    + rewrite lookup_app_r by lia. rewrite (lookup_ge_None_2 l j) by lia.
      destruct (decide (j - length l < i - length l)).
      * rewrite lookup_app_l by (rewrite length_replicate; lia).
        by rewrite lookup_replicate_2 by lia.
      * rewrite lookup_app_r by (rewrite length_replicate; lia).
        rewrite length_replicate. rewrite lookup_cons_ne_0 by lia.
        rewrite lookup_nil. done.
Qed.

Lemma ja_get_set_eq {A} (a : jsarr A) k x : ja_get (ja_set a k x) k = x.
Proof.
  unfold ja_get, ja_set. destruct (decide (0 <= k)%Z); simpl.
  - by rewrite list_write_lookup_eq.
  - destruct x; simpl.
    + by rewrite lookup_insert_eq.
    + by rewrite lookup_delete_eq.
Qed.

Lemma ja_get_set_ne {A} (a : jsarr A) k k' x : k <> k' -> ja_get (ja_set a k x) k' = ja_get a k'.
Proof.
  intros Hk. unfold ja_get, ja_set.
  destruct (decide (0 <= k)%Z); destruct (decide (0 <= k')%Z); simpl;
    rewrite ?decide_True by done; rewrite ?decide_False by done; try done.
  - apply list_write_lookup_ne. lia.
  - destruct x; simpl; [by rewrite lookup_insert_ne | by rewrite lookup_delete_ne].
Qed.

#[export] Hint Rewrite @ja_get_set_eq : vc_rw.
#[export] Hint Resolve js_or_none js_or_zero : vc.

(** ** Relations every step of a computation respects

    [preserves R m]: whatever [m] does, and whether it returns or throws,
    the store it leaves is related by [R] to the store it started from.
    For a preorder [R] the property composes along [mbind], so a whole
    method inherits it from the steps it is made of. *)

Definition preserves {E S A} (R : S -> S -> Prop) (m : M E S A) : Prop :=
  forall s, R s (res_state (m s)).

Section Preserves.
Context {E S : Type} (R : S -> S -> Prop) `{!PreOrder R}.

Lemma preserves_ret {A} (a : A) : preserves (E:=E) R (mret a).
Proof. intros s. simpl. reflexivity. Qed.

Lemma preserves_throw {A} (e : E) : preserves (A:=A) R (throw e).
Proof. intros s. simpl. reflexivity. Qed.

Lemma preserves_get : preserves (E:=E) R mget.
Proof. intros s. simpl. reflexivity. Qed.

Lemma preserves_modify (f : S -> S) : (forall s, R s (f s)) -> preserves (E:=E) R (modify f).
Proof. intros H s. apply H. Qed.

Lemma preserves_bind {A B} (m : M E S A) (k : A -> M E S B) :
  preserves R m -> (forall a, preserves R (k a)) -> preserves R (mbind m k).
Proof.
  intros Hm Hk s. unfold mbind. specialize (Hm s).
  destruct (m s) as [a s'|e s']; simpl in *; [|done].
  etrans; [exact Hm|apply Hk].
Qed.

Lemma preserves_mfor {A} (l : list A) (body : A -> M E S unit) :
  (forall x, preserves R (body x)) -> preserves R (mfor l body).
Proof.
  intros H. induction l as [|x l IH]; simpl.
  - apply preserves_ret.
  - apply preserves_bind; auto.
Qed.

Lemma preserves_mmap {A B} (f : A -> M E S B) (l : list A) :
  (forall x, preserves R (f x)) -> preserves R (mmap f l).
Proof.
  intros H. induction l as [|x l IH]; simpl.
  - apply preserves_ret.
  - apply preserves_bind; [auto|intros; apply preserves_bind; auto using preserves_ret].
Qed.

Lemma preserves_try {A} (m : M E S A) (h : E -> M E S A) :
  preserves R m -> (forall e, preserves R (h e)) -> preserves R (try_catch m h).
Proof.
  intros Hm Hh s. unfold try_catch. specialize (Hm s).
  destruct (m s) as [a s'|e s']; simpl in *; [done|].
  etrans; [exact Hm|apply Hh].
Qed.
End Preserves.

#[export] Hint Opaque preserves : vc.
#[export] Hint Resolve preserves_ret preserves_throw preserves_get preserves_bind
  preserves_mfor preserves_mmap preserves_try : vc.

(** ** Running a computation *)

Lemma mbind_Ok {E S A B} (m : M E S A) (k : A -> M E S B) s a s' :
  m s = Ok a s' -> mbind m k s = k a s'.
Proof. intros H. unfold mbind. by rewrite H. Qed.

Lemma mbind_Exn {E S A B} (m : M E S A) (k : A -> M E S B) s e s' :
  m s = Exn e s' -> mbind m k s = Exn e s'.
Proof. intros H. unfold mbind. by rewrite H. Qed.

Lemma mbind_Ok_inv {E S A B} (m : M E S A) (k : A -> M E S B) s b s' :
  mbind m k s = Ok b s' -> exists a s1, m s = Ok a s1 /\ k a s1 = Ok b s'.
Proof. unfold mbind. destruct (m s) as [a s1|e s1]; [eauto|discriminate]. Qed.

(** What a step respecting [R] leaves after it returned. *)
Lemma preserves_Ok {E S A} (R : S -> S -> Prop) (m : M E S A) s a s' :
  preserves R m -> m s = Ok a s' -> R s s'.
Proof. intros H Hm. specialize (H s). by rewrite Hm in H. Qed.

(** An invariant of the store carried through [l.map(f)], with a property
    of every result. *)
Lemma mmap_Ok_Forall {E S A B} (Inv : S -> Prop) (P : B -> Prop) (f : A -> M E S B) :
  (forall x s b s', Inv s -> f x s = Ok b s' -> Inv s' /\ P b) ->
  forall l s bs s', Inv s -> mmap f l s = Ok bs s' -> Inv s' /\ Forall P bs.
Proof.
  intros Hf l. induction l as [|x l IH]; simpl; intros s bs s' Hs H.
  - injection H as <- <-. auto.
  - apply mbind_Ok_inv in H as (b & s1 & H1 & H).
    apply mbind_Ok_inv in H as (bs' & s2 & H2 & H). injection H as <- <-.
    destruct (Hf _ _ _ _ Hs H1) as [Hs1 Hb].
    destruct (IH _ _ _ Hs1 H2) as [Hs2 Hbs]. auto.
Qed.

(** Symbolic execution of a computation whose reads are fixed by the
    hypotheses: reduce, then rewrite with an equation of the context whose
    left-hand side appears in the goal, until neither applies. *)
Ltac crunch :=
  repeat (cbn;
          first [ match goal with H : ?a = _ |- context [?a] => rewrite H end
                | rewrite Z.eqb_refl
                | rewrite lookup_alter_eq ]).

Lemma mbind_Exn_inv {E S A B} (m : M E S A) (k : A -> M E S B) s e s' :
  mbind m k s = Exn e s' -> m s = Exn e s' \/ exists a s1, m s = Ok a s1 /\ k a s1 = Exn e s'.
Proof. unfold mbind. destruct (m s) as [a s1|e1 s1]; [eauto|intros [= -> ->]; auto]. Qed.

(** ** Invariants of the runs that return

    [restores P m]: a run of [m] that returns from a store satisfying
    [P] ends in a store satisfying [P]; a run that throws is left
    unconstrained, as a JS exception leaves whatever the code had done
    before it.  [establishes P m]: every run of [m] that returns ends in
    [P], whatever store it started from. *)

Definition restores {E S A} (P : S -> Prop) (m : M E S A) : Prop :=
  forall s a s', P s -> m s = Ok a s' -> P s'.
Definition establishes {E S A} (P : S -> Prop) (m : M E S A) : Prop :=
  forall s a s', m s = Ok a s' -> P s'.

Section Restores.
Context {E S : Type} (P : S -> Prop).

Lemma restores_ret {A} (a : A) : restores (E:=E) P (mret a).
Proof. by intros s ? s' HP [= _ <-]. Qed.

Lemma restores_throw {A} (e : E) : restores (A:=A) P (throw e).
Proof. by intros s ? s' _ [=]. Qed.

Lemma restores_modify (f : S -> S) : (forall s, P s -> P (f s)) -> restores (E:=E) P (modify f).
Proof. intros H s ? s' HP [= _ <-]. by apply H. Qed.

Lemma restores_bind {A B} (m : M E S A) (k : A -> M E S B) :
  restores P m -> (forall a, restores P (k a)) -> restores P (mbind m k).
Proof.
  intros Hm Hk s b s' HP H. apply mbind_Ok_inv in H as (a & s1 & H1 & H).
  eapply Hk; [|exact H]. by eapply Hm.
Qed.

Lemma restores_mfor {A} (l : list A) (body : A -> M E S unit) :
  (forall x, restores P (body x)) -> restores P (mfor l body).
Proof. intros H. induction l; simpl; [apply restores_ret|by apply restores_bind]. Qed.

Lemma restores_mmap {A B} (f : A -> M E S B) (l : list A) :
  (forall x, restores P (f x)) -> restores P (mmap f l).
Proof.
  intros H. induction l; simpl; [apply restores_ret|].
  apply restores_bind; [done|intros; apply restores_bind; [done|intros; apply restores_ret]].
Qed.

Lemma establishes_bind {A B} (m : M E S A) (k : A -> M E S B) :
  (forall a, establishes P (k a)) -> establishes P (mbind m k).
Proof. intros Hk s b s' H. apply mbind_Ok_inv in H as (a & s1 & _ & H). by eapply Hk. Qed.

Lemma establishes_modify (f : S -> S) : (forall s, P (f s)) -> establishes (E:=E) P (modify f).
Proof. intros H s ? s' [= _ <-]. apply H. Qed.

Lemma restores_establishes {A} (m : M E S A) : establishes P m -> restores P m.
Proof. intros H s a s' _. apply H. Qed.
End Restores.

