(* ===== verification/JsNumber.v ===== *)
(** * JavaScript numbers and their conversions to integers

    A JS [number] is an IEEE 754 binary64 value, Rocq's primitive
    [float]: [+], [*], [/] and [Math.sqrt] are the correctly rounded
    operations of [PrimFloat], [===] on numbers is [PrimFloat.eqb] (false
    on [NaN], true on [+0] and [-0]) and [>] is [PrimFloat.ltb] with its
    arguments swapped.  The platform converts a number to an integer where
    an IDL attribute or argument has an integer type:
    - [num_to_Z] and [to_int32]: ECMAScript's [ToInt32] ([x >> 0]) and
      WebIDL's [ConvertToInt] for a [long] without [[EnforceRange]] or
      [[Clamp]] ([gl.viewport]'s [GLsizei]): [NaN] and the infinities
      give [0], other numbers are truncated toward zero, then reduced
      modulo [2^32] into [[-2^31, 2^31)];
    - [canvas_dim]: the [width] and [height] attributes of
      [HTMLCanvasElement], which reflect an [unsigned long] content
      attribute: a value above [2^31 - 1] sets the default ([300] or
      [150]).
    The store of [Model] holds integers, the numbers of the program that
    are integers; [num_of_Z] is the number of an integer.  The main
    lemma, [integer_part_num_of_Z], shows that an integer below [2^53] in
    absolute value is represented exactly, from the specification of
    [of_uint63] in [FloatAxioms], so that [num_to_Z] gives it back. *)

From Stdlib Require Import ZArith Lia Floats Uint63.

Local Open Scope Z_scope.

(** ** Definitions *)

(** The JS number of an integer. *)
Definition num_of_Z (z : Z) : float :=
  if z <? 0 then PrimFloat.opp (of_uint63 (Uint63.of_Z (- z))) else of_uint63 (Uint63.of_Z z).

(** The integer part of a finite number (truncation toward zero);
    [None] for [NaN] and the infinities. *)
Definition sf_integer_part (f : spec_float) : option Z :=
  match f with
  | S754_zero _ => Some 0
  | S754_finite s m e => Some (if s then - Z.shiftl (Zpos m) e else Z.shiftl (Zpos m) e)
  | _ => None
  end.

Definition integer_part (x : float) : option Z := sf_integer_part (Prim2SF x).

(** The first steps of ECMAScript's [ToInt32] and of WebIDL's
    [ConvertToInt]: [NaN] and the infinities give [0], other numbers are
    truncated toward zero. *)
Definition num_to_Z (x : float) : Z := match integer_part x with Some z => z | None => 0 end.

(** The last step of [ToInt32], and of WebIDL's [ConvertToInt(x, 32,
    signed)] for a [long] such as [GLsizei]: the residue modulo [2^32] in
    [[-2^31, 2^31)]. *)
Definition to_int32 (z : Z) : Z := (z + 2 ^ 31) mod 2 ^ 32 - 2 ^ 31.

(** [ToInt32(x)], the conversion of [x >> 0]. *)
Definition ToInt32 (x : float) : Z := to_int32 (num_to_Z x).

(** Setting [canvas.width] or [canvas.height] to the integer [z]:
    [ConvertToInt(z, 32, unsigned)], then the reflection of the content
    attribute, which takes its [default] above [2^31 - 1]. *)
Definition canvas_dim (default z : Z) : Z :=
  let v := z mod 2 ^ 32 in if v <=? 2 ^ 31 - 1 then v else default.

(** ** Exact integers *)

Lemma digits2_bounds p : 2 ^ (Zpos (digits2_pos p) - 1) <= Zpos p < 2 ^ Zpos (digits2_pos p).
Proof.
  induction p as [p IH|p IH|]; cbn [digits2_pos]; [| |cbn; lia];
    rewrite Pos2Z.inj_succ, <- Z.add_1_r, Z.add_simpl_r, Z.pow_add_r by lia;
    (rewrite Z.pow_1_r; split; [replace (Zpos (digits2_pos p)) with (Zpos (digits2_pos p) - 1 + 1) at 1 by lia;
      rewrite Z.pow_add_r, Z.pow_1_r by lia|]; lia).
Qed.

Lemma digits2_log2 p : Zpos (digits2_pos p) = Z.log2 (Zpos p) + 1.
Proof.
  pose proof (digits2_bounds p) as H.
  rewrite (Z.log2_unique (Zpos p) (Zpos (digits2_pos p) - 1)); [lia|lia|].
  rewrite Z.sub_1_r, Z.succ_pred. exact H.
Qed.

Lemma digits2_le_53 p : Zpos p < 2 ^ 53 -> Zpos (digits2_pos p) <= 53.
Proof.
  intros Hp. pose proof (digits2_bounds p) as Hb.
  destruct (Z.le_gt_cases (Zpos (digits2_pos p)) 53) as [|Hg]; [assumption|].
  assert (2 ^ 53 <= 2 ^ (Zpos (digits2_pos p) - 1)) by (apply Z.pow_le_mono_r; lia). lia.
Qed.

(** The alignment of [binary_round]: the mantissa is shifted to 53 digits. *)
Lemma shl_align_exact m : Zpos (digits2_pos m) <= 53 ->
  exists mz, shl_align m 0 (Zpos (digits2_pos m) - 53) = (mz, Zpos (digits2_pos m) - 53) /\
    Zpos mz = Zpos m * 2 ^ (53 - Zpos (digits2_pos m)).
Proof.
  intros Hd. unfold shl_align. rewrite Z.sub_0_r.
  destruct (Zpos (digits2_pos m) - 53) as [|d|d] eqn:E; [|lia|].
  - exists m. split; [reflexivity|]. replace (53 - Zpos (digits2_pos m)) with 0 by lia. lia.
  - exists (Pos.iter xO m d). split; [reflexivity|].
    change (Pos.iter xO m d) with (shift_pos d m). rewrite shift_pos_correct, Z.pow_pos_fold.
    replace (53 - Zpos (digits2_pos m)) with (Zpos d) by lia. lia.
Qed.

(** A 53-digit mantissa in range is not rounded. *)
Lemma round_exact mz e : Zpos (digits2_pos mz) = 53 -> e <= 1024 - 53 -> -1074 <= e ->
  binary_round_aux prec emax false (Zpos mz) e loc_Exact = S754_finite false mz e.
Proof.
  intros Hd He He'. unfold binary_round_aux, shr_fexp. cbn [Zdigits2].
  replace (fexp prec emax (Zpos (digits2_pos mz) + e) - e) with 0
    by (unfold fexp, emin, prec, emax; lia).
  cbn [shr shr_record_of_loc shr_m loc_of_shr_record round_nearest_even Zdigits2].
  replace (fexp prec emax (Zpos (digits2_pos mz) + e) - e) with 0
    by (unfold fexp, emin, prec, emax; lia).
  cbn. replace (e <=? 971) with true by (symmetry; apply Z.leb_le; lia). reflexivity.
Qed.

(** A positive integer below [2^53] is a finite number of sign [+]
    whose value is the integer. *)
Lemma num_of_Z_pos m : Zpos m < 2 ^ 53 ->
  exists mz e, Prim2SF (num_of_Z (Zpos m)) = S754_finite false mz e /\
    Z.shiftl (Zpos mz) e = Zpos m.
Proof.
  intros Hm. unfold num_of_Z. change (Zpos m <? 0) with false. cbv iota. rewrite of_uint63_spec, of_Z_spec, Z.mod_small by (cbn; lia).
  pose proof (digits2_le_53 m Hm) as Hd.
  destruct (shl_align_exact m Hd) as (mz & Hs & Hmz).
  exists mz, (Zpos (digits2_pos m) - 53).
  unfold binary_normalize, binary_round. rewrite Z.add_0_r.
  replace (fexp prec emax (Zpos (digits2_pos m))) with (Zpos (digits2_pos m) - 53)
    by (unfold fexp, emin, prec, emax; lia).
  rewrite Hs. split.
  - apply round_exact; [|lia|lia].
    rewrite digits2_log2, Hmz, Z.log2_mul_pow2, digits2_log2 by lia. lia.
  - replace (Zpos (digits2_pos m) - 53) with (- (53 - Zpos (digits2_pos m))) by lia.
    rewrite Z.shiftl_opp_r, Z.shiftr_div_pow2, Hmz, Z.div_mul by (try apply Z.pow_nonzero; lia).
    reflexivity.
Qed.

(** The shape of the number of a non-negative integer: [+0] or a
    positive finite number. *)
Lemma num_of_Z_nonneg z : 0 <= z < 2 ^ 53 ->
  Prim2SF (num_of_Z z) = S754_zero false \/
  exists mz e, Prim2SF (num_of_Z z) = S754_finite false mz e /\ Z.shiftl (Zpos mz) e = z.
Proof.
  intros Hz. destruct z as [|m|m]; [left; reflexivity|right|lia].
  exact (num_of_Z_pos m (proj2 Hz)).
Qed.

(** Integers below [2^53] in absolute value are exact numbers. *)
Lemma integer_part_num_of_Z z : - 2 ^ 53 < z < 2 ^ 53 -> integer_part (num_of_Z z) = Some z.
Proof.
  intros Hz. unfold integer_part. destruct z as [|m|m]; [reflexivity| |].
  - destruct (num_of_Z_pos m (proj2 Hz)) as (mz & e & -> & He). cbn. rewrite He. reflexivity.
  - destruct (num_of_Z_pos m ltac:(lia)) as (mz & e & Hf & He).
    unfold num_of_Z in *. change (Zneg m <? 0) with true. change (- Zneg m) with (Zpos m).
    change (Zpos m <? 0) with false in Hf. cbv iota in *.
    rewrite FloatAxioms.opp_spec, Hf. cbn. rewrite He. reflexivity.
Qed.

Lemma num_to_Z_num_of_Z z : - 2 ^ 53 < z < 2 ^ 53 -> num_to_Z (num_of_Z z) = z.
Proof. intros Hz. unfold num_to_Z. rewrite integer_part_num_of_Z by exact Hz. reflexivity. Qed.

(** ** The integer conversions *)

Lemma to_int32_range z : - 2 ^ 31 <= to_int32 z < 2 ^ 31.
Proof. unfold to_int32. pose proof (Z.mod_pos_bound (z + 2 ^ 31) (2 ^ 32) ltac:(lia)). lia. Qed.

Lemma to_int32_small z : - 2 ^ 31 <= z < 2 ^ 31 -> to_int32 z = z.
Proof. unfold to_int32. intros H. rewrite Z.mod_small by lia. lia. Qed.

(** A size that [gl.viewport] accepts is also the size the canvas takes. *)
Lemma canvas_dim_to_int32 d z : 0 <= to_int32 z -> canvas_dim d z = to_int32 z.
Proof.
  unfold canvas_dim, to_int32. intros H.
  assert (E : z mod 2 ^ 32 = (z + 2 ^ 31) mod 2 ^ 32 - 2 ^ 31).
  { pose proof (Z.mod_pos_bound (z + 2 ^ 31) (2 ^ 32) ltac:(lia)).
    rewrite (Z.mod_unique z (2 ^ 32) ((z + 2 ^ 31) / 2 ^ 32) ((z + 2 ^ 31) mod 2 ^ 32 - 2 ^ 31)); [reflexivity|lia|].
    pose proof (Z.div_mod (z + 2 ^ 31) (2 ^ 32) ltac:(lia)). lia. }
  rewrite E. destruct (Z.leb_spec ((z + 2 ^ 31) mod 2 ^ 32 - 2 ^ 31) (2 ^ 31 - 1)); [reflexivity|].
  pose proof (Z.mod_pos_bound (z + 2 ^ 31) (2 ^ 32) ltac:(lia)). lia.
Qed.

Lemma canvas_dim_range d z : 0 <= d <= 2 ^ 31 - 1 -> 0 <= canvas_dim d z <= 2 ^ 31 - 1.
Proof.
  unfold canvas_dim. intros Hd. pose proof (Z.mod_pos_bound z (2 ^ 32) ltac:(lia)).
  destruct (Z.leb_spec (z mod 2 ^ 32) (2 ^ 31 - 1)); lia.
Qed.

Create Rewrite HintDb jsnum.
#[export] Hint Rewrite num_to_Z_num_of_Z integer_part_num_of_Z using lia : jsnum.

(** ** Signs *)

(** Rounding a result of sign [+] never gives a negative number. *)
Lemma round_aux_not_neg m e l : SFltb (binary_round_aux prec emax false m e l) (S754_zero false) = false.
Proof.
  unfold binary_round_aux.
  destruct (shr_fexp prec emax m e l) as [r1 e1].
  destruct (shr_fexp prec emax _ e1 loc_Exact) as [r2 e2].
  destruct (shr_m r2) as [|p|p]; [reflexivity| |reflexivity].
  destruct (e2 <=? emax - prec); reflexivity.
Qed.

(** The product of two positive integers is not a negative number. *)
Lemma mul_num_of_Z_not_neg a b : 0 < a < 2 ^ 53 -> 0 < b < 2 ^ 53 ->
  SFltb (Prim2SF (num_of_Z a * num_of_Z b)%float) (S754_zero false) = false.
Proof.
  intros Ha Hb. destruct a as [|ma|ma]; [lia| |lia]. destruct b as [|mb|mb]; [lia| |lia].
  rewrite FloatAxioms.mul_spec.
  destruct (num_of_Z_pos ma (proj2 Ha)) as (x & ex & -> & _).
  destruct (num_of_Z_pos mb (proj2 Hb)) as (y & ey & -> & _).
  apply round_aux_not_neg.
Qed.

(** ** Zeros *)

(** The number of an integer below [2^53] is a zero or a finite number. *)
Lemma num_of_Z_finite z : - 2 ^ 53 < z < 2 ^ 53 ->
  (exists s, Prim2SF (num_of_Z z) = S754_zero s) \/ (exists s m e, Prim2SF (num_of_Z z) = S754_finite s m e).
Proof.
  intros Hz. destruct z as [|m|m]; [left; exists false; reflexivity| |].
  - right. destruct (num_of_Z_pos m (proj2 Hz)) as (mz & e & -> & _). eauto.
  - right. destruct (num_of_Z_pos m ltac:(lia)) as (mz & e & Hf & _).
    unfold num_of_Z in *. change (Zneg m <? 0) with true. change (- Zneg m) with (Zpos m).
    change (Zpos m <? 0) with false in Hf. cbv iota in *.
    rewrite FloatAxioms.opp_spec, Hf. cbn. eauto.
Qed.

(** [a - a] is [+0] for a finite [a]. *)
Lemma sub_self_zero z : - 2 ^ 53 < z < 2 ^ 53 -> Prim2SF (num_of_Z z - num_of_Z z)%float = S754_zero false.
Proof.
  intros Hz. rewrite FloatAxioms.sub_spec.
  destruct (num_of_Z_finite z Hz) as [(s & ->)|(s & m & e & ->)]; [destruct s; reflexivity|].
  cbn -[binary_normalize]. rewrite Z.min_id, Z.sub_diag. reflexivity.
Qed.

(** [ToInt32] of a quotient whose divisor or dividend is [+0]: [NaN],
    an infinity or a zero, all converted to [0]. *)
Lemma ToInt32_div_by_zero x y : Prim2SF y = S754_zero false -> ToInt32 (x / y)%float = 0.
Proof.
  intros Hy. unfold ToInt32, num_to_Z, integer_part. rewrite FloatAxioms.div_spec, Hy.
  destruct (Prim2SF x) as [[]|[]| |[] ? ?]; reflexivity.
Qed.

Lemma ToInt32_zero_div x y : Prim2SF x = S754_zero false -> ToInt32 (x / y)%float = 0.
Proof.
  intros Hx. unfold ToInt32, num_to_Z, integer_part. rewrite FloatAxioms.div_spec, Hx.
  destruct (Prim2SF y) as [[]|[]| |[] ? ?]; reflexivity.
Qed.

(** [+0 / 1000] is [+0]. *)
Lemma zero_div_1000 x : Prim2SF x = S754_zero false -> Prim2SF (x / 1000)%float = S754_zero false.
Proof. intros Hx. rewrite FloatAxioms.div_spec, Hx. reflexivity. Qed.
