(* ===== verification/Fsm.v ===== *)
(** * The lifecycle guard of the [afsm] package

    [VideoContext] and [VideoNode] extend [FSM] from the [afsm] package and
    decorate their lifecycle methods with [@ChangeState(from, to, opt)].
    The package is not part of this repository: its behaviour is modelled
    from the specification (sections 4 and 9): a decorated method
    - does nothing when the object is already in the target state;
    - is rejected when [from] is a non-empty list that does not contain the
      current state (an [FSMError] thrown, or swallowed with [ignoreError]);
    - otherwise runs its body; on success the state becomes [to] and the
      [success] callback runs with the body's result; when the body throws,
      the state is left as it was and the exception propagates. *)

From stdpp Require Import base list.
From S2P Require Import Prelude.

(** The states used by the sources: [FSM.INIT] and the strings
    ['created'], ['connected'] and ['closed']. *)
Inductive St := SInit | SCreated | SConnected | SClosed.

#[export] Instance St_eq_dec : EqDecision St.
Proof. solve_decision. Defined.

(** The arguments of one [@ChangeState] decoration. *)
Record change := Change {
  ch_from : list St;
  ch_to : St;
  ch_ignoreError : bool
}.

Section ChangeState.
Context {E S : Type}.
(** How the store exposes the state of the decorated object, and the
    [FSMError] the package throws. *)
Variable get_st : S -> St.
Variable set_st : St -> S -> S.
Variable fsm_error : St -> St -> E.

(** Whether the guard lets the body run in state [cur]. *)
Definition allowed (ch : change) (cur : St) : bool :=
  match ch_from ch with
  | [] => true
  | l => bool_decide (cur ∈ l)
  end.

(** The decorated method: [None] when the body did not run. *)
Definition change_state {A} (ch : change) (body : M E S A)
    (success : A -> M E S unit) : M E S (option A) :=
  fun s =>
    let cur := get_st s in
    if decide (cur = ch_to ch) then Ok None s
    else if allowed ch cur then
      match body s with
      | Ok a s' =>
          match success a (set_st (ch_to ch) s') with
          | Ok _ s'' => Ok (Some a) s''
          | Exn e s'' => Exn e s''
          end
      | Exn e s' => Exn e (set_st cur s')
      end
    else if ch_ignoreError ch then Ok None s
    else Exn (fsm_error cur (ch_to ch)) s.

Lemma change_state_same {A} ch (body : M E S A) succ s :
  get_st s = ch_to ch -> change_state ch body succ s = Ok None s.
Proof. intros H. unfold change_state. by rewrite decide_True. Qed.

Lemma change_state_rejected {A} ch (body : M E S A) succ s :
  get_st s <> ch_to ch -> allowed ch (get_st s) = false ->
  change_state ch body succ s =
    if ch_ignoreError ch then Ok None s else Exn (fsm_error (get_st s) (ch_to ch)) s.
Proof. intros H1 H2. unfold change_state. rewrite decide_False by done. by rewrite H2. Qed.

Lemma change_state_run {A} ch (body : M E S A) succ s :
  get_st s <> ch_to ch -> allowed ch (get_st s) = true ->
  change_state ch body succ s =
    match body s with
    | Ok a s' =>
        match succ a (set_st (ch_to ch) s') with
        | Ok _ s'' => Ok (Some a) s''
        | Exn e s'' => Exn e s''
        end
    | Exn e s' => Exn e (set_st (get_st s) s')
    end.
Proof. intros H1 H2. unfold change_state. rewrite decide_False by done. by rewrite H2. Qed.

(** What the guard did when it returned. *)
Lemma change_state_Ok_cases {A} ch (body : M E S A) succ s r s' :
  change_state ch body succ s = Ok r s' ->
  (s' = s /\ (get_st s = ch_to ch \/ allowed ch (get_st s) = false)) \/
  exists a s1, body s = Ok a s1 /\ succ a (set_st (ch_to ch) s1) = Ok tt s'.
Proof.
  unfold change_state. intros H. case_decide; [injection H as <- <-; auto|].
  destruct (allowed _ _); [|destruct (ch_ignoreError ch); [injection H as <- <-; auto|discriminate]].
  destruct (body s) as [a s1|e s1]; [|discriminate]. right. exists a, s1. split; [done|].
  destruct (succ a _) as [[] s2|e s2]; [by injection H as <- <-|discriminate].
Qed.
End ChangeState.

Lemma allowed_any cur : allowed (Change [] SClosed false) cur = true.
Proof. reflexivity. Qed.

#[export] Hint Resolve allowed_any : vc.
