(* ===== verification/Model.v ===== *)
(** * The objects of a running video graph

    The data of [src/video-context.ts] and [src/video-node/*.ts]: the
    [VideoContext] object, every [VideoNode] subclass with its fields, the
    WebGL objects the nodes own, the intervals of the [wtimer] timer and a
    trace of the externally visible effects (draw calls, deleted WebGL
    objects, emitted events).  A JS object reference is a [nat] key of the
    store [w_nodes]; all of the graph lives in one [World]. *)

From stdpp Require Import base list gmap strings.
From Stdlib Require Import ZArith QArith.
From S2P Require Import Prelude Fsm.

(** ** Images ([TexImageSource]) *)

Inductive StillKind := HTMLImageElement | ImageData | ImageBitmap.

(** The classes [VideoImageSourceNode._render] tells apart with
    [instanceof]; [id] is the object's identity. *)
Inductive Image :=
| IVideo (id : nat) (quality : option Z) (videoWidth videoHeight : Z)
    (** an [HTMLVideoElement]; [quality] is
        [getVideoPlaybackQuality().totalVideoFrames] when the method exists *)
| IStill (id : nat) (k : StillKind) (width height : Z)
| ICanvas (id : nat) (width height : Z)
    (** [HTMLCanvasElement] or [OffscreenCanvas] *)
| IOther (id : nat).

Definition image_id (i : Image) : nat :=
  match i with IVideo id _ _ _ | IStill id _ _ _ | ICanvas id _ _ | IOther id => id end.

#[export] Instance StillKind_eq_dec : EqDecision StillKind.
Proof. solve_decision. Defined.
#[export] Instance Image_eq_dec : EqDecision Image.
Proof. solve_decision. Defined.

(** A canvas a node or the context owns: its identity, its size, whether
    a ['webglcontextlost'] listener is registered on it, and the
    horizontal part [x |-> sx * x + tx] of the current transform of its
    2-D context (the library only applies [scale(-1, 1)] and
    [translate(t, 0)], which keep [y] fixed). *)
Record Canvas := mkCanvas {
  cv_id : nat; cv_width : Z; cv_height : Z; cv_onLost : bool;
  cv_xform : Z * Z
}.

(** The identity transform of a fresh or cleared 2-D context. *)
Definition xform_id : Z * Z := (1, 0)%Z.

(** [canvas.width = width; canvas.height = height]: setting the size of a
    canvas resets its 2-D context, transform included (HTML, 4.12.5). *)
Definition cv_set_size (width height : Z) (cv : Canvas) : Canvas :=
  mkCanvas (cv_id cv) width height (cv_onLost cv) xform_id.

(** [ctx2d.scale(a, 1)] and [ctx2d.translate(d, 0)]: the new transform
    applies the old one after the scaling or the translation. *)
Definition cv_scale (a : Z) (cv : Canvas) : Canvas :=
  mkCanvas (cv_id cv) (cv_width cv) (cv_height cv) (cv_onLost cv) ((cv_xform cv).1 * a, (cv_xform cv).2)%Z.
Definition cv_translate (d : Z) (cv : Canvas) : Canvas :=
  mkCanvas (cv_id cv) (cv_width cv) (cv_height cv) (cv_onLost cv)
    ((cv_xform cv).1, (cv_xform cv).2 + (cv_xform cv).1 * d)%Z.

(** ** Mix slots ([src/video-node/mix.ts]) *)

Record MixLayout := mkLayout {
  ml_x : option Z; ml_y : option Z; ml_width : option Z; ml_height : option Z;
  ml_zIndex : Z
}.

(** [class NodeMixInfo]: the child node, its layout, its vertex buffer. *)
Record NodeMixInfo := mkInfo {
  mi_node : nat;
  mi_layout : MixLayout;
  mi_positionBuffer : option nat
}.

(** ** Node kinds and their own fields *)

(** [VideoImageSourceNode] ([VideoTrackSourceNode] when [sd_track]). *)
Record SourceData := mkSource {
  sd_image : Image;             (** [image] (public, may be reassigned) *)
  sd_last : option nat;         (** [_image]: identity of the last image seen *)
  sd_totalFrames : Z;           (** [_totalFrames] *)
  sd_track : option nat;        (** [_videoTrack] of a [VideoTrackSourceNode] *)
  sd_stream : option (list nat) (** the tracks of [_mediaStream]; [None] once deleted *)
}.

(** The subclasses of [VideoDestinationNode]. *)
Inductive DestKind :=
| DPlain
| DTrack                        (** [VideoTrackDestination] *)
| DFrame.                       (** [VideoFrameDestination] *)

Record DestData := mkDest {
  dd_kind : DestKind;
  dd_intervalId : nat;          (** [_intervalId] *)
  dd_sequence : Z;              (** [_sequence] *)
  dd_trackLive : bool;          (** the exported [_videoTrack] is not stopped *)
  dd_onmute : bool              (** [_videoTrack.onmute] is set *)
}.

Inductive Kind :=
| KSource (sd : SourceData)
| KMirror
| KMix (inputs : jsarr NodeMixInfo)
| KDest (dd : DestData).

(** ** Nodes ([src/video-node/base.ts], [class VideoNode]) *)

(** The WebGL objects allocated by the constructor; the fields keep their
    values for the node's whole life ([close] deletes the objects but
    does not clear the fields). *)
Record Res := mkRes {
  r_texture : option nat;
  r_fbo : option nat;
  r_texCoordBuffer : option nat;
  r_positionBuffer : option nat;
  r_program : option nat;
  r_vertexShader : option nat;
  r_fragmentShader : option nat
}.

Definition no_res : Res := mkRes None None None None None None None.

(** [interface VideoNodeInfo] ([src/video-node/base.ts]): a snapshot of
    a node's statistics. *)
Record NodeInfo := mkNodeInfo {
  i_timestamp : Z;
  i_totalFrames : Z; i_x : Z; i_y : Z; i_width : Z; i_height : Z;
  i_fps : Z
}.

(** The initial value of the field [lastInfo]: every field [0]. *)
Definition info0 : NodeInfo := mkNodeInfo 0 0 0 0 0 0 0.

Record Node := mkNode {
  n_name : string;
  n_matchInputSize : bool;
  n_res : Res;
  n_x : Z; n_y : Z;             (** never assigned: always [0] *)
  n_state : St;
  n_kind : Kind;
  n_input : option nat;
  n_output : option nat;
  n_width : Z; n_height : Z;
  n_ctx2d : bool;               (** [ctx2d] is not [null] *)
  n_canvas : option Canvas;     (** [_canvas] *)
  n_totalFrames : Z;
  n_dropFrames : Z;
  n_lastInfo : NodeInfo
}.

Definition set_state (st : St) (n : Node) : Node :=
  mkNode (n_name n) (n_matchInputSize n) (n_res n) (n_x n) (n_y n) st (n_kind n)
    (n_input n) (n_output n) (n_width n) (n_height n) (n_ctx2d n) (n_canvas n)
    (n_totalFrames n) (n_dropFrames n) (n_lastInfo n).
Definition set_kind (k : Kind) (n : Node) : Node :=
  mkNode (n_name n) (n_matchInputSize n) (n_res n) (n_x n) (n_y n) (n_state n) k
    (n_input n) (n_output n) (n_width n) (n_height n) (n_ctx2d n) (n_canvas n)
    (n_totalFrames n) (n_dropFrames n) (n_lastInfo n).
Definition set_input (i : option nat) (n : Node) : Node :=
  mkNode (n_name n) (n_matchInputSize n) (n_res n) (n_x n) (n_y n) (n_state n) (n_kind n)
    i (n_output n) (n_width n) (n_height n) (n_ctx2d n) (n_canvas n)
    (n_totalFrames n) (n_dropFrames n) (n_lastInfo n).
Definition set_output (o : option nat) (n : Node) : Node :=
  mkNode (n_name n) (n_matchInputSize n) (n_res n) (n_x n) (n_y n) (n_state n) (n_kind n)
    (n_input n) o (n_width n) (n_height n) (n_ctx2d n) (n_canvas n)
    (n_totalFrames n) (n_dropFrames n) (n_lastInfo n).
Definition set_size (w h : Z) (n : Node) : Node :=
  mkNode (n_name n) (n_matchInputSize n) (n_res n) (n_x n) (n_y n) (n_state n) (n_kind n)
    (n_input n) (n_output n) w h (n_ctx2d n) (n_canvas n)
    (n_totalFrames n) (n_dropFrames n) (n_lastInfo n).
Definition set_surface (ctx : bool) (cv : option Canvas) (n : Node) : Node :=
  mkNode (n_name n) (n_matchInputSize n) (n_res n) (n_x n) (n_y n) (n_state n) (n_kind n)
    (n_input n) (n_output n) (n_width n) (n_height n) ctx cv
    (n_totalFrames n) (n_dropFrames n) (n_lastInfo n).
Definition set_res (r : Res) (n : Node) : Node :=
  mkNode (n_name n) (n_matchInputSize n) r (n_x n) (n_y n) (n_state n) (n_kind n)
    (n_input n) (n_output n) (n_width n) (n_height n) (n_ctx2d n) (n_canvas n)
    (n_totalFrames n) (n_dropFrames n) (n_lastInfo n).
Definition set_frames (total drop : Z) (n : Node) : Node :=
  mkNode (n_name n) (n_matchInputSize n) (n_res n) (n_x n) (n_y n) (n_state n) (n_kind n)
    (n_input n) (n_output n) (n_width n) (n_height n) (n_ctx2d n) (n_canvas n)
    total drop (n_lastInfo n).
Definition set_name (s : string) (n : Node) : Node :=
  mkNode s (n_matchInputSize n) (n_res n) (n_x n) (n_y n) (n_state n) (n_kind n)
    (n_input n) (n_output n) (n_width n) (n_height n) (n_ctx2d n) (n_canvas n)
    (n_totalFrames n) (n_dropFrames n) (n_lastInfo n).
Definition set_lastInfo (li : NodeInfo) (n : Node) : Node :=
  mkNode (n_name n) (n_matchInputSize n) (n_res n) (n_x n) (n_y n) (n_state n) (n_kind n)
    (n_input n) (n_output n) (n_width n) (n_height n) (n_ctx2d n) (n_canvas n)
    (n_totalFrames n) (n_dropFrames n) li.

(** Assignments to the fields of a subclass, on the current object. *)
Definition upd_source (f : SourceData -> SourceData) (n : Node) : Node :=
  match n_kind n with KSource sd => set_kind (KSource (f sd)) n | _ => n end.
Definition upd_mix (f : jsarr NodeMixInfo -> jsarr NodeMixInfo) (n : Node) : Node :=
  match n_kind n with KMix a => set_kind (KMix (f a)) n | _ => n end.
Definition upd_dest (f : DestData -> DestData) (n : Node) : Node :=
  match n_kind n with KDest dd => set_kind (KDest (f dd)) n | _ => n end.

(** [this._sequence] of a destination; [None] for another class. *)
Definition dest_seq (n : Node) : option Z :=
  match n_kind n with KDest dd => Some (dd_sequence dd) | _ => None end.

(** The class of the object, as [instanceof] tells it: the prototype a
    constructor gave it, which no method changes. *)
Inductive NodeClass :=
| CImageSource | CTrackSource | CMirror | CMix | CDest (k : DestKind).

Definition node_class (n : Node) : NodeClass :=
  match n_kind n with
  | KSource sd => match sd_track sd with Some _ => CTrackSource | None => CImageSource end
  | KMirror => CMirror
  | KMix _ => CMix
  | KDest dd => CDest (dd_kind dd)
  end.

(** [node.image]: the source's image, or the node's own canvas. *)
Definition node_image (n : Node) : option Image :=
  match n_kind n with
  | KSource sd => Some (sd_image sd)
  | _ => match n_canvas n with
         | Some c => Some (ICanvas (cv_id c) (cv_width c) (cv_height c))
         | None => None
         end
  end.

(** ** The context ([src/video-context.ts], [class VideoContext]) *)

Record Ctx := mkCtx {
  c_frameRate : Z;
  c_state : St;
  c_canvas : option Canvas;     (** [_canvas] *)
  c_gl : bool;                  (** [_gl] is set *)
  c_ctx2d : bool;               (** [ctx2d] is set *)
  c_defaultProgram : option nat;(** [defaultProgam] *)
  c_hasAlpha : bool;
  c_glFaild : bool;
  c_listeners : list nat        (** nodes waiting on [once('disconnect')] *)
}.

Definition ctx_set_state (st : St) (c : Ctx) : Ctx :=
  mkCtx (c_frameRate c) st (c_canvas c) (c_gl c) (c_ctx2d c) (c_defaultProgram c)
    (c_hasAlpha c) (c_glFaild c) (c_listeners c).
Definition ctx_set_canvas (cv : option Canvas) (c : Ctx) : Ctx :=
  mkCtx (c_frameRate c) (c_state c) cv (c_gl c) (c_ctx2d c) (c_defaultProgram c)
    (c_hasAlpha c) (c_glFaild c) (c_listeners c).
Definition ctx_set_backend (gl ctx2d : bool) (c : Ctx) : Ctx :=
  mkCtx (c_frameRate c) (c_state c) (c_canvas c) gl ctx2d (c_defaultProgram c)
    (c_hasAlpha c) (c_glFaild c) (c_listeners c).
Definition ctx_set_program (p : option nat) (c : Ctx) : Ctx :=
  mkCtx (c_frameRate c) (c_state c) (c_canvas c) (c_gl c) (c_ctx2d c) p
    (c_hasAlpha c) (c_glFaild c) (c_listeners c).
Definition ctx_set_flags (alpha faild : bool) (c : Ctx) : Ctx :=
  mkCtx (c_frameRate c) (c_state c) (c_canvas c) (c_gl c) (c_ctx2d c) (c_defaultProgram c)
    alpha faild (c_listeners c).
Definition ctx_set_frameRate (r : Z) (c : Ctx) : Ctx :=
  mkCtx r (c_state c) (c_canvas c) (c_gl c) (c_ctx2d c) (c_defaultProgram c)
    (c_hasAlpha c) (c_glFaild c) (c_listeners c).
Definition ctx_set_listeners (l : list nat) (c : Ctx) : Ctx :=
  mkCtx (c_frameRate c) (c_state c) (c_canvas c) (c_gl c) (c_ctx2d c) (c_defaultProgram c)
    (c_hasAlpha c) (c_glFaild c) l.

(** [get width()] / [get height()]: [this._canvas?.width || 0]. *)
Definition ctx_width (c : Ctx) : Z := match c_canvas c with Some cv => cv_width cv | None => 0 end.
Definition ctx_height (c : Ctx) : Z := match c_canvas c with Some cv => cv_height cv | None => 0 end.

(** ** WebGL objects, intervals, effects *)

(** The live WebGL objects (textures, buffers, framebuffers, shaders,
    programs share one name space of handles), the error code [getError]
    returns ([0] is [NO_ERROR]), and
    whether the WebGL implementation throws when asked for a new object
    (the failure the constructors' [try]/[catch] guards against). *)
Record GL := mkGL { gl_live : gset nat; gl_next : nat; gl_error : Z; gl_fail : bool }.

(** The binding state of the WebGL context the render methods go
    through: the program of [useProgram], the framebuffer bound to
    [FRAMEBUFFER] ([None] is the canvas), the active texture unit, the
    texture bound to [TEXTURE_2D] (of unit [TEXTURE0], the only unit the
    code activates), the buffer bound to [ARRAY_BUFFER], the buffer
    each enabled vertex attribute reads, and the size of the viewport
    (its origin is always [(0, 0)]).  An attribute is keyed by its
    name: every node draws with the default program, where
    [a_position] and [a_texCoord] are two distinct active attributes. *)
Record Binding := mkBinding {
  b_program : option nat;
  b_fbo : option nat;
  b_unit : Z;
  b_tex : option nat;
  b_array : option nat;
  b_attribs : gmap string (option nat);
  b_viewport : Z * Z
}.

(** The bindings of a new WebGL context on a canvas of [width] by
    [height] pixels: the viewport covers the drawing buffer. *)
Definition bind0 (width height : Z) : Binding := mkBinding None None 0 None None ∅ (width, height).

(** An interval of [wtimer]: the destination whose tick it runs and the
    [lastFrameRate] its closure captured. *)
Record Interval := mkInterval { iv_node : nat; iv_rate : Z }.

Inductive Event :=
| EvDelete (h : nat)                          (** [gl.deleteX(h)] *)
| EvTexImage (tex : nat) (w h : Z)            (** storage (re)allocation *)
| EvUpload (node : nat) (full : bool)         (** [texImage2D] / [texSubImage2D] of a source *)
| EvTexParameters (tex : nat)                (** the four [texParameteri] of the constructor *)
| EvFramebufferTexture (fbo : nat) (tex : option nat)
                                              (** [framebufferTexture2D] on the bound framebuffer *)
| EvDraw (b : Binding)                        (** [drawArrays(TRIANGLE_STRIP, 0, 4)] under the bindings [b] *)
| EvBufferData (buf : nat) (data : list (option (Q * Q)))
                                              (** [bufferData] of a vertex buffer *)
| EvClear (fbo : option nat)                  (** [gl.clear] of the bound framebuffer *)
| EvClearRect (target : nat)                  (** [ctx2d.clearRect] of node [target] *)
| EvDraw2d (target : nat) (img : Image) (dx dy dw dh : Z)
| EvUnavailable (reason : string)             (** [emit('unavailable', ...)] *)
| EvTrackStop (node : nat)
| EvPlay (node : nat)                         (** [this.image.play()] of a track source *)
| EvSrcObject (node : nat) (set : bool).      (** [this.image.srcObject = stream] or [null] *)

(** Exceptions a call may end with. *)
Inductive Err :=
| EFsm (cur to : St)           (** [FSMError] of the lifecycle guard *)
| EInputExists                  (** [throw new Error('input already exists')] *)
| ETypeError                    (** use of [undefined] / [null] *)
| EBackend                      (** an exception of the WebGL implementation *)
| EStack.                       (** [RangeError]: maximum call stack size exceeded *)

(** A callback queued by [setTimeout(fn, 0)]: the deferred flip of a
    raster [VideoMirrorNode]. *)
Inductive Task := TMirrorFlip (node : nat).

Record World := mkWorld {
  w_ctx : Ctx;
  w_nodes : gmap nat Node;
  w_gl : GL;
  w_timers : gmap nat Interval;
  w_next_timer : nat;
  w_trace : list Event;
  w_tasks : list Task;
  w_bind : Binding
}.

Definition set_ctx (c : Ctx) (w : World) : World :=
  mkWorld c (w_nodes w) (w_gl w) (w_timers w) (w_next_timer w) (w_trace w) (w_tasks w) (w_bind w).
Definition set_nodes (ns : gmap nat Node) (w : World) : World :=
  mkWorld (w_ctx w) ns (w_gl w) (w_timers w) (w_next_timer w) (w_trace w) (w_tasks w) (w_bind w).
Definition set_gl (g : GL) (w : World) : World :=
  mkWorld (w_ctx w) (w_nodes w) g (w_timers w) (w_next_timer w) (w_trace w) (w_tasks w) (w_bind w).
Definition set_timers (t : gmap nat Interval) (next : nat) (w : World) : World :=
  mkWorld (w_ctx w) (w_nodes w) (w_gl w) t next (w_trace w) (w_tasks w) (w_bind w).
Definition add_event (e : Event) (w : World) : World :=
  mkWorld (w_ctx w) (w_nodes w) (w_gl w) (w_timers w) (w_next_timer w) (w_trace w ++ [e]) (w_tasks w) (w_bind w).
Definition set_tasks (ts : list Task) (w : World) : World :=
  mkWorld (w_ctx w) (w_nodes w) (w_gl w) (w_timers w) (w_next_timer w) (w_trace w) ts (w_bind w).
Definition set_bind (b : Binding) (w : World) : World :=
  mkWorld (w_ctx w) (w_nodes w) (w_gl w) (w_timers w) (w_next_timer w) (w_trace w) (w_tasks w) b.

(** ** The monad of the graph's methods *)

Abbreviation VC A := (M Err World A).

(** Dereferencing an object reference. *)
Definition get_node (id : nat) : VC Node :=
  fun w => match w_nodes w !! id with
           | Some n => Ok n w
           | None => Exn ETypeError w
           end.

Definition upd_node (id : nat) (f : Node -> Node) : VC unit :=
  modify (fun w => set_nodes (alter f id (w_nodes w)) w).

Definition get_ctx : VC Ctx := fun w => Ok (w_ctx w) w.
Definition upd_ctx (f : Ctx -> Ctx) : VC unit := modify (fun w => set_ctx (f (w_ctx w)) w).
Definition emit (e : Event) : VC unit := modify (add_event e).

(** [new]: a fresh object reference for a node. *)
Definition alloc_node (n : Node) : VC nat :=
  fun w => let id := fresh (dom (w_nodes w)) in Ok id (set_nodes (<[id := n]> (w_nodes w)) w).

(** [gl.deleteX(h)] on a handle the field holds, if any. *)
Definition gl_delete (h : option nat) : VC unit :=
  match h with
  | Some h => modify (fun w => add_event (EvDelete h)
                 (set_gl (mkGL (gl_live (w_gl w) ∖ {[h]}) (gl_next (w_gl w)) (gl_error (w_gl w))
                           (gl_fail (w_gl w))) w))
  | None => mret tt
  end.

(** [gl.createX()]: a fresh handle. *)
Definition gl_create : VC nat :=
  fun w => let g := w_gl w in
           if gl_fail g then Exn EBackend w
           else Ok (gl_next g) (set_gl (mkGL ({[gl_next g]} ∪ gl_live g) (S (gl_next g)) (gl_error g) (gl_fail g)) w).

(** The lifecycle guard applied to node [id]. *)
Definition node_change {A} (id : nat) (ch : change) (body : VC A)
    (success : A -> VC unit) : VC (option A) :=
  fun w => match w_nodes w !! id with
           | None => Exn ETypeError w
           | Some _ =>
               change_state
                 (fun w => match w_nodes w !! id with Some n => n_state n | None => SClosed end)
                 (fun st w => set_nodes (alter (set_state st) id (w_nodes w)) w)
                 EFsm ch body success w
           end.

(** ** Basic facts on the store *)

Lemma set_state_state st n : n_state (set_state st n) = st.
Proof. reflexivity. Qed.

Lemma lookup_upd_node_eq id f w n :
  w_nodes w !! id = Some n -> w_nodes (exec (upd_node id f) w) !! id = Some (f n).
Proof. intros H. unfold exec, upd_node, modify. simpl. by rewrite lookup_alter_eq, H. Qed.

Lemma lookup_upd_node_ne id id' f w :
  id <> id' -> w_nodes (exec (upd_node id f) w) !! id' = w_nodes w !! id'.
Proof. intros H. unfold exec, upd_node, modify. simpl. by rewrite lookup_alter_ne. Qed.

#[export] Hint Rewrite set_state_state : vc_rw.

(** ** Computing with the store *)

Lemma set_state_same n : set_state (n_state n) n = n.
Proof. by destruct n. Qed.

Lemma set_nodes_same w : set_nodes (w_nodes w) w = w.
Proof. by destruct w. Qed.

Lemma get_node_Some id n w : w_nodes w !! id = Some n -> get_node id w = Ok n w.
Proof. intros H. unfold get_node. by rewrite H. Qed.

Lemma get_node_Ok_inv id w n w' : get_node id w = Ok n w' -> w' = w /\ w_nodes w !! id = Some n.
Proof. unfold get_node. destruct (w_nodes w !! id); intros [=]; subst; auto. Qed.

Lemma upd_node_run id f w : upd_node id f w = Ok tt (set_nodes (alter f id (w_nodes w)) w).
Proof. reflexivity. Qed.

(** The guard on node [id] when the body is allowed to run. *)
Lemma node_change_run {A} id ch (body : VC A) succ w n :
  w_nodes w !! id = Some n -> n_state n <> ch_to ch -> allowed ch (n_state n) = true ->
  node_change id ch body succ w =
    match body w with
    | Ok a w1 =>
        match succ a (set_nodes (alter (set_state (ch_to ch)) id (w_nodes w1)) w1) with
        | Ok _ w2 => Ok (Some a) w2
        | Exn e w2 => Exn e w2
        end
    | Exn e w1 => Exn e (set_nodes (alter (set_state (n_state n)) id (w_nodes w1)) w1)
    end.
Proof.
  intros Hn Hne Ha. unfold node_change. rewrite Hn. unfold change_state. rewrite Hn.
  rewrite decide_False by done. by rewrite Ha.
Qed.

(** The guard when the node is already in the target state. *)
Lemma node_change_same {A} id ch (body : VC A) succ w n :
  w_nodes w !! id = Some n -> n_state n = ch_to ch -> node_change id ch body succ w = Ok None w.
Proof.
  intros Hn Heq. unfold node_change. rewrite Hn. unfold change_state. rewrite Hn.
  by rewrite decide_True.
Qed.

(** The guard when the state is not in [from]. *)
Lemma node_change_rejected {A} id ch (body : VC A) succ w n :
  w_nodes w !! id = Some n -> n_state n <> ch_to ch -> allowed ch (n_state n) = false ->
  node_change id ch body succ w =
    if ch_ignoreError ch then Ok None w else Exn (EFsm (n_state n) (ch_to ch)) w.
Proof.
  intros Hn Hne Ha. unfold node_change. rewrite Hn. unfold change_state. rewrite Hn.
  rewrite decide_False by done. by rewrite Ha.
Qed.

Lemma alter_set_state_same (m : gmap nat Node) id n :
  m !! id = Some n -> alter (set_state (n_state n)) id m = m.
Proof. intros H. apply alter_id. intros x Hx. rewrite H in Hx. injection Hx as <-. apply set_state_same. Qed.

(** What the guard on node [id] did when it returned. *)
Lemma node_change_Ok_cases {A} id ch (body : VC A) succ w r w' :
  node_change id ch body succ w = Ok r w' ->
  exists n, w_nodes w !! id = Some n /\
    ((w' = w /\ (n_state n = ch_to ch \/ allowed ch (n_state n) = false)) \/
     exists a w1, body w = Ok a w1 /\
       succ a (set_nodes (alter (set_state (ch_to ch)) id (w_nodes w1)) w1) = Ok tt w').
Proof.
  unfold node_change, change_state. destruct (w_nodes w !! id) as [n|] eqn:Hn; [|discriminate].
  cbn beta. rewrite ?Hn. intros H. exists n. split; [done|].
  case_decide; [injection H as <- <-; auto|].
  destruct (allowed _ _) eqn:Ha; [|destruct (ch_ignoreError ch); [injection H as <- <-; auto|discriminate]].
  destruct (body w) as [a w1|e w1]; [|discriminate].
  right. exists a, w1. split; [done|].
  destruct (succ a _) as [[] w2|e w2]; [by injection H as <- <-|discriminate].
Qed.
