(* ===== verification/Webgl.v ===== *)
(** * The WebGL calls of the graph

    The calls of [WebGLRenderingContext] the code makes on the binding
    state of the context ([Model.Binding]), then the helpers of
    [VideoNode] ([src/video-node/base.ts]: [useTexture],
    [useInputTexture], [useProgram], [useBufferFrame], [createBuffer],
    [setTexBuffer], [setPosBuffer], [changeBufferData], [setAttributes]) and
    [VideoContext.useTexture] ([src/video-context.ts]).  Four of them
    bracket an operation between a bind and an unbind; [GlState] shows
    that a render that returns leaves the framebuffer and texture
    bindings as it found them. *)

From stdpp Require Import base list gmap strings.
From Stdlib Require Import ZArith QArith.
From S2P Require Import Prelude JsNumber Fsm Model.

Local Open Scope Z_scope.

(** ** Calls of [WebGLRenderingContext] *)

(** [INVALID_OPERATION], the error a call on a missing binding records. *)
Definition GL_INVALID_OPERATION : Z := 1282.

(** The WebGL implementation records an error: the code is kept until
    [getError] reads it, and later errors are not recorded meanwhile. *)
Definition gl_raise (code : Z) : VC unit :=
  modify (fun w => let g := w_gl w in
                   if Z.eqb (gl_error g) 0 then set_gl (mkGL (gl_live g) (gl_next g) code (gl_fail g)) w
                   else w).

Definition get_bind : VC Binding := fun w => Ok (w_bind w) w.
Definition upd_bind (f : Binding -> Binding) : VC unit := modify (fun w => set_bind (f (w_bind w)) w).

(** [gl.useProgram(p)] *)
Definition gl_useProgram (p : option nat) : VC unit :=
  upd_bind (fun b => mkBinding p (b_fbo b) (b_unit b) (b_tex b) (b_array b) (b_attribs b) (b_viewport b)).

(** [gl.bindFramebuffer(gl.FRAMEBUFFER, f)]; [null] is the canvas. *)
Definition gl_bindFramebuffer (f : option nat) : VC unit :=
  upd_bind (fun b => mkBinding (b_program b) f (b_unit b) (b_tex b) (b_array b) (b_attribs b) (b_viewport b)).

(** [gl.activeTexture(gl.TEXTURE0 + u)] *)
Definition gl_activeTexture (u : Z) : VC unit :=
  upd_bind (fun b => mkBinding (b_program b) (b_fbo b) u (b_tex b) (b_array b) (b_attribs b) (b_viewport b)).

(** [gl.bindTexture(gl.TEXTURE_2D, t)] *)
Definition gl_bindTexture (t : option nat) : VC unit :=
  upd_bind (fun b => mkBinding (b_program b) (b_fbo b) (b_unit b) t (b_array b) (b_attribs b) (b_viewport b)).

(** [gl.bindBuffer(gl.ARRAY_BUFFER, buf)] *)
Definition gl_bindBuffer (buf : option nat) : VC unit :=
  upd_bind (fun b => mkBinding (b_program b) (b_fbo b) (b_unit b) (b_tex b) buf (b_attribs b) (b_viewport b)).

(** [INVALID_VALUE], the error of a negative viewport size. *)
Definition GL_INVALID_VALUE : Z := 1281.

(** [gl.viewport(0, 0, width, height)]: [GLsizei] is a WebIDL [long], so
    the numbers are converted by [to_int32]; a negative size records
    [INVALID_VALUE] and leaves the viewport as it was. *)
Definition gl_viewport (width height : Z) : VC unit :=
  let w := to_int32 width in
  let h := to_int32 height in
  if (w <? 0) || (h <? 0) then gl_raise GL_INVALID_VALUE
  else upd_bind (fun b => mkBinding (b_program b) (b_fbo b) (b_unit b) (b_tex b) (b_array b) (b_attribs b)
                                    (w, h)).

(** [gl.bufferData(gl.ARRAY_BUFFER, new Float32Array(data), gl.STATIC_DRAW)]
    writes the bound buffer. *)
Definition gl_bufferData (data : list (option (Q * Q))) : VC unit :=
  b <- get_bind ;;
  match b_array b with
  | Some buf => emit (EvBufferData buf data)
  | None => gl_raise GL_INVALID_OPERATION
  end.

(** The four [gl.texParameteri(gl.TEXTURE_2D, ...)] of the constructor. *)
Definition gl_texParameters : VC unit :=
  b <- get_bind ;;
  match b_tex b with
  | Some t => emit (EvTexParameters t)
  | None => gl_raise GL_INVALID_OPERATION
  end.

(** [gl.texImage2D(gl.TEXTURE_2D, 0, gl.RGBA, w, h, 0, gl.RGBA,
    gl.UNSIGNED_BYTE, null)]: new storage for the bound texture. *)
Definition gl_texImage2D (width height : Z) : VC unit :=
  b <- get_bind ;;
  match b_tex b with
  | Some t => emit (EvTexImage t width height)
  | None => gl_raise GL_INVALID_OPERATION
  end.

(** [gl.framebufferTexture2D(gl.FRAMEBUFFER, gl.COLOR_ATTACHMENT0,
    gl.TEXTURE_2D, tex, 0)] on the bound framebuffer. *)
Definition gl_framebufferTexture2D (tex : option nat) : VC unit :=
  b <- get_bind ;;
  match b_fbo b with
  | Some f => emit (EvFramebufferTexture f tex)
  | None => gl_raise GL_INVALID_OPERATION
  end.

(** [gl.enableVertexAttribArray(location)] and
    [gl.vertexAttribPointer(location, 2, gl.FLOAT, false, 0, 0)]: the
    attribute reads the buffer bound to [ARRAY_BUFFER]. *)
Definition gl_vertexAttrib (name : string) : VC unit :=
  b <- get_bind ;;
  match b_array b with
  | Some _ => upd_bind (fun b => mkBinding (b_program b) (b_fbo b) (b_unit b) (b_tex b) (b_array b)
                                           (<[name := b_array b]> (b_attribs b)) (b_viewport b))
  | None => gl_raise GL_INVALID_OPERATION
  end.

(** [gl.drawArrays(gl.TRIANGLE_STRIP, 0, 4)] draws with the current bindings. *)
Definition gl_drawArrays : VC unit := b <- get_bind ;; emit (EvDraw b).

(** [gl.clearColor(0, 0, 0, 0)] and [gl.clear(...)] clear the bound framebuffer. *)
Definition gl_clear : VC unit := b <- get_bind ;; emit (EvClear (b_fbo b)).

(** ** [VideoContext.useTexture] and the helpers of [VideoNode] *)

(** [const gl = this._gl!] followed by a call on [gl]: a [TypeError]
    once the context has no WebGL context. *)
Definition need_gl : VC unit := c <- get_ctx ;; if c_gl c then mret tt else throw ETypeError.

(** [VideoContext.useTexture(texture, operation, index)]; no caller
    passes [index], so the unit is [TEXTURE0]. *)
Definition ctx_useTexture (tex : option nat) (op : VC unit) : VC unit :=
  need_gl ;;; gl_activeTexture 0 ;;; gl_bindTexture tex ;;; op ;;; gl_bindTexture None.

(** [useTexture(operation)]: only when the node has a texture. *)
Definition node_useTexture (id : nat) (op : VC unit) : VC unit :=
  n <- get_node id ;;
  match r_texture (n_res n) with
  | Some t => ctx_useTexture (Some t) op
  | None => mret tt
  end.

(** [useInputTexture(operation)]: [this.input!.texture!]. *)
Definition useInputTexture (id : nat) (op : VC unit) : VC unit :=
  n <- get_node id ;;
  match n_input n with
  | Some i => inp <- get_node i ;; ctx_useTexture (r_texture (n_res inp)) op
  | None => throw ETypeError
  end.

(** [useProgram()] *)
Definition useProgram (id : nat) : VC unit :=
  need_gl ;;; n <- get_node id ;; gl_useProgram (r_program (n_res n)).

(** [useBufferFrame(operation)]: [operation] draws into the node's framebuffer. *)
Definition useBufferFrame (id : nat) (op : VC unit) : VC unit :=
  need_gl ;;; n <- get_node id ;;
  gl_bindFramebuffer (r_fbo (n_res n)) ;;; op ;;; gl_bindFramebuffer None.

(** [createBuffer(data)] *)
Definition createBuffer (data : list (option (Q * Q))) : VC nat :=
  need_gl ;;; b <- gl_create ;; gl_bindBuffer (Some b) ;;; gl_bufferData data ;;; mret b.

(** [setTexBuffer(data)]: new data for the node's texture-coordinate buffer. *)
Definition setTexBuffer (id : nat) (data : list (option (Q * Q))) : VC unit :=
  need_gl ;;; n <- get_node id ;; gl_bindBuffer (r_texCoordBuffer (n_res n)) ;;; gl_bufferData data.

(** [setPosBuffer(data)]: new data for the node's position buffer; the
    repository has no caller. *)
Definition setPosBuffer (id : nat) (data : list (option (Q * Q))) : VC unit :=
  need_gl ;;; n <- get_node id ;; gl_bindBuffer (r_positionBuffer (n_res n)) ;;; gl_bufferData data.

(** [changeBufferData(b, data)] *)
Definition changeBufferData (buf : nat) (data : list (option (Q * Q))) : VC unit :=
  need_gl ;;; gl_bindBuffer (Some buf) ;;; gl_bufferData data.

(** One round of the [for (const name in attributes)] loop of
    [setAttributes]: [gl.getAttribLocation(this.program!, name)] throws
    a [TypeError] without a WebGL context or on an [undefined] program. *)
Definition setAttribute (id : nat) (attr : string * option nat) : VC unit :=
  need_gl ;;; n <- get_node id ;;
  match r_program (n_res n) with
  | Some _ => gl_bindBuffer attr.2 ;;; gl_vertexAttrib attr.1
  | None => throw ETypeError
  end.

(** [setAttributes(attributes)], the attributes in the order of the
    object literal. *)
Definition setAttributes (id : nat) (attrs : list (string * option nat)) : VC unit :=
  mfor attrs (setAttribute id).

(** The calls and helpers that bracket nothing, opened by the tactics
    that check a method step by step. *)
Ltac unfold_gl :=
  unfold gl_useProgram, gl_bindFramebuffer, gl_activeTexture, gl_bindTexture, gl_bindBuffer,
    gl_bufferData, gl_texParameters, gl_texImage2D, gl_framebufferTexture2D, gl_vertexAttrib,
    gl_drawArrays, gl_clear, gl_viewport, useProgram, createBuffer, setTexBuffer, changeBufferData,
    setAttributes, setAttribute.
