(* ===== verification/Layout.v ===== *)
(** * Mix geometry: slot rectangles, the bounding box, vertex coordinates

    [class NodeMixInfo] of [src/video-node/mix.ts] (the getters [x], [y],
    [width], [height], [right], [bottom], which fall back to the child
    node's own geometry when the layout field is missing {e or zero}), the
    bounding-box [reduce] of [VideoMixNode.resize], and
    [VideoNode.getVertexPoint] / [layout2texCoords] of
    [src/video-node/base.ts], which map a rectangle to normalized device
    coordinates.  Division is in [Q]; a division by a zero size (which JS
    answers with [Infinity] or [NaN]) is [None].

    The file ends with the bounding-box characterization, the clip-space
    bound and the round trip of the vertex computation. *)

From stdpp Require Import base list.
From Stdlib Require Import ZArith QArith Lia.
From S2P Require Import Prelude Fsm Model.

Local Open Scope Z_scope.

(** ** The getters of [NodeMixInfo]; [c] is the child node [this.node]. *)

Definition info_x (l : MixLayout) (c : Node) : Z := js_or (ml_x l) (n_x c).
Definition info_y (l : MixLayout) (c : Node) : Z := js_or (ml_y l) (n_y c).
Definition info_width (l : MixLayout) (c : Node) : Z := js_or (ml_width l) (n_width c).
Definition info_height (l : MixLayout) (c : Node) : Z := js_or (ml_height l) (n_height c).
Definition info_right (l : MixLayout) (c : Node) : Z := info_x l c + info_width l c.
Definition info_bottom (l : MixLayout) (c : Node) : Z := info_y l c + info_height l c.

(** A slot's rectangle [(x, y, width, height)]. *)
Record Rect := mkRect { rx : Z; ry : Z; rw : Z; rh : Z }.

Definition info_rect (l : MixLayout) (c : Node) : Rect :=
  mkRect (info_x l c) (info_y l c) (info_width l c) (info_height l c).

(** ** The bounding box of [VideoMixNode.resize]

    [inputs.reduce((size, input) => input ? {max(size.width, input.right),
    max(size.height, input.bottom)} : size, {width: 0, height: 0})]
    over the array, holes included; [None] is an empty element. *)

Definition bbox_step (size : Z * Z) (r : option Rect) : Z * Z :=
  match r with
  | Some r => (Z.max size.1 (rx r + rw r), Z.max size.2 (ry r + rh r))
  | None => size
  end.

Definition mix_bbox (rs : list (option Rect)) : Z * Z := fold_left bbox_step rs (0, 0).

(** ** Normalized device coordinates

    [getVertexPoint(x, y) = [(x / this.width) * 2 - 1, (y / this.height) * 2 - 1]] *)

Definition ndc (v d : Z) : option Q :=
  if Z.eqb d 0 then None else Some ((inject_Z v / inject_Z d) * 2 - 1)%Q.

Definition getVertexPoint (W H x y : Z) : option (Q * Q) :=
  match ndc x W, ndc y H with
  | Some a, Some b => Some (a, b)
  | _, _ => None
  end.

(** [layout2texCoords(layout)]: the four corners in the order the triangle
    strip uses them. *)
Definition layout2texCoords (W H : Z) (r : Rect) : list (option (Q * Q)) :=
  [ getVertexPoint W H (rx r) (ry r);
    getVertexPoint W H (rx r) (ry r + rh r);
    getVertexPoint W H (rx r + rw r) (ry r);
    getVertexPoint W H (rx r + rw r) (ry r + rh r) ].

(** The inverse map, from device coordinates back to pixels. *)
Definition pixel_of_ndc (q : Q) (d : Z) : Q := ((q + 1) / 2 * inject_Z d)%Q.

(** ** Lemmas *)

Lemma fold_bbox_mono rs s :
  s.1 <= (fold_left bbox_step rs s).1 /\ s.2 <= (fold_left bbox_step rs s).2.
Proof.
  revert s. induction rs as [|[r|] rs IH]; intros s; simpl; [lia| |apply IH].
  destruct (IH (Z.max s.1 (rx r + rw r), Z.max s.2 (ry r + rh r))) as [H1 H2]; simpl in *; lia.
Qed.

Lemma fold_bbox_contains rs s r :
  In (Some r) rs ->
  rx r + rw r <= (fold_left bbox_step rs s).1 /\ ry r + rh r <= (fold_left bbox_step rs s).2.
Proof.
  revert s. induction rs as [|o rs IH]; intros s Hin; simpl in *; [done|].
  destruct Hin as [Ho|Hin]; [subst o|by apply IH].
  destruct (fold_bbox_mono rs (Z.max s.1 (rx r + rw r), Z.max s.2 (ry r + rh r))); simpl in *; lia.
Qed.

Lemma fold_bbox_least rs s W H :
  s.1 <= W -> s.2 <= H ->
  (forall r, In (Some r) rs -> rx r + rw r <= W /\ ry r + rh r <= H) ->
  (fold_left bbox_step rs s).1 <= W /\ (fold_left bbox_step rs s).2 <= H.
Proof.
  revert s. induction rs as [|[r|] rs IH]; intros s H1 H2 Hall; simpl; [lia| |].
  - destruct (Hall r) as [Ha Hb]; [now left|].
    apply IH; simpl; [lia|lia|]. intros r' Hr'. apply Hall. now right.
  - apply IH; auto. intros r' Hr'. apply Hall. now right.
Qed.

Lemma ndc_some v d : d <> 0 -> ndc v d = Some ((inject_Z v / inject_Z d) * 2 - 1)%Q.
Proof. intros H. unfold ndc. destruct (Z.eqb_spec d 0); [contradiction|reflexivity]. Qed.

Lemma ndc_range v d q : 0 <= v <= d -> ndc v d = Some q -> (-1 <= q <= 1)%Q.
Proof.
  intros [H0 H1] Hq. unfold ndc in Hq. destruct (Z.eqb_spec d 0) as [|Hd]; [discriminate|].
  injection Hq as <-.
  assert (Hd' : (inject_Z 0 < inject_Z d)%Q) by (rewrite <- Zlt_Qlt; lia).
  assert (Hlo : (0 <= inject_Z v / inject_Z d)%Q).
  { apply Qle_shift_div_l; [done|]. rewrite Qmult_0_l. change 0%Q with (inject_Z 0). rewrite <- Zle_Qle. lia. }
  assert (Hhi : (inject_Z v / inject_Z d <= 1)%Q).
  { apply Qle_shift_div_r; [done|]. rewrite Qmult_1_l. rewrite <- Zle_Qle. lia. }
  split.
  - apply (Qplus_le_l _ _ 1). ring_simplify.
    apply (Qmult_le_compat_r 0 _ 2) in Hlo; [|discriminate]. rewrite Qmult_0_l in Hlo.
    rewrite Qmult_comm. exact Hlo.
  - apply (Qplus_le_l _ _ 1). ring_simplify.
    apply (Qmult_le_compat_r _ 1 2) in Hhi; [|discriminate].
    rewrite Qmult_comm. exact Hhi.
Qed.

Lemma pixel_of_ndc_ndc v d q : d <> 0 -> ndc v d = Some q -> (pixel_of_ndc q d == inject_Z v)%Q.
Proof.
  intros Hd Hq. rewrite ndc_some in Hq by done. injection Hq as <-.
  unfold pixel_of_ndc.
  assert (~ inject_Z d == 0)%Q by (unfold Qeq; simpl; lia).
  field. done.
Qed.

Lemma getVertexPoint_range W H x y :
  0 <= x <= W -> 0 <= y <= H -> W <> 0 -> H <> 0 ->
  exists a b, getVertexPoint W H x y = Some (a, b) /\ (-1 <= a <= 1)%Q /\ (-1 <= b <= 1)%Q.
Proof.
  intros Hx Hy HW HH. unfold getVertexPoint. rewrite !ndc_some by done.
  do 2 eexists. split; [reflexivity|].
  split; [apply (ndc_range x W)|apply (ndc_range y H)]; auto; by apply ndc_some.
Qed.

(** ** Properties *)

(** C23: the size [VideoMixNode.resize] computes is the bounding box of
    the slots anchored at the origin: it is non-negative, contains the
    rectangle of every occupied slot, and is the least such size. *)
Theorem mix_bbox_spec rs :
  (0 <= (mix_bbox rs).1 /\ 0 <= (mix_bbox rs).2) /\
  (forall r, In (Some r) rs -> rx r + rw r <= (mix_bbox rs).1 /\ ry r + rh r <= (mix_bbox rs).2) /\
  (forall W H, 0 <= W -> 0 <= H ->
     (forall r, In (Some r) rs -> rx r + rw r <= W /\ ry r + rh r <= H) ->
     (mix_bbox rs).1 <= W /\ (mix_bbox rs).2 <= H).
Proof.
  unfold mix_bbox. split; [apply (fold_bbox_mono rs (0, 0))|split].
  - intros r Hr. by apply fold_bbox_contains.
  - intros W H HW HH Hall. by apply fold_bbox_least.
Qed.

(** The vertex data of a slot that lies inside the mix's area are four
    defined points of the clip space [[-1, 1] x [-1, 1]]. *)
Theorem layout2texCoords_in_clip W H r :
  0 < W -> 0 < H -> 0 <= rx r -> 0 <= ry r -> 0 <= rw r -> 0 <= rh r ->
  rx r + rw r <= W -> ry r + rh r <= H ->
  Forall (fun p => exists a b, p = Some (a, b) /\ (-1 <= a <= 1)%Q /\ (-1 <= b <= 1)%Q)
         (layout2texCoords W H r).
Proof.
  intros. unfold layout2texCoords.
  repeat constructor; apply getVertexPoint_range; lia.
Qed.

(** [getVertexPoint] loses nothing: mapping its result back to
    pixels gives the point it was given. *)
Theorem getVertexPoint_roundtrip W H x y a b :
  getVertexPoint W H x y = Some (a, b) ->
  (pixel_of_ndc a W == inject_Z x)%Q /\ (pixel_of_ndc b H == inject_Z y)%Q.
Proof.
  unfold getVertexPoint. intros Hg.
  destruct (ndc x W) as [qa|] eqn:Ha; [|discriminate]. destruct (ndc y H) as [qb|] eqn:Hb; [|discriminate].
  injection Hg as <- <-.
  split; eapply pixel_of_ndc_ndc; eauto; intros ->; discriminate.
Qed.

(** The second slot of the specification's mix scenario, in a 150 x 150 mix. *)
Lemma layout2texCoords_in_clip_witness :
  Forall (fun p => exists a b, p = Some (a, b) /\ (-1 <= a <= 1)%Q /\ (-1 <= b <= 1)%Q)
         (layout2texCoords 150 150 (mkRect 50 50 100 100)).
Proof. apply layout2texCoords_in_clip; simpl; lia. Defined.

Lemma getVertexPoint_roundtrip_witness :
  exists a b, getVertexPoint 150 150 50 150 = Some (a, b) /\
              (pixel_of_ndc a 150 == inject_Z 50)%Q /\ (pixel_of_ndc b 150 == inject_Z 150)%Q.
Proof.
  do 2 eexists. split; [vm_compute; reflexivity|].
  apply getVertexPoint_roundtrip. vm_compute. reflexivity.
Defined.
