(* ===== verification/Graph.v ===== *)
(** * Graph edges, sizing and teardown of [VideoNode] and its subclasses

    The methods of [src/video-node/base.ts] that edit the graph
    ([connect], [addInput], [disconnect], [removeInput], [close]) and
    propagate sizes ([resize]), with the overrides of [VideoMixNode]
    ([src/video-node/mix.ts]) and of the destinations
    ([src/video-node/destination.ts]).  A call on node [id] dispatches on
    the node's kind the way JS dispatches on its class.  [resize] follows
    [output] edges and may recurse without end on a cyclic graph: it takes
    a [fuel] bound, and running out of it is the [RangeError] JS raises.

    The file ends with the behaviour of these methods on each branch of
    the lifecycle guard, on the configuration conflict of a mix, on a
    second [close] and on [resize] to the current size; with
    [removeInput], which drops a destination's input whoever asks; and
    with [addInput] on a destination, which arms an interval without
    clearing the one it holds ([timers_eq] is the relation of the
    methods that leave the intervals alone). *)

From stdpp Require Import base list gmap strings.
From Stdlib Require Import ZArith QArith Lia.
From S2P Require Import Prelude JsNumber Fsm Model Webgl Layout.

Local Open Scope Z_scope.

(** ** The [wtimer] intervals and [VideoContext.setSize] *)

(** [timer.setInterval(cb, 1000 / frameRate)]: a fresh interval id. *)
Definition timer_set (node : nat) (rate : Z) : VC nat :=
  fun w => let id := w_next_timer w in
           Ok id (set_timers (<[id := mkInterval node rate]> (w_timers w)) (S id) w).

(** [timer.clearInterval(id)] *)
Definition timer_clear (id : nat) : VC unit :=
  modify (fun w => set_timers (delete id (w_timers w)) (w_next_timer w) w).

(** [VideoContext.setSize(width, height)] *)
Definition ctx_setSize (width height : Z) : VC unit :=
  c <- get_ctx ;;
  (if c_gl c then gl_viewport width height else mret tt) ;;;
  match c_canvas c with
  | Some cv => upd_ctx (ctx_set_canvas (Some (cv_set_size (canvas_dim 300 width) (canvas_dim 150 height) cv)))
  | None => mret tt
  end.

(** ** [removeInput] *)

Definition same_node (child : nat) (o : option NodeMixInfo) : bool :=
  match o with Some mi => Nat.eqb (mi_node mi) child | None => false end.

(** [VideoNode.removeInput]: [delete this.input], whatever [node] is. *)
Definition base_removeInput (target : nat) : VC unit := upd_node target (set_input None).

(** [VideoMixNode.removeInput]:
    [this.inputs[this.inputs.findIndex(input => input?.node === node)] = void 0]. *)
Definition mix_removeInput (target child : nat) : VC unit :=
  upd_node target (upd_mix (fun a => ja_set a (ja_find_index (same_node child) a) None)).

(** [VideoDestinationNode.removeInput]: [super.removeInput(node)], then
    the interval [dd] holds is cleared. *)
Definition dest_removeInput (target : nat) (dd : DestData) : VC unit :=
  base_removeInput target ;;; timer_clear (dd_intervalId dd).

(** [removeInput] dispatched on the target's class. *)
Definition removeInput (target child : nat) : VC unit :=
  t <- get_node target ;;
  match n_kind t with
  | KMix _ => mix_removeInput target child
  | KDest dd => dest_removeInput target dd
  | _ => base_removeInput target
  end.

(** ** [disconnect]: [@ChangeState('connected', FSM.INIT, { ignoreError: true })] *)

Definition disconnect_body (id : nat) : VC unit :=
  n <- get_node id ;;
  (match n_output n with Some o => removeInput o id | None => mret tt end) ;;;
  upd_node id (set_output None).

Definition ch_disconnect : change := Change [SConnected] SInit true.

Definition disconnect (id : nat) : VC unit :=
  _ <- node_change id ch_disconnect (disconnect_body id) (fun _ => mret tt) ;; mret tt.

(** ** [resize] *)

(** The rectangle of a slot, read through the child node. *)
Definition slot_rect (o : option NodeMixInfo) : VC (option Rect) :=
  match o with
  | Some mi => c <- get_node (mi_node mi) ;; mret (Some (info_rect (mi_layout mi) c))
  | None => mret None
  end.

(** [VideoNode.resize] without its last line, which calls [rec] on the
    output when the output has [matchInputSize]. *)
Definition base_resize (rec : nat -> Z -> Z -> VC unit) (id : nat) (width height : Z) : VC unit :=
  n <- get_node id ;;
  if Z.eqb (n_width n) width && Z.eqb (n_height n) height then mret tt else
  upd_node id (set_size width height) ;;;
  (match n_canvas n with
   | Some cv => upd_node id (set_surface (n_ctx2d n) (Some (cv_set_size width height cv)))
   | None => mret tt
   end) ;;;
  (match r_texture (n_res n), r_fbo (n_res n) with
   | Some _, Some _ => node_useTexture id (gl_texImage2D width height)
   | _, _ => mret tt
   end) ;;;
  n <- get_node id ;;
  match n_output n with
  | Some o => on <- get_node o ;; if n_matchInputSize on then rec o width height else mret tt
  | None => mret tt
  end.

(** [input.positionBuffer = b]: the assignment mutates the [NodeMixInfo]
    object held at element [i]. *)
Definition set_slot_buffer (i : nat) (b : nat) (n : Node) : Node :=
  match n_kind n with
  | KMix a =>
      match mjoin (ja_elems a !! i) with
      | Some mi => set_kind (KMix (ja_set a (Z.of_nat i) (Some (mkInfo (mi_node mi) (mi_layout mi) (Some b))))) n
      | None => n
      end
  | _ => n
  end.

(** The [forEach] of [VideoMixNode.resize] on element [i]: recompute the
    slot's vertex data, update its buffer or create it. *)
Definition mix_slot_buffer (id : nat) (i : nat) : VC unit :=
  n <- get_node id ;;
  match n_kind n with
  | KMix inputs =>
      match mjoin (ja_elems inputs !! i) with
      | Some mi =>
          c <- get_node (mi_node mi) ;;
          let data := layout2texCoords (n_width n) (n_height n) (info_rect (mi_layout mi) c) in
          match mi_positionBuffer mi with
          | Some b => changeBufferData b data
          | None => b <- createBuffer data ;; upd_node id (set_slot_buffer i b)
          end
      | None => mret tt
      end
  | _ => mret tt
  end.

(** [resize] dispatched on the node's class. *)
Fixpoint resize (fuel : nat) (id : nat) (width height : Z) : VC unit :=
  match fuel with
  | O => throw EStack
  | S f =>
      n <- get_node id ;;
      match n_kind n with
      | KMix inputs =>
          (** [VideoMixNode.resize]: the arguments are ignored *)
          rs <- mmap slot_rect (ja_elems inputs) ;;
          let size := mix_bbox rs in
          base_resize (resize f) id size.1 size.2 ;;;
          c <- get_ctx ;;
          if c_gl c then
            n' <- get_node id ;;
            match n_kind n' with
            | KMix inputs' => mfor (seq 0 (length (ja_elems inputs'))) (mix_slot_buffer id)
            | _ => mret tt
            end
          else mret tt
      | KDest dd =>
          match dd_kind dd with
          | DTrack => base_resize (resize f) id width height ;;; ctx_setSize width height
          | _ => base_resize (resize f) id width height
          end
      | _ => base_resize (resize f) id width height
      end
  end.

(** ** [addInput] and [connect] *)

(** [VideoDestinationNode.start(lastFrameRate)]: arm a new interval. *)
Definition dest_start (id : nat) : VC unit :=
  c <- get_ctx ;;
  iv <- timer_set id (c_frameRate c) ;;
  n <- get_node id ;;
  match n_kind n with
  | KDest _ => upd_node id (upd_dest (fun dd => mkDest (dd_kind dd) iv (dd_sequence dd)
                                                     (dd_trackLive dd) (dd_onmute dd)))
  | _ => mret tt
  end.

(** [VideoNode.addInput]: set the input and adopt its size. *)
Definition base_addInput (fuel : nat) (target child : nat) : VC unit :=
  upd_node target (set_input (Some child)) ;;;
  t <- get_node target ;;
  c <- get_node child ;;
  if n_matchInputSize t && negb (Z.eqb (n_width c) 0) && negb (Z.eqb (n_height c) 0)
  then resize fuel target (n_width c) (n_height c)
  else mret tt.

(** [VideoMixNode.addInput(node, layout)] on the slots [inputs]: an
    occupied depth is a configuration conflict. *)
Definition mix_addInput (target child : nat) (inputs : jsarr NodeMixInfo) (layout : option MixLayout) : VC unit :=
  match layout with
  | None => throw ETypeError
  | Some l =>
      match ja_get inputs (ml_zIndex l) with
      | Some _ => throw EInputExists
      | None => upd_node target (upd_mix (fun a => ja_set a (ml_zIndex l) (Some (mkInfo child l None))))
      end
  end.

(** [VideoDestinationNode.addInput]: [super.addInput(node)], then
    [this.start(this.context.frameRate)]. *)
Definition dest_addInput (fuel : nat) (target child : nat) : VC unit :=
  base_addInput fuel target child ;;; dest_start target.

(** [addInput] dispatched on the target's class; [layout] is the extra
    argument [connect] forwards (a [MixLayout] for a mix). *)
Definition addInput (fuel : nat) (target child : nat) (layout : option MixLayout) : VC unit :=
  t <- get_node target ;;
  match n_kind t with
  | KMix inputs => mix_addInput target child inputs layout
  | KDest _ => dest_addInput fuel target child
  | _ => base_addInput fuel target child
  end.

Definition ch_connect : change := Change [SInit] SConnected false.

(** [VideoNode.connect(node, ...args)] under
    [@ChangeState(FSM.INIT, 'connected')]. *)
Definition base_connect (fuel : nat) (id target : nat) (layout : option MixLayout) : VC unit :=
  _ <- node_change id ch_connect
         (addInput fuel target id layout ;;; upd_node id (set_output (Some target)))
         (fun _ => mret tt) ;;
  mret tt.

(** [connect] dispatched on the class of [this]: the override of
    [VideoMixNode] calls [super.connect] and then [this.resize(0, 0)]. *)
Definition connect (fuel : nat) (id target : nat) (layout : option MixLayout) : VC unit :=
  base_connect fuel id target layout ;;;
  n <- get_node id ;;
  match n_kind n with
  | KMix _ => resize fuel id 0 0
  | _ => mret tt
  end.

(** ** [close]: [@ChangeState([], 'closed')] *)

(** The WebGL objects [close] deletes, in the order it deletes them; the
    program only when it is not the context's default program. *)
Definition release_res (r : Res) (defaultProgram : option nat) : VC unit :=
  gl_delete (r_texCoordBuffer r) ;;;
  gl_delete (r_positionBuffer r) ;;;
  gl_delete (r_fbo r) ;;;
  gl_delete (r_texture r) ;;;
  gl_delete (r_vertexShader r) ;;;
  gl_delete (r_fragmentShader r) ;;;
  match r_program r with
  | Some p => if decide (Some p = defaultProgram) then mret tt else gl_delete (Some p)
  | None => mret tt
  end.

Definition base_close_body (id : nat) : VC unit :=
  n <- get_node id ;;
  (match n_output n with Some o => removeInput o id | None => mret tt end) ;;;
  upd_node id (set_output None) ;;;
  n <- get_node id ;;
  (match n_input n with Some i => disconnect i | None => mret tt end) ;;;
  c <- get_ctx ;;
  (if c_gl c then release_res (n_res n) (c_defaultProgram c) else mret tt) ;;;
  n <- get_node id ;;
  match n_canvas n with
  | Some cv => upd_node id (set_surface false (Some (cv_set_size 0 0 cv)))
  | None => mret tt
  end.

Definition ch_close : change := Change [] SClosed false.

(** The [forEach] of [VideoMixNode.close] on element [i]: disconnect the
    child, delete the slot's vertex buffer. *)
Definition mix_close_slot (id : nat) (i : nat) : VC unit :=
  n <- get_node id ;;
  match n_kind n with
  | KMix inputs =>
      match mjoin (ja_elems inputs !! i) with
      | Some mi =>
          disconnect (mi_node mi) ;;;
          c <- get_ctx ;;
          if c_gl c then gl_delete (mi_positionBuffer mi) else mret tt
      | None => mret tt
      end
  | _ => mret tt
  end.

(** The lines [VideoTrackDestination.close] runs after [super.close()]:
    [this._videoTrack.onmute = null; this._videoTrack.stop()]. *)
Definition track_dest_close (id : nat) : VC unit :=
  upd_node id (upd_dest (fun dd => mkDest (dd_kind dd) (dd_intervalId dd) (dd_sequence dd) false false)) ;;;
  emit (EvTrackStop id).

(** The lines [VideoTrackSourceNode.close] runs after [super.close()]:
    [delete this._mediaStream; this.image.srcObject = null]. *)
Definition track_source_close (id : nat) : VC unit :=
  upd_node id (upd_source (fun sd => mkSource (sd_image sd) (sd_last sd) (sd_totalFrames sd) (sd_track sd) None)) ;;;
  emit (EvSrcObject id false).

(** [close] dispatched on the class: the overrides of [VideoMixNode],
    [VideoTrackDestination] and [VideoTrackSourceNode] run the decorated
    base method first and their own code after it, even when the base
    method did nothing. *)
Definition close (id : nat) : VC unit :=
  _ <- node_change id ch_close (base_close_body id) (fun _ => mret tt) ;;
  n <- get_node id ;;
  match n_kind n with
  | KMix inputs => mfor (seq 0 (length (ja_elems inputs))) (mix_close_slot id)
  | KDest dd =>
      match dd_kind dd with
      | DTrack => track_dest_close id
      | _ => mret tt
      end
  | KSource sd =>
      match sd_track sd with
      | Some _ => track_source_close id
      | None => mret tt
      end
  | KMirror => mret tt
  end.

(** ** The configuration conflict of a mix *)

Lemma addInput_mix_occupied fuel m p l w nm inputs mi :
  w_nodes w !! m = Some nm -> n_kind nm = KMix inputs ->
  ja_get inputs (ml_zIndex l) = Some mi ->
  addInput fuel m p (Some l) w = Exn EInputExists w.
Proof.
  intros Hm Hk Hz. unfold addInput. rewrite (mbind_Ok _ _ w nm w) by (by apply get_node_Some).
  rewrite Hk. unfold mix_addInput. by rewrite Hz.
Qed.

(** C2: connecting a node to a mix at a depth that is already occupied
    throws [Error('input already exists')] and leaves the whole store as
    it was: the producer stays [uninitialized] without output, and the
    slot already at that depth is intact. *)
Theorem connect_mix_duplicate_zIndex fuel p m l w np nm inputs mi :
  w_nodes w !! p = Some np -> n_state np = SInit ->
  w_nodes w !! m = Some nm -> n_kind nm = KMix inputs ->
  ja_get inputs (ml_zIndex l) = Some mi ->
  connect fuel p m (Some l) w = Exn EInputExists w.
Proof.
  intros Hp Hst Hm Hk Hz. unfold connect, base_connect.
  do 2 apply mbind_Exn. rewrite (node_change_run _ _ _ _ _ np); [|done|by rewrite Hst|by rewrite Hst].
  rewrite (mbind_Exn _ _ w EInputExists w) by (eapply addInput_mix_occupied; eauto).
  rewrite alter_set_state_same by done. by rewrite set_nodes_same.
Qed.

(** ** The lifecycle guard of the graph methods *)

(** C18: [connect] is valid only from [uninitialized]: on a node that is
    neither [uninitialized] nor [connected] (a closed node) it throws the
    [FSMError] of the guard and changes nothing. *)
Theorem connect_rejected fuel p t l w n :
  w_nodes w !! p = Some n -> n_state n <> SInit -> n_state n <> SConnected ->
  connect fuel p t l w = Exn (EFsm (n_state n) SConnected) w.
Proof.
  intros Hn H1 H2. unfold connect, base_connect. do 2 apply mbind_Exn.
  rewrite (node_change_rejected _ _ _ _ _ n); [reflexivity|done|done|].
  destruct (n_state n); first [reflexivity|congruence].
Qed.

(** [disconnect] never errors: on a node that is not [connected] it
    returns and leaves the store as it was. *)
Theorem disconnect_not_connected id w n :
  w_nodes w !! id = Some n -> n_state n <> SConnected -> disconnect id w = Ok tt w.
Proof.
  intros Hn Hs. unfold disconnect.
  destruct (decide (n_state n = SInit)) as [Hi|Hi].
  - by rewrite (mbind_Ok _ _ w None w) by (by eapply node_change_same).
  - rewrite (mbind_Ok _ _ w None w); [done|].
    rewrite (node_change_rejected _ _ _ _ _ n); [done|done|done|].
    destruct (n_state n); first [reflexivity|congruence].
Qed.

(** C19: closing a node that is already closed throws nothing, deletes no
    WebGL object and arms or clears no interval; the only effects left are
    the [stop()] a [VideoTrackDestination] sends its track again and the
    [srcObject = null] a [VideoTrackSourceNode] assigns again (the
    subclass's [close] runs its own lines after the guarded base method,
    which did nothing). *)
Theorem close_closed id w n :
  w_nodes w !! id = Some n -> n_state n = SClosed -> (forall a, n_kind n <> KMix a) ->
  exists w', close id w = Ok tt w' /\ w_gl w' = w_gl w /\ w_timers w' = w_timers w /\
    w_trace w' = w_trace w ++ match n_kind n with
                              | KDest dd => match dd_kind dd with DTrack => [EvTrackStop id] | _ => [] end
                              | KSource sd => match sd_track sd with Some _ => [EvSrcObject id false] | None => [] end
                              | _ => []
                              end.
Proof.
  intros Hn Hs Hk. unfold close.
  rewrite (mbind_Ok _ _ w None w) by (by eapply node_change_same).
  rewrite (mbind_Ok _ _ w n w) by (by apply get_node_Some).
  destruct (n_kind n) as [sd| |a|dd]; [destruct (sd_track sd)| |by edestruct Hk|destruct (dd_kind dd)];
    (eexists; split; [reflexivity|]); simpl; rewrite ?app_nil_r; repeat split.
Qed.

(** ** Sizing *)

(** C20: [resize] to the current size does nothing on a node that is
    neither a mix nor a [VideoTrackDestination]: no size, canvas, texture
    or output changes and nothing is drawn. *)
Theorem resize_same_size fuel id w n :
  w_nodes w !! id = Some n -> (forall a, n_kind n <> KMix a) ->
  (forall dd, n_kind n = KDest dd -> dd_kind dd <> DTrack) ->
  resize (S fuel) id (n_width n) (n_height n) w = Ok tt w.
Proof.
  intros Hn Hk Hd. simpl. rewrite (mbind_Ok _ _ w n w) by (by apply get_node_Some).
  assert (Hb : base_resize (resize fuel) id (n_width n) (n_height n) w = Ok tt w).
  { unfold base_resize. rewrite (mbind_Ok _ _ w n w) by (by apply get_node_Some).
    by rewrite !Z.eqb_refl. }
  destruct (n_kind n) as [sd| |a|dd]; [done|done|by edestruct Hk|].
  destruct (dd_kind dd) eqn:E; [done| |done]. by edestruct Hd.
Qed.

(** Connecting a node that is already [connected] is a no-op
    (the guard sees the target state), unless the node is a mix, whose
    override then resizes it. *)
Theorem connect_connected fuel p t l w n :
  w_nodes w !! p = Some n -> n_state n = SConnected -> (forall a, n_kind n <> KMix a) ->
  connect fuel p t l w = Ok tt w.
Proof.
  intros Hn Hs Hk. unfold connect.
  rewrite (mbind_Ok _ _ w tt w)
    by (unfold base_connect; by rewrite (mbind_Ok _ _ w None w) by (by eapply node_change_same)).
  rewrite (mbind_Ok _ _ w n w) by (by apply get_node_Some).
  destruct (n_kind n); [done|done|by edestruct Hk|done].
Qed.

(** C24: connecting a node that is not a mix to a free depth of a mix
    inserts the slot [new NodeMixInfo(node, layout)] without a position
    buffer, sets the producer's output and state, and does nothing else:
    in particular the mix is not resized ([VideoMixNode.addInput] does not
    call [resize]; the bounding box is recomputed only when the mix itself
    connects to its output). *)
Theorem connect_mix_slot fuel p m l w np nm inputs :
  w_nodes w !! p = Some np -> n_state np = SInit -> (forall a, n_kind np <> KMix a) ->
  w_nodes w !! m = Some nm -> n_kind nm = KMix inputs -> ja_get inputs (ml_zIndex l) = None ->
  connect fuel p m (Some l) w =
    Ok tt (set_nodes (alter (set_state SConnected) p (alter (set_output (Some m)) p
             (alter (upd_mix (fun a => ja_set a (ml_zIndex l) (Some (mkInfo p l None)))) m (w_nodes w)))) w).
Proof.
  intros Hp Hs Hk Hm Hkm Hz.
  assert (Hpm : p <> m) by (intros ->; rewrite Hp in Hm; injection Hm as ->; by eapply Hk).
  unfold connect. rewrite (mbind_Ok _ _ w tt (set_nodes (alter (set_state SConnected) p (alter (set_output (Some m)) p
             (alter (upd_mix (fun a => ja_set a (ml_zIndex l) (Some (mkInfo p l None)))) m (w_nodes w)))) w)).
  2:{ unfold base_connect.
  rewrite (mbind_Ok _ _ w (Some tt) (set_nodes (alter (set_state SConnected) p (alter (set_output (Some m)) p
             (alter (upd_mix (fun a => ja_set a (ml_zIndex l) (Some (mkInfo p l None)))) m (w_nodes w)))) w)).
  - reflexivity.
  - rewrite (node_change_run _ _ _ _ _ np); [|done|by rewrite Hs|by rewrite Hs].
    unfold addInput, mix_addInput, mbind, get_node, upd_node, modify, mret. crunch. reflexivity. }
  unfold mbind, get_node, mret. cbn. rewrite !lookup_alter_eq, lookup_alter_ne, Hp by done. cbn.
  destruct (n_kind np) eqn:E; [done|done|by edestruct Hk|done].
Qed.

(** ** [removeInput] does not check who asks *)

(** C13: [VideoNode.removeInput(node)] ignores its argument: disconnecting
    a connected producer [p] whose output is a destination [t] sets the
    destination's input to [undefined], whatever that input is (also a
    node that replaced [p] since), and clears the interval the destination
    holds now; [p] loses its output and returns to [uninitialized]. *)
Theorem disconnect_dest_drops_input p t w np nt dd :
  w_nodes w !! p = Some np -> n_state np = SConnected -> n_output np = Some t ->
  w_nodes w !! t = Some nt -> n_kind nt = KDest dd ->
  disconnect p w =
    Ok tt (set_timers (delete (dd_intervalId dd) (w_timers w)) (w_next_timer w)
             (set_nodes (alter (set_state SInit) p (alter (set_output None) p
                           (alter (set_input None) t (w_nodes w)))) w)).
Proof.
  intros Hp Hs Ho Ht Hk. unfold disconnect.
  erewrite mbind_Ok; [reflexivity|].
  rewrite (node_change_run _ _ _ _ _ np); [|done|by rewrite Hs|by rewrite Hs].
  unfold disconnect_body, removeInput, dest_removeInput, base_removeInput, timer_clear, mbind, get_node,
    upd_node, modify, mret.
  rewrite Hp, Ho. cbn. rewrite Ht, Hk. cbn. reflexivity.
Qed.

(** ** [addInput] on a destination arms one more interval *)

(** Two stores with the same intervals and the same next interval id. *)
Definition timers_eq (w w' : World) : Prop :=
  w_timers w' = w_timers w /\ w_next_timer w' = w_next_timer w.

#[export] Instance timers_eq_preorder : PreOrder timers_eq.
Proof. split; [intros w; split; reflexivity|intros a b c [H1 H2] [H3 H4]; split; congruence]. Qed.

(** Split a method into its steps; a step that touches no interval is
    checked by evaluation. *)
Ltac tpres :=
  repeat match goal with
  | |- preserves timers_eq (mbind _ _) => apply preserves_bind; [apply _| |intros ?]
  | |- preserves timers_eq (mfor _ _) => apply preserves_mfor; [apply _|intros ?]
  | |- preserves timers_eq (mmap _ _) => apply preserves_mmap; [apply _|intros ?]
  | |- preserves timers_eq (match ?x with _ => _ end) => destruct x
  | |- preserves timers_eq (if ?b then _ else _) => destruct b
  | |- preserves timers_eq _ => solve [eauto]
  | |- preserves timers_eq _ => progress unfold node_useTexture, ctx_useTexture, ctx_setSize in *
  | |- preserves timers_eq _ => progress unfold_gl
  | |- preserves timers_eq _ =>
      intros ?; unfold get_node, get_ctx, get_bind, upd_node, upd_ctx, upd_bind, gl_raise, gl_create, emit,
        modify, mret, throw, timers_eq; cbn; repeat case_match; cbn; split; reflexivity
  end.

(** [resize] arms and clears no interval, whatever it returns or throws. *)
Lemma resize_timers fuel : forall id a b, preserves timers_eq (resize fuel id a b).
Proof.
  induction fuel as [|f IH]; intros id a b; simpl; [tpres|].
  assert (forall o, preserves timers_eq (slot_rect o)) by (intros o; unfold slot_rect; tpres).
  assert (forall i, preserves timers_eq (mix_slot_buffer id i)) by (intros i; unfold mix_slot_buffer; tpres).
  assert (forall c d, preserves timers_eq (base_resize (resize f) id c d)) by (intros; unfold base_resize; tpres).
  tpres.
Qed.

Lemma base_addInput_timers fuel t c : preserves timers_eq (base_addInput fuel t c).
Proof. unfold base_addInput. pose proof resize_timers. tpres. Qed.

(** C12: [VideoDestinationNode.addInput] calls [start] without clearing the
    interval the destination holds: the old interval stays armed whatever
    happens, and when [super.addInput] returns a new interval, firing the
    destination at the context's frame rate, is armed beside it, so two
    intervals pull frames from the destination. *)
Theorem dest_addInput_keeps_interval fuel t c w nt dd iv :
  w_nodes w !! t = Some nt -> n_kind nt = KDest dd -> w_timers w !! dd_intervalId dd = Some iv ->
  w_timers w !! w_next_timer w = None ->
  match dest_addInput fuel t c w with
  | Ok _ w' => w_timers w' !! dd_intervalId dd = Some iv /\
               w_timers w' = <[w_next_timer w := mkInterval t (c_frameRate (w_ctx w'))]> (w_timers w)
  | Exn _ w' => w_timers w' !! dd_intervalId dd = Some iv
  end.
Proof.
  intros Ht Hk Hiv Hfresh. unfold dest_addInput.
  pose proof (base_addInput_timers fuel t c w) as [H1 H2].
  assert (Hne : dd_intervalId dd <> w_next_timer w) by congruence.
  unfold mbind at 1. destruct (base_addInput fuel t c w) as [[] w1|e w1]; cbn in H1, H2; [|congruence].
  unfold dest_start, get_ctx, timer_set, get_node, upd_node, modify, mbind, mret. cbn.
  rewrite H1, H2. destruct (w_nodes w1 !! t) as [n|]; cbn; [|by rewrite lookup_insert_ne].
  destruct (n_kind n); cbn; (split; [by rewrite lookup_insert_ne|reflexivity]).
Qed.
