(* ===== verification/Frame.v ===== *)
(** * Relations on the store that the graph's methods respect

    A [NodeRel] is a preorder on stores that holds whenever the node
    store is left untouched.  The elementary steps of the methods (reading
    a node or the context, emitting an effect, creating or deleting a
    WebGL object, arming or clearing an interval) respect every
    [NodeRel]; a method respects one when each of its steps does, which
    the tactic [pres] checks step by step.  [Lifecycle] and [GraphProps]
    instantiate the scheme with the lifecycle relation and with the
    relation that keeps every edge of the graph. *)

From stdpp Require Import base list gmap relations.
From Stdlib Require Import ZArith.
From S2P Require Import Prelude Fsm Model Webgl Layout Graph.

Class NodeRel (R : World -> World -> Prop) := {
  nr_preorder :: PreOrder R;
  nr_same_nodes : forall w w', w_nodes w' = w_nodes w -> R w w'
}.

Section Steps.
Context (R : World -> World -> Prop) `{!NodeRel R}.

Lemma pres_modify_nodes (f : World -> World) :
  (forall w, w_nodes (f w) = w_nodes w) -> preserves (E:=Err) R (modify f).
Proof. intros H. apply preserves_modify. intros w. by apply nr_same_nodes. Qed.

Lemma pres_get_node id : preserves R (get_node id).
Proof. intros w. unfold get_node. destruct (w_nodes w !! id); simpl; reflexivity. Qed.

Lemma pres_get_ctx : preserves R get_ctx.
Proof. intros w. simpl. reflexivity. Qed.

Lemma pres_emit e : preserves R (emit e).
Proof. by apply pres_modify_nodes. Qed.

Lemma pres_upd_ctx f : preserves R (upd_ctx f).
Proof. by apply pres_modify_nodes. Qed.

Lemma pres_gl_delete h : preserves R (gl_delete h).
Proof. destruct h; [by apply pres_modify_nodes|apply preserves_ret; apply _]. Qed.

Lemma pres_gl_create : preserves R gl_create.
Proof. intros w. unfold gl_create. destruct (gl_fail (w_gl w)); simpl; [reflexivity|by apply nr_same_nodes]. Qed.

Lemma pres_timer_set id r : preserves R (timer_set id r).
Proof. intros w. by apply nr_same_nodes. Qed.

Lemma pres_set_tasks (g : World -> list Task) : preserves (E:=Err) R (modify (fun w => set_tasks (g w) w)).
Proof. by apply pres_modify_nodes. Qed.

Lemma pres_timer_clear id : preserves R (timer_clear id).
Proof. by apply pres_modify_nodes. Qed.

Lemma pres_get_bind : preserves R get_bind.
Proof. intros w. simpl. reflexivity. Qed.

Lemma pres_upd_bind f : preserves R (upd_bind f).
Proof. by apply pres_modify_nodes. Qed.

Lemma pres_gl_raise code : preserves R (gl_raise code).
Proof. apply pres_modify_nodes. intros w. cbn. by destruct (Z.eqb _ _). Qed.

Lemma pres_gl_viewport a b : preserves R (gl_viewport a b).
Proof. unfold gl_viewport. cbv zeta. destruct (_ || _); [apply pres_gl_raise|apply pres_upd_bind]. Qed.

Lemma pres_ctx_setSize a b : preserves R (ctx_setSize a b).
Proof.
  unfold ctx_setSize. apply preserves_bind; [apply _|apply pres_get_ctx|intros c].
  apply preserves_bind; [apply _| |intros _].
  - destruct (c_gl c); [apply pres_gl_viewport|apply preserves_ret; apply _].
  - destruct (c_canvas c); [apply pres_upd_ctx|apply preserves_ret; apply _].
Qed.

Lemma pres_need_gl : preserves R need_gl.
Proof.
  unfold need_gl. apply preserves_bind; [apply _|apply pres_get_ctx|intros c].
  destruct (c_gl c); [apply preserves_ret|apply preserves_throw]; apply _.
Qed.

(** The brackets preserve [R] when their operation does. *)
Lemma pres_ctx_useTexture t op : preserves R op -> preserves R (ctx_useTexture t op).
Proof.
  intros Hop. unfold ctx_useTexture. unfold_gl.
  repeat (simple apply preserves_bind; [apply _| |intros _]); auto using pres_need_gl, pres_upd_bind.
Qed.

Lemma pres_node_useTexture id op : preserves R op -> preserves R (node_useTexture id op).
Proof.
  intros Hop. unfold node_useTexture. apply preserves_bind; [apply _|apply pres_get_node|intros n].
  destruct (r_texture _); [by apply pres_ctx_useTexture|apply preserves_ret; apply _].
Qed.

Lemma pres_useInputTexture id op : preserves R op -> preserves R (useInputTexture id op).
Proof.
  intros Hop. unfold useInputTexture. apply preserves_bind; [apply _|apply pres_get_node|intros n].
  destruct (n_input n); [|apply preserves_throw; apply _].
  apply preserves_bind; [apply _|apply pres_get_node|intros ?]. by apply pres_ctx_useTexture.
Qed.

Lemma pres_useBufferFrame id op : preserves R op -> preserves R (useBufferFrame id op).
Proof.
  intros Hop. unfold useBufferFrame. unfold_gl.
  repeat (simple apply preserves_bind; [apply _| |intros ?]); auto using pres_need_gl, pres_upd_bind, pres_get_node.
Qed.
End Steps.

#[export] Hint Resolve pres_get_node pres_get_ctx pres_emit pres_upd_ctx pres_gl_delete
  pres_gl_create pres_timer_set pres_timer_clear pres_ctx_setSize
  pres_set_tasks pres_get_bind pres_upd_bind pres_gl_raise pres_gl_viewport pres_need_gl : vc.

(** A hook for the steps a particular relation needs to treat itself. *)
Ltac pres_hook := fail.

(** Split a method into its steps and discharge each from the hint database. *)
Ltac pres :=
  repeat match goal with
  | |- _ => pres_hook
  | |- preserves _ (mbind _ _) => apply preserves_bind; [apply _| |intros ?]
  | |- preserves _ (mfor _ _) => apply preserves_mfor; [apply _|intros ?]
  | |- preserves _ (mmap _ _) => apply preserves_mmap; [apply _|intros ?]
  | |- preserves _ (try_catch _ _) => apply preserves_try; [apply _| |intros ?]
  | |- preserves _ (ctx_useTexture _ _) => apply pres_ctx_useTexture; [apply _|]
  | |- preserves _ (node_useTexture _ _) => apply pres_node_useTexture; [apply _|]
  | |- preserves _ (useInputTexture _ _) => apply pres_useInputTexture; [apply _|]
  | |- preserves _ (useBufferFrame _ _) => apply pres_useBufferFrame; [apply _|]
  | |- preserves _ (match ?x with _ => _ end) => destruct x
  | |- preserves _ (if ?b then _ else _) => destruct b
  | |- preserves _ _ => progress unfold_gl
  | |- _ => solve [eauto with vc typeclass_instances]
  end.

