(* ===== verification/Lifecycle.v ===== *)
(** * The node lifecycle: abstract state machine and refinement

    The specification's lifecycle of a node (section 4.2):
    [uninitialized -> connected -> uninitialized -> ... -> closed], with
    [closed] terminal.  [lc_step] is that state machine.

    The facts proved about every method are stated once, for any relation
    [pw Rn] between stores that compares each node with its later
    version by a node relation [Rn] ([PointRel]): a relation that holds
    when the state is kept and the frame counter and a destination's
    sequence number are kept or grow,
    and that accepts the state changes of the lifecycle.  Three instances
    are used: [lc_rel] (every node moves along [lc_step]), [frames_rel]
    (no frame counter decreases) and [seq_rel] (a destination stays one and
    its sequence number does not decrease). *)

From stdpp Require Import base list gmap relations.
From Stdlib Require Import ZArith Lia.
From S2P Require Import Prelude Fsm Model Layout Graph Frame.

(** ** The abstract lifecycle *)

Inductive lc_step : St -> St -> Prop :=
| lc_connect : lc_step SInit SConnected
| lc_disconnect : lc_step SConnected SInit
| lc_close s : s <> SClosed -> lc_step s SClosed.

Definition lc_star : St -> St -> Prop := rtc lc_step.

Lemma lc_star_closed s : lc_star SClosed s -> s = SClosed.
Proof.
  intros H. remember SClosed as c eqn:Hc. induction H as [|x y z Hxy Hyz IH]; [done|].
  subst. inversion Hxy; subst; congruence.
Qed.

(** ** Pointwise relations on stores *)

(** A destination stays one and its sequence number does not decrease. *)
Definition seq_le (n n' : Node) : Prop :=
  match dest_seq n, dest_seq n' with
  | Some s, Some s' => (s <= s')%Z
  | Some _, None => False
  | None, _ => True
  end.

Class PointRel (Rn : Node -> Node -> Prop) := {
  pr_preorder :: PreOrder Rn;
  pr_same : forall n n', n_state n = n_state n' -> (n_totalFrames n <= n_totalFrames n')%Z ->
                         seq_le n n' -> node_class n' = node_class n -> Rn n n';
  pr_set : forall n n1 st, Rn n n1 -> st = n_state n \/ lc_step (n_state n) st -> Rn n (set_state st n1)
}.

(** Existing nodes are related to their later versions; new nodes may appear. *)
Definition pw (Rn : Node -> Node -> Prop) (w w' : World) : Prop :=
  forall id, match w_nodes w !! id, w_nodes w' !! id with
             | Some n, Some n' => Rn n n'
             | Some _, None => False
             | None, _ => True
             end.

Section Pointwise.
Context (Rn : Node -> Node -> Prop) `{!PointRel Rn}.

#[export] Instance pw_preorder : PreOrder (pw Rn).
Proof.
  split.
  - intros w id. destruct (w_nodes w !! id); [reflexivity|done].
  - intros w1 w2 w3 H12 H23 id. specialize (H12 id). specialize (H23 id).
    destruct (w_nodes w1 !! id), (w_nodes w2 !! id), (w_nodes w3 !! id); try done.
    by etrans.
Qed.

Lemma pw_same_nodes w w' : w_nodes w' = w_nodes w -> pw Rn w w'.
Proof. intros H id. rewrite H. destruct (w_nodes w !! id); [reflexivity|done]. Qed.

#[export] Instance pw_NodeRel : NodeRel (pw Rn).
Proof. split; [apply _|apply pw_same_nodes]. Qed.

Lemma pres_upd_node_pw id f :
  (forall n, n_state (f n) = n_state n /\ (n_totalFrames n <= n_totalFrames (f n))%Z /\ seq_le n (f n) /\
             node_class (f n) = node_class n) ->
  preserves (pw Rn) (upd_node id f).
Proof.
  intros Hf w i. simpl. rewrite lookup_alter.
  case_decide; subst.
  - destruct (w_nodes w !! i) as [n|]; simpl; [|done].
    destruct (Hf n) as (A & B & C & D). apply pr_same; [by rewrite A|done|done|done].
  - destruct (w_nodes w !! i); [reflexivity|done].
Qed.

Lemma pres_alloc_node_pw n : preserves (pw Rn) (alloc_node n).
Proof.
  intros w i. simpl. rewrite lookup_insert.
  case_decide as Hi; subst.
  - assert (Hf : fresh (dom (w_nodes w)) ∉ dom (w_nodes w)) by apply is_fresh.
    rewrite not_elem_of_dom in Hf. by rewrite Hf.
  - destruct (w_nodes w !! i); [reflexivity|done].
Qed.

(** The lifecycle guard: its body and callback respect the relation, and
    the change it makes is a step of the abstract machine. *)
Lemma pres_node_change_pw {A} id ch (body : VC A) succ :
  (forall cur, allowed ch cur = true -> cur <> ch_to ch -> lc_step cur (ch_to ch)) ->
  preserves (pw Rn) body -> (forall a, preserves (pw Rn) (succ a)) ->
  preserves (pw Rn) (node_change id ch body succ).
Proof.
  intros Hstep Hb Hs w. unfold node_change.
  destruct (w_nodes w !! id) as [n|] eqn:Hn; simpl; [|reflexivity].
  unfold change_state. rewrite Hn.
  destruct (decide (n_state n = ch_to ch)) as [Heq|Hne]; simpl; [reflexivity|].
  destruct (allowed ch (n_state n)) eqn:Ha; [|destruct (ch_ignoreError ch); simpl; reflexivity].
  specialize (Hb w). destruct (body w) as [a w1|e w1] eqn:Hbody; simpl in Hb.
  - set (w2 := set_nodes (alter (set_state (ch_to ch)) id (w_nodes w1)) w1).
    assert (H12 : pw Rn w w2).
    { intros i. specialize (Hb i). unfold w2. simpl. rewrite lookup_alter.
      case_decide; subst; [|done].
      rewrite Hn in Hb |- *. destruct (w_nodes w1 !! i); simpl; [|done].
      apply pr_set; auto. }
    specialize (Hs a w2). destruct (succ a w2); simpl in *; by etrans.
  - intros i. specialize (Hb i). simpl. rewrite lookup_alter.
    case_decide; subst; [|done].
    rewrite Hn in Hb |- *. destruct (w_nodes w1 !! i); simpl; [|done]. apply pr_set; auto.
Qed.

Lemma pres_ctx_change_pw {A} ch (body : VC A) succ :
  preserves (pw Rn) body -> (forall a, preserves (pw Rn) (succ a)) ->
  preserves (pw Rn) (change_state (fun w => c_state (w_ctx w))
                       (fun st w => set_ctx (ctx_set_state st (w_ctx w)) w) EFsm ch body succ).
Proof.
  intros Hb Hs w. unfold change_state.
  destruct (decide _); simpl; [reflexivity|].
  destruct (allowed _ _); [|destruct (ch_ignoreError ch); simpl; reflexivity].
  specialize (Hb w). destruct (body w) as [a w1|e w1]; simpl in *.
  - specialize (Hs a (set_ctx (ctx_set_state (ch_to ch) (w_ctx w1)) w1)).
    assert (pw Rn w1 (set_ctx (ctx_set_state (ch_to ch) (w_ctx w1)) w1)) by (by apply pw_same_nodes).
    destruct (succ a _); simpl in *; etrans; eauto; etrans; eauto.
  - etrans; [exact Hb|]. by apply pw_same_nodes.
Qed.
End Pointwise.

Lemma ch_connect_step cur : allowed ch_connect cur = true -> cur <> ch_to ch_connect -> lc_step cur (ch_to ch_connect).
Proof. destruct cur; simpl; try discriminate; constructor; congruence. Qed.
Lemma ch_disconnect_step cur : allowed ch_disconnect cur = true -> cur <> ch_to ch_disconnect -> lc_step cur (ch_to ch_disconnect).
Proof. destruct cur; simpl; try discriminate; constructor; congruence. Qed.
Lemma ch_close_step cur : allowed ch_close cur = true -> cur <> ch_to ch_close -> lc_step cur (ch_to ch_close).
Proof. intros _ H. by constructor. Qed.

#[export] Hint Resolve pres_alloc_node_pw ch_connect_step ch_disconnect_step ch_close_step : vc.
Ltac pres_hook ::=
  match goal with
  | |- preserves (pw ?R) (upd_node _ _) =>
      apply (pres_upd_node_pw R); let n := fresh "n" in intros n;
      unfold seq_le, dest_seq, node_class, set_slot_buffer, upd_source, upd_mix, upd_dest; cbn;
      let Hk := fresh "Hk" in destruct (n_kind n) eqn:Hk; cbn; rewrite ?Hk; cbn;
      repeat case_match; cbn; repeat split; first [reflexivity|lia|exact I|congruence|cbn in *; congruence]
  | |- preserves (pw ?R) (node_change _ _ _ _) => apply (pres_node_change_pw R); [eauto with vc| |intros ?]
  | |- preserves (pw ?R) (change_state _ _ _ _ _ _) => apply (pres_ctx_change_pw R); [|intros ?]
  end.

(** ** The graph methods *)

Section Methods.
Context (Rn : Node -> Node -> Prop) `{!PointRel Rn}.

Lemma pres_removeInput t c : preserves (pw Rn) (removeInput t c).
Proof. unfold removeInput, mix_removeInput, dest_removeInput, base_removeInput. pres. Qed.

#[local] Hint Resolve pres_removeInput : vc.

Lemma pres_disconnect id : preserves (pw Rn) (disconnect id).
Proof. unfold disconnect, disconnect_body. pres. Qed.

Lemma pres_slot_rect o : preserves (pw Rn) (slot_rect o).
Proof. unfold slot_rect. pres. Qed.

Lemma pres_base_resize rec id a b :
  (forall o x y, preserves (pw Rn) (rec o x y)) -> preserves (pw Rn) (base_resize rec id a b).
Proof. intros H. unfold base_resize. pres. Qed.

Lemma pres_mix_slot_buffer id i : preserves (pw Rn) (mix_slot_buffer id i).
Proof. unfold mix_slot_buffer. pres. Qed.

#[local] Hint Resolve pres_disconnect pres_slot_rect pres_base_resize pres_mix_slot_buffer : vc.

Lemma pres_resize fuel id a b : preserves (pw Rn) (resize fuel id a b).
Proof. revert id a b. induction fuel as [|f IH]; intros id a b; simpl; pres. Qed.

#[local] Hint Resolve pres_resize : vc.

Lemma pres_addInput fuel t c l : preserves (pw Rn) (addInput fuel t c l).
Proof. unfold addInput, mix_addInput, dest_addInput, base_addInput, dest_start. pres. Qed.

#[local] Hint Resolve pres_addInput : vc.

Lemma pres_connect fuel id t l : preserves (pw Rn) (connect fuel id t l).
Proof. unfold connect, base_connect. pres. Qed.

Lemma pres_release r p : preserves (pw Rn) (release_res r p).
Proof. unfold release_res. pres. Qed.

Lemma pres_mix_close_slot id i : preserves (pw Rn) (mix_close_slot id i).
Proof. unfold mix_close_slot. pres. Qed.

#[local] Hint Resolve pres_release pres_mix_close_slot : vc.

Lemma pres_close id : preserves (pw Rn) (close id).
Proof. unfold close, base_close_body, track_dest_close, track_source_close. pres. Qed.
End Methods.

#[export] Hint Resolve pres_removeInput pres_disconnect pres_slot_rect pres_base_resize
  pres_mix_slot_buffer pres_resize pres_addInput pres_connect pres_release
  pres_mix_close_slot pres_close : vc.

(** ** The two relations *)

(** Every node moves along the abstract lifecycle. *)
Definition lc_node (n n' : Node) : Prop := lc_star (n_state n) (n_state n').
Abbreviation lc_rel := (pw lc_node).

#[export] Instance lc_node_PointRel : PointRel lc_node.
Proof.
  split.
  - split; [intros n; apply rtc_refl|intros a b c H1 H2; unfold lc_node in *; by etrans].
  - intros n n' Hs _ _ _. unfold lc_node. rewrite Hs. apply rtc_refl.
  - intros n n1 st _ [->|Hst]; unfold lc_node; simpl; [apply rtc_refl|by apply rtc_once].
Qed.

(** No frame counter decreases. *)
Definition frames_node (n n' : Node) : Prop := (n_totalFrames n <= n_totalFrames n')%Z.
Abbreviation frames_rel := (pw frames_node).

#[export] Instance frames_node_PointRel : PointRel frames_node.
Proof.
  split.
  - split; [intros n; unfold frames_node; lia|intros a b c; unfold frames_node; lia].
  - intros n n' _ H _ _. exact H.
  - intros n n1 st H _. exact H.
Qed.

(** No destination's sequence number decreases. *)
Abbreviation seq_rel := (pw seq_le).

#[export] Instance seq_le_PointRel : PointRel seq_le.
Proof.
  split.
  - split; [intros n; unfold seq_le; destruct (dest_seq n); [lia|exact I]|].
    intros a b c; unfold seq_le; destruct (dest_seq a), (dest_seq b), (dest_seq c); try done; lia.
  - intros n n' _ _ H _. exact H.
  - intros n n1 st H _. exact H.
Qed.

Lemma seq_le_Some n n' s :
  seq_le n n' -> dest_seq n = Some s -> exists s', dest_seq n' = Some s' /\ (s <= s')%Z.
Proof. unfold seq_le. intros H Hs. rewrite Hs in H. destruct (dest_seq n'); [eauto|done]. Qed.

(** ** Consequences for single methods *)

Lemma pw_lookup Rn w w' id n :
  pw Rn w w' -> w_nodes w !! id = Some n -> exists n', w_nodes w' !! id = Some n' /\ Rn n n'.
Proof. intros H Hn. specialize (H id). rewrite Hn in H. destruct (w_nodes w' !! id); eauto. done. Qed.

Lemma pres_base_close_body Rn `{!PointRel Rn} id : preserves (pw Rn) (base_close_body id).
Proof. unfold base_close_body. pres. Qed.

(** A closed node stays closed. *)
Lemma lc_rel_closed w w' id n :
  lc_rel w w' -> w_nodes w !! id = Some n -> n_state n = SClosed ->
  exists n', w_nodes w' !! id = Some n' /\ n_state n' = SClosed.
Proof.
  intros Hr Hn Hs. destruct (pw_lookup _ _ _ _ _ Hr Hn) as (n' & Hn' & Hl).
  exists n'. split; [done|]. unfold lc_node in Hl. rewrite Hs in Hl. by apply lc_star_closed.
Qed.

(** A node whose [close] returned is closed. *)
Lemma close_Ok_closed id w w' :
  close id w = Ok tt w' -> exists n, w_nodes w' !! id = Some n /\ n_state n = SClosed.
Proof.
  unfold close. intros H. apply mbind_Ok_inv in H as (r & w1 & H1 & H2).
  assert (Hc : exists n, w_nodes w1 !! id = Some n /\ n_state n = SClosed).
  { apply node_change_Ok_cases in H1 as (n & Hn & [[-> [Hs|Ha]]|(a & w2 & Hb & Hs)]); [eauto|done|].
    unfold mret in Hs. injection Hs as <-.
    destruct (pw_lookup lc_node w w2 id n) as (n2 & Hn2 & _); [|done|].
    - eapply preserves_Ok; [apply pres_base_close_body; apply _|exact Hb].
    - simpl. rewrite lookup_alter_eq, Hn2. eauto. }
  destruct Hc as (n & Hn & Hs). eapply lc_rel_closed; [|exact Hn|exact Hs].
  eapply preserves_Ok; [|exact H2]. unfold track_dest_close, track_source_close. pres.
Qed.
