(* ===== verification/Render.v ===== *)
(** * The pull protocol: [requestFrame], [render], [render2d]

    [VideoNode.requestFrame] ([src/video-node/base.ts]) tries the WebGL
    path [render] when the context has a WebGL context and the 2-D path
    [render2d] when it has a 2-D context, and counts a frame when one of
    them produced one.  Each kind renders its own way:
    [VideoImageSourceNode._render] ([src/video-node/source.ts]) uploads the
    producer's pixels when they are new; [VideoMirrorNode.render]
    ([src/video-node/mirror.ts]) and [VideoDestinationNode.render]
    ([src/video-node/destination.ts]) pull their input and draw it;
    [VideoMixNode.render] / [render2d] ([src/video-node/mix.ts]) pull every
    slot and draw all occupied slots in index order.  The recursion through
    the inputs is bounded by [fuel]; running out of it is the [RangeError]
    of a too deep (or cyclic) graph.

    The file ends with the two cases where a pull produces nothing and
    changes nothing. *)

From stdpp Require Import base list gmap strings.
From Stdlib Require Import ZArith Lia.
From S2P Require Import Prelude Fsm Model Webgl Layout Graph.

Local Open Scope Z_scope.

(** [VideoNode.draw2d(image, dx, dy, dw, dh)]: [putImageData] for an
    [ImageData] (drawn at its natural size), [drawImage] otherwise. *)
Definition draw2d (id : nat) (img : option Image) (dx dy dw dh : Z) : VC bool :=
  n <- get_node id ;;
  match img with
  | Some i =>
      if n_ctx2d n then
        (match i with
         | IStill _ ImageData iw ih => emit (EvDraw2d id i dx dy iw ih)
         | _ => emit (EvDraw2d id i dx dy dw dh)
         end) ;;; mret true
      else mret false
  | None => mret false
  end.

(** ** [VideoImageSourceNode._render(seq, gl)] *)

(** The tail of [_render] once [width] and [height] are known: an
    incremental upload when the size is unchanged and a frame was already
    produced, otherwise a full upload and a [resize]. *)
Definition source_upload (fuel : nat) (id : nat) (gl : bool) (width height : Z) : VC bool :=
  n <- get_node id ;;
  if Z.eqb (n_width n) width && Z.eqb (n_height n) height && negb (Z.eqb (n_totalFrames n) 0) then
    (if gl then node_useTexture id (emit (EvUpload id false)) else mret tt) ;;; mret true
  else
    (if gl then node_useTexture id (emit (EvUpload id true)) else mret tt) ;;;
    resize fuel id width height ;;; mret true.

Definition source_render (fuel : nat) (id : nat) (gl : bool) : VC bool :=
  n <- get_node id ;;
  match n_kind n with
  | KSource sd =>
      match sd_image sd with
      | IVideo _ (Some tf) vw vh =>
          if Z.eqb (sd_totalFrames sd) tf then mret false
          else
            upd_node id (upd_source (fun sd => mkSource (sd_image sd) (sd_last sd) tf (sd_track sd) (sd_stream sd))) ;;;
            upd_node id (fun n => set_frames (n_totalFrames n) (tf - n_totalFrames n) n) ;;;
            source_upload fuel id gl vw vh
      | IVideo _ None vw vh => source_upload fuel id gl vw vh
      | IStill iid _ iw ih =>
          if decide (sd_last sd = Some iid) then
            if Z.eqb iw (n_width n) && Z.eqb ih (n_height n) then mret false
            else source_upload fuel id gl iw ih
          else
            upd_node id (upd_source (fun sd => mkSource (sd_image sd) (Some iid) (sd_totalFrames sd) (sd_track sd) (sd_stream sd))) ;;;
            source_upload fuel id gl iw ih
      | ICanvas cid cw ch =>
          upd_node id (upd_source (fun sd => mkSource (sd_image sd) (Some cid) (sd_totalFrames sd) (sd_track sd) (sd_stream sd))) ;;;
          source_upload fuel id gl cw ch
      | IOther _ => source_upload fuel id gl (n_width n) (n_height n)
      end
  | _ => mret false
  end.

(** ** Pulling the input *)

Section Render.
(** [rf i seq] is [requestFrame] on node [i], one level deeper. *)
Variable rf : nat -> Z -> VC bool.
Variable fuel : nat.

(** [this.input?.requestFrame(seq)] *)
Definition pull_input (id : nat) (sq : Z) : VC bool :=
  n <- get_node id ;;
  match n_input n with Some i => rf i sq | None => mret false end.

(** The operation both quad renders hand to [useInputTexture]: the
    node's own quad ([a_position], [a_texCoord]) drawn once. *)
Definition draw_quad (id : nat) : VC unit :=
  n <- get_node id ;;
  setAttributes id [("a_position", r_positionBuffer (n_res n)); ("a_texCoord", r_texCoordBuffer (n_res n))] ;;;
  gl_drawArrays.

(** [VideoMirrorNode.render]: the input texture drawn into the node's
    framebuffer. *)
Definition mirror_render (id : nat) (sq : Z) : VC bool :=
  ok <- pull_input id sq ;;
  if ok then
    useProgram id ;;;
    useBufferFrame id (useInputTexture id (draw_quad id)) ;;;
    mret true
  else mret false.

(** [VideoDestinationNode.render]: the input texture drawn with whatever
    framebuffer is bound, which is the canvas once every bracket closed. *)
Definition dest_render (id : nat) (sq : Z) : VC bool :=
  ok <- pull_input id sq ;;
  if ok then
    useProgram id ;;;
    useInputTexture id (draw_quad id) ;;;
    mret true
  else mret false.

(** [VideoNode.render2d]: pull the input, then blit its image over the
    whole node. *)
Definition base_render2d (id : nat) (sq : Z) : VC bool :=
  ok <- pull_input id sq ;;
  if ok then
    n <- get_node id ;;
    match n_input n with
    | Some i => inp <- get_node i ;; draw2d id (node_image inp) 0 0 (n_width n) (n_height n)
    | None => throw ETypeError
    end
  else mret false.

(** The [reduce] of the mix: every occupied slot is pulled, in index
    order; the result is true when none produced a frame. *)
Fixpoint mix_pull (id : nat) (sq : Z) (idx : list nat) (noframe : bool) : VC bool :=
  match idx with
  | [] => mret noframe
  | i :: rest =>
      n <- get_node id ;;
      match n_kind n with
      | KMix inputs =>
          match mjoin (ja_elems inputs !! i) with
          | Some mi => r <- rf (mi_node mi) sq ;; mix_pull id sq rest (negb r && noframe)
          | None => mix_pull id sq rest noframe
          end
      | _ => mret noframe
      end
  end.

Definition mix_slots_len (id : nat) : VC nat :=
  n <- get_node id ;;
  match n_kind n with KMix inputs => mret (length (ja_elems inputs)) | _ => mret O end.

(** The body of the drawing loop of [VideoMixNode.render] on element [i]. *)
Definition mix_draw_slot (id : nat) (i : nat) : VC unit :=
  n <- get_node id ;;
  match n_kind n with
  | KMix inputs =>
      match mjoin (ja_elems inputs !! i) with
      | Some mi =>
          node_useTexture (mi_node mi)
            (setAttributes id [("a_position", mi_positionBuffer mi)] ;;; gl_drawArrays)
      | None => mret tt
      end
  | _ => mret tt
  end.

(** The body of the drawing loop of [VideoMixNode.render2d] on element [i]. *)
Definition mix_draw2d_slot (id : nat) (i : nat) : VC unit :=
  n <- get_node id ;;
  match n_kind n with
  | KMix inputs =>
      match mjoin (ja_elems inputs !! i) with
      | Some mi =>
          c <- get_node (mi_node mi) ;;
          let l := mi_layout mi in
          _ <- draw2d id (node_image c) (info_x l c) (info_y l c) (info_width l c) (info_height l c) ;;
          mret tt
      | None => mret tt
      end
  | _ => mret tt
  end.

Definition mix_render (id : nat) (sq : Z) : VC bool :=
  c <- get_ctx ;;
  len <- mix_slots_len id ;;
  noframe <- mix_pull id sq (seq 0 len) true ;;
  if negb noframe && c_gl c then
    useProgram id ;;;
    gl_clear ;;;
    n <- get_node id ;;
    setAttributes id [("a_texCoord", r_texCoordBuffer (n_res n))] ;;;
    useBufferFrame id (len' <- mix_slots_len id ;; mfor (seq 0 len') (mix_draw_slot id)) ;;;
    mret true
  else mret false.

Definition mix_render2d (id : nat) (sq : Z) : VC bool :=
  len <- mix_slots_len id ;;
  noframe <- mix_pull id sq (seq 0 len) true ;;
  if negb noframe then
    n <- get_node id ;;
    if n_ctx2d n then
      emit (EvClearRect id) ;;;
      len' <- mix_slots_len id ;;
      mfor (seq 0 len') (mix_draw2d_slot id) ;;;
      mret true
    else mret false
  else mret false.

(** [render] and [render2d], dispatched on the class. *)
Definition render (id : nat) (sq : Z) : VC bool :=
  n <- get_node id ;;
  match n_kind n with
  | KSource _ => source_render fuel id true
  | KMix _ => mix_render id sq
  | KMirror => mirror_render id sq
  | KDest _ => dest_render id sq
  end.

Definition render2d (id : nat) (sq : Z) : VC bool :=
  n <- get_node id ;;
  match n_kind n with
  | KSource _ => source_render fuel id false
  | KMix _ => mix_render2d id sq
  | KMirror | KDest _ => base_render2d id sq
  end.
End Render.

(** [VideoNode.requestFrame(seq)] *)
Fixpoint requestFrame (fuel : nat) (id : nat) (sq : Z) : VC bool :=
  match fuel with
  | O => throw EStack
  | S f =>
      c <- get_ctx ;;
      r <- (if c_gl c then render (requestFrame f) f id sq else mret false) ;;
      r <- (if r then mret true
            else c' <- get_ctx ;; if c_ctx2d c' then render2d (requestFrame f) f id sq else mret false) ;;
      if r then upd_node id (fun n => set_frames (n_totalFrames n + 1) (n_dropFrames n) n) ;;; mret true
      else mret false
  end.

(** ** Frames that are not produced *)

(** A video source whose decoded-frame counter
    ([getVideoPlaybackQuality().totalVideoFrames]) has not advanced since
    the last pull reports no frame, on both paths, and changes nothing:
    no upload, no resize, no frame counted. *)
Theorem requestFrame_video_unchanged fuel id sq w n sd vid tf vw vh :
  w_nodes w !! id = Some n -> n_kind n = KSource sd ->
  sd_image sd = IVideo vid (Some tf) vw vh -> sd_totalFrames sd = tf ->
  requestFrame (S fuel) id sq w = Ok false w.
Proof.
  intros Hn Hk Hi Ht. simpl.
  unfold render, render2d, source_render, mbind, get_node, get_ctx, mret.
  destruct (c_gl (w_ctx w)); crunch; destruct (c_ctx2d (w_ctx w)); crunch; reflexivity.
Qed.

(** A mirror or a destination without input pulls nothing and
    reports no frame, on both paths, leaving the store as it was. *)
Theorem requestFrame_no_input fuel id sq w n :
  w_nodes w !! id = Some n -> (n_kind n = KMirror \/ exists dd, n_kind n = KDest dd) ->
  n_input n = None -> requestFrame (S fuel) id sq w = Ok false w.
Proof.
  intros Hn Hk Hi. simpl.
  unfold render, render2d, mirror_render, dest_render, base_render2d, pull_input, mbind, get_node, get_ctx, mret.
  destruct Hk as [Hk|[dd Hk]];
    destruct (c_gl (w_ctx w)); crunch; destruct (c_ctx2d (w_ctx w)); crunch; reflexivity.
Qed.

(** ** A new video frame *)

(** C21: a video source whose decoded-frame counter advanced to [tf], at
    an unchanged size after a first frame, performs an incremental upload
    and produces a frame: it records [tf] as [_totalFrames], sets the drop
    count [dropFrames = tf - totalFrames] (frames the producer decoded that
    were never pulled) and counts one more frame. *)
Theorem requestFrame_video_new_frame fuel id sq w n sd vid tf t :
  w_nodes w !! id = Some n -> n_kind n = KSource sd ->
  sd_image sd = IVideo vid (Some tf) (n_width n) (n_height n) -> sd_totalFrames sd <> tf ->
  n_totalFrames n <> 0 -> c_gl (w_ctx w) = true -> r_texture (n_res n) = Some t ->
  exists w' n', requestFrame (S fuel) id sq w = Ok true w' /\ w_nodes w' !! id = Some n' /\
    n_totalFrames n' = n_totalFrames n + 1 /\ n_dropFrames n' = tf - n_totalFrames n /\
    n_kind n' = KSource (mkSource (sd_image sd) (sd_last sd) tf (sd_track sd) (sd_stream sd)) /\
    w_trace w' = w_trace w ++ [EvUpload id false].
Proof.
  intros Hn Hk Hi Ht Hf Hg Htex. apply Z.eqb_neq in Ht, Hf. do 2 eexists. split.
  - simpl. unfold render, source_render, source_upload, node_useTexture, ctx_useTexture, need_gl, emit,
      gl_activeTexture, gl_bindTexture, upd_bind,
      mbind, get_node, get_ctx, upd_node, modify, mret, set_nodes, add_event, upd_source.
    crunch. reflexivity.
  - cbn. rewrite !lookup_alter_eq, Hn. cbn. unfold upd_source. rewrite Hk.
    repeat split; reflexivity.
Qed.
