(* ===== verification/Context.v ===== *)
(** * The rendering context and the node constructors

    [class VideoContext] of [src/video-context.ts]: [create] chooses the
    WebGL or the 2-D backend, [destroy] tears everything down (it emits
    ['disconnect'], on which every node that is not closed closes itself,
    deletes the default program and drops the backend and the canvas) and
    reports the failure through ['unavailable'] when it was given a
    reason.  The constructors of [src/video-node/*.ts] register the node on
    the context's ['disconnect'] event and allocate its WebGL objects; an
    exception during the allocation destroys the context.  The browser's
    answers ([getContext('webgl')] or [getContext('2d')] returning [null])
    are parameters of [create].  A successful WebGL [create] registers a
    ['webglcontextlost'] listener on its canvas ([context_lost] is that
    event).  The context's [width]/[height] setters, its factories, and
    [VideoTrackSourceNode]'s constructor and [replaceTrack] (the tracks of
    its [MediaStream] as a list), and the flip a raster [VideoMirrorNode]
    queues with [setTimeout] ([mirror_flip]), are here too.

    The file ends with the properties of [destroy], of a failing [create],
    of [replaceTrack] and of a constructor whose WebGL allocation fails. *)

From stdpp Require Import base list gmap strings.
From Stdlib Require Import ZArith QArith Lia.
From S2P Require Import Prelude JsNumber Fsm Model Webgl Layout Graph Frame Lifecycle.

Local Open Scope Z_scope.

(** The lifecycle guard applied to the context. *)
Definition ctx_change {A} (ch : change) (body : VC A) (success : A -> VC unit) : VC (option A) :=
  change_state (fun w => c_state (w_ctx w)) (fun st w => set_ctx (ctx_set_state st (w_ctx w)) w)
    EFsm ch body success.

(** The listener a node registers with [context.once('disconnect', ...)]
    in its constructor: [once] unsubscribes it, then it runs
    [if (this.state !== 'closed') this.close()]. *)
Definition node_disconnect_listener (id : nat) : VC unit :=
  upd_ctx (fun c => ctx_set_listeners (filter (fun x => negb (Nat.eqb x id)) (c_listeners c)) c) ;;;
  n <- get_node id ;;
  if decide (n_state n = SClosed) then mret tt else close id.

(** [VideoContext.disconnect()], i.e. [emit('disconnect')]: the listeners
    registered when it is emitted run in registration order. *)
Definition ctx_disconnect : VC unit :=
  c <- get_ctx ;;
  mfor (c_listeners c) node_disconnect_listener.

(** A [string | undefined] in a condition. *)
Definition js_truthy_str (s : option string) : bool :=
  match s with Some s => negb (String.eqb s "") | None => false end.

Definition ch_destroy : change := Change [SCreated] SInit true.

Definition destroy_body (reason : option string) : VC (option string) :=
  ctx_disconnect ;;;
  c <- get_ctx ;;
  (if c_gl c then gl_delete (c_defaultProgram c) else mret tt) ;;;
  upd_ctx (ctx_set_backend false false) ;;;
  upd_ctx (ctx_set_canvas None) ;;;
  mret reason.

(** The [success] callback of the decoration of [destroy]. *)
Definition destroy_success (reason : option string) : VC unit :=
  (match reason with
   | Some r => if js_truthy_str reason then
                 upd_ctx (fun c => ctx_set_flags (c_hasAlpha c) true c) ;;; emit (EvUnavailable r)
               else mret tt
   | None => mret tt
   end) ;;;
  upd_ctx (ctx_set_listeners []).

(** [VideoContext.destroy(reason?, error?)] *)
Definition destroy (reason : option string) : VC unit :=
  _ <- ctx_change ch_destroy (destroy_body reason) destroy_success ;; mret tt.

(** [document.createElement('canvas')]: 300 by 150 pixels. *)
Definition new_canvas (id : nat) : Canvas := mkCanvas id 300 150 false xform_id.

(** [this._canvas.addEventListener('webglcontextlost', ...)] *)
Definition cv_listen (cv : Canvas) : Canvas := mkCanvas (cv_id cv) (cv_width cv) (cv_height cv) true (cv_xform cv).

Definition ch_create : change := Change [SInit] SCreated false.

(** The body of [VideoContext.create({alpha, use2d})]; [webgl_ok] and
    [ctx2d_ok] say whether [getContext] answers with a context.  The
    result is the error [create] returns instead of throwing. *)
Definition create_body (alpha use2d webgl_ok ctx2d_ok : bool) : VC (option Err) :=
  upd_ctx (ctx_set_flags alpha false) ;;;
  upd_ctx (ctx_set_canvas (Some (new_canvas 0))) ;;;
  c <- get_ctx ;;
  if use2d then upd_ctx (ctx_set_backend (c_gl c) ctx2d_ok) ;;; mret None
  else if webgl_ok then
    upd_ctx (ctx_set_backend true (c_ctx2d c)) ;;;
    upd_bind (fun _ => bind0 (cv_width (new_canvas 0)) (cv_height (new_canvas 0))) ;;;
    try_catch
      (_ <- gl_create ;; _ <- gl_create ;; p <- gl_create ;;
       upd_ctx (ctx_set_program (Some p)) ;;;
       upd_ctx (fun c => ctx_set_canvas (cv_listen <$> c_canvas c) c) ;;; mret None)
      (fun e => mret (Some e))
  else
    upd_ctx (ctx_set_backend (c_gl c) ctx2d_ok) ;;;
    c <- get_ctx ;;
    (if negb (c_ctx2d c) && negb (c_gl c) then upd_ctx (ctx_set_canvas None) else mret tt) ;;;
    mret None.

Definition create (alpha use2d webgl_ok ctx2d_ok : bool) : VC unit :=
  _ <- ctx_change ch_create (create_body alpha use2d webgl_ok ctx2d_ok) (fun _ => mret tt) ;; mret tt.

(** [get available()] *)
Definition available (c : Ctx) : bool := match c_canvas c with Some _ => true | None => false end.

(** The browser fires ['webglcontextlost'] on the context's canvas: the
    listener [create] registered calls [this.destroy('webglcontextlost')]. *)
Definition context_lost : VC unit :=
  c <- get_ctx ;;
  match c_canvas c with
  | Some cv => if cv_onLost cv then destroy (Some "webglcontextlost") else mret tt
  | None => mret tt
  end.

(** [set width(width)]: the viewport keeps the current [this.height]. *)
Definition ctx_set_width (width : Z) : VC unit :=
  c <- get_ctx ;;
  (if c_gl c then gl_viewport width (ctx_height c) else mret tt) ;;;
  match c_canvas c with
  | Some cv => upd_ctx (ctx_set_canvas (Some (cv_set_size (canvas_dim 300 width) (cv_height cv) cv)))
  | None => mret tt
  end.

(** [set height(height)]: the viewport keeps the current [this.width]. *)
Definition ctx_set_height (height : Z) : VC unit :=
  c <- get_ctx ;;
  (if c_gl c then gl_viewport (ctx_width c) height else mret tt) ;;;
  match c_canvas c with
  | Some cv => upd_ctx (ctx_set_canvas (Some (cv_set_size (cv_width cv) (canvas_dim 150 height) cv)))
  | None => mret tt
  end.

(** [new VideoContext({name, frameRate})] in a fresh page. *)
Definition world0 (frameRate : Z) : World :=
  mkWorld (mkCtx frameRate SInit None false false None false false []) ∅
    (mkGL ∅ 1 0 false) ∅ 1 [] [] (bind0 0 0).

(** ** Node construction ([VideoNode]'s constructor) *)

(** [VideoNodeOptions] after the constructor's defaults: [o_shaders] is
    [vertexShaderSource && fragmentShaderSource], [o_createTexture] is
    [createTexture !== false], [o_matchInputSize] is
    [matchInputSize !== false]. *)
Record NodeOptions := mkOpts {
  o_name : string;
  o_shaders : bool;
  o_useDefaultProgram : bool;
  o_createTexture : bool;
  o_create2d : bool;
  o_useFbo : bool;
  o_width : option Z;
  o_height : option Z;
  o_matchInputSize : bool
}.

Definition default_options (name : string) : NodeOptions :=
  mkOpts name false false true false false None None true.

(** The vertex data of [base.ts]: [positions] and [texCoords], as
    (x, y) pairs. *)
Definition base_positions : list (option (Q * Q)) :=
  [Some ((-1)%Q, (-1)%Q); Some ((-1)%Q, 1%Q); Some (1%Q, (-1)%Q); Some (1%Q, 1%Q)].
Definition base_texCoords : list (option (Q * Q)) :=
  [Some (0%Q, 0%Q); Some (0%Q, 1%Q); Some (1%Q, 0%Q); Some (1%Q, 1%Q)].
(** [texCoords] of [mirror.ts] and of [destination.ts]. *)
Definition mirror_texCoords : list (option (Q * Q)) :=
  [Some (1%Q, 0%Q); Some (1%Q, 1%Q); Some (0%Q, 0%Q); Some (0%Q, 1%Q)].
Definition dest_texCoords : list (option (Q * Q)) :=
  [Some (0%Q, 1%Q); Some (0%Q, 0%Q); Some (1%Q, 1%Q); Some (1%Q, 0%Q)].

Definition upd_res (id : nat) (f : Res -> Res) : VC unit :=
  upd_node id (fun n => set_res (f (n_res n)) n).

(** The allocations of the constructor's [try] block, each field assigned
    as soon as its object exists. *)
Definition node_alloc (id : nat) (o : NodeOptions) (width height : Z) : VC unit :=
  (if o_createTexture o then
     t <- gl_create ;;
     upd_res id (fun r => mkRes (Some t) (r_fbo r) (r_texCoordBuffer r) (r_positionBuffer r)
                                (r_program r) (r_vertexShader r) (r_fragmentShader r))
   else mret tt) ;;;
  b1 <- createBuffer base_texCoords ;;
  upd_res id (fun r => mkRes (r_texture r) (r_fbo r) (Some b1) (r_positionBuffer r)
                             (r_program r) (r_vertexShader r) (r_fragmentShader r)) ;;;
  b2 <- createBuffer base_positions ;;
  upd_res id (fun r => mkRes (r_texture r) (r_fbo r) (r_texCoordBuffer r) (Some b2)
                             (r_program r) (r_vertexShader r) (r_fragmentShader r)) ;;;
  node_useTexture id gl_texParameters ;;;
  (if o_useFbo o then
     f <- gl_create ;;
     upd_res id (fun r => mkRes (r_texture r) (Some f) (r_texCoordBuffer r) (r_positionBuffer r)
                                (r_program r) (r_vertexShader r) (r_fragmentShader r)) ;;;
     useBufferFrame id (node_useTexture id (
       gl_texImage2D width height ;;;
       n <- get_node id ;; gl_framebufferTexture2D (r_texture (n_res n))))
   else mret tt) ;;;
  c <- get_ctx ;;
  (if o_useDefaultProgram o then
     upd_res id (fun r => mkRes (r_texture r) (r_fbo r) (r_texCoordBuffer r) (r_positionBuffer r)
                                (c_defaultProgram c) (r_vertexShader r) (r_fragmentShader r))
   else mret tt) ;;;
  if o_shaders o then
    vs <- gl_create ;;
    upd_res id (fun r => mkRes (r_texture r) (r_fbo r) (r_texCoordBuffer r) (r_positionBuffer r)
                               (r_program r) (Some vs) (r_fragmentShader r)) ;;;
    fs <- gl_create ;;
    upd_res id (fun r => mkRes (r_texture r) (r_fbo r) (r_texCoordBuffer r) (r_positionBuffer r)
                               (r_program r) (r_vertexShader r) (Some fs)) ;;;
    p <- gl_create ;;
    upd_res id (fun r => mkRes (r_texture r) (r_fbo r) (r_texCoordBuffer r) (r_positionBuffer r)
                               (Some p) (r_vertexShader r) (r_fragmentShader r))
  else mret tt.

(** [new VideoNode(context, options)] of kind [k]: the reference of the new node. *)
Definition new_node (o : NodeOptions) (k : Kind) : VC nat :=
  c <- get_ctx ;;
  let width := js_or (o_width o) (ctx_width c) in
  let height := js_or (o_height o) (ctx_height c) in
  id <- alloc_node (mkNode (o_name o) (o_matchInputSize o) no_res 0 0 SInit k
                           None None width height false None 0 0 info0) ;;
  upd_ctx (ctx_set_listeners (c_listeners c ++ [id])) ;;;
  (if c_gl c then
     try_catch (node_alloc id o width height) (fun _ => destroy (Some (o_name o +:+ " init failed")))
   else if c_ctx2d c && o_create2d o then
     upd_node id (set_surface true (Some (mkCanvas id width height false xform_id)))
   else mret tt) ;;;
  mret id.

(** [new VideoImageSourceNode(context, image)] *)
Definition new_image_source (img : Image) : VC nat :=
  new_node (default_options "imageSource") (KSource (mkSource img None 0 None None)).

(** [new VideoTrackSourceNode(context, track)]: [video] is the element
    [document.createElement('video')] as it plays the track. *)
Definition new_track_source (video : Image) (track : nat) : VC nat :=
  id <- new_node (default_options "imageSource") (KSource (mkSource video None 0 (Some track) None)) ;;
  upd_node id (set_name "videoTrackSource") ;;;
  upd_node id (upd_source (fun sd => mkSource (sd_image sd) (sd_last sd) (sd_totalFrames sd)
                                              (sd_track sd) (Some [track]))) ;;;
  emit (EvSrcObject id true) ;;;
  emit (EvPlay id) ;;;
  mret id.

(** [MediaStream.removeTrack] and [addTrack] (which ignores a track the
    stream already has) on the list of its tracks. *)
Definition stream_remove (t : nat) (l : list nat) : list nat := filter (fun x => negb (Nat.eqb x t)) l.
Definition stream_add (t : nat) (l : list nat) : list nat := if decide (t ∈ l) then l else l ++ [t].

(** [VideoTrackSourceNode.replaceTrack(track)]; on another node the method
    does not exist. *)
Definition replaceTrack (id : nat) (track : nat) : VC unit :=
  n <- get_node id ;;
  match n_kind n with
  | KSource sd =>
      match sd_track sd with
      | Some cur =>
          if Nat.eqb cur track then mret tt
          else upd_node id (upd_source (fun sd =>
                 mkSource (sd_image sd) (sd_last sd) (sd_totalFrames sd) ((fun _ => track) <$> sd_track sd)
                   ((fun l => stream_add track (stream_remove cur l)) <$> sd_stream sd))) ;;;
               emit (EvPlay id)
      | None => throw ETypeError
      end
  | _ => throw ETypeError
  end.

(** [new VideoMirrorNode(context)]: texture coordinates that flip the
    input on the WebGL path; on the 2-D path, a flip of its own canvas's
    transform queued with [setTimeout(..., 0)]. *)
Definition new_mirror : VC nat :=
  id <- new_node (mkOpts "mirror" false true true true true None None true) KMirror ;;
  c <- get_ctx ;;
  (if c_gl c then
     try_catch (setTexBuffer id mirror_texCoords)
               (fun _ => destroy (Some "mirror set texCoords faild"))
   else
     n <- get_node id ;;
     if n_ctx2d n then modify (fun w => set_tasks (w_tasks w ++ [TMirrorFlip id]) w) else mret tt) ;;;
  mret id.

(** The callback queued by the raster mirror's constructor, when it runs:
    [ctx2d.scale(-1, 1); ctx2d.translate(-this.width, 0)] on the node's own
    canvas, with the width the node has then. *)
Definition mirror_flip (id : nat) : VC unit :=
  n <- get_node id ;;
  match n_canvas n with
  | Some cv => upd_node id (set_surface (n_ctx2d n) (Some (cv_translate (- n_width n) (cv_scale (-1) cv))))
  | None => mret tt
  end.

(** [new VideoMixNode(context)] *)
Definition new_mix : VC nat :=
  new_node (mkOpts "mix" false true true true true None None true) (KMix ja_empty).

(** [Object.assign({ useDefaultProgram: true, createTexture: false, name:
    'destination' }, options)] for options that set only sizes and
    [matchInputSize]. *)
Definition dest_options (width height : option Z) (matchInputSize : bool) : NodeOptions :=
  mkOpts "destination" false true false false false width height matchInputSize.

(** [new VideoDestinationNode(context, options)] and its subclasses. *)
Definition new_destination (k : DestKind) (o : NodeOptions) : VC nat :=
  id <- new_node o (KDest (mkDest k 0 0 false false)) ;;
  c <- get_ctx ;;
  (if c_gl c then setTexBuffer id dest_texCoords
   else if c_ctx2d c then upd_node id (fun n => set_surface true (n_canvas n) n)
   else mret tt) ;;;
  match k with
  | DTrack =>
      (** [context._canvas!.captureStream(...)] and [onmute = noFrame] *)
      c <- get_ctx ;;
      match c_canvas c with
      | Some _ =>
          upd_node id (upd_dest (fun dd => mkDest (dd_kind dd) (dd_intervalId dd) (dd_sequence dd) true true)) ;;;
          mret id
      | None => throw ETypeError
      end
  | _ => mret id
  end.

(** The factories of [VideoContext]. *)
Definition createVideoTrackSource (video : Image) (videoTrack : nat) : VC nat :=
  new_track_source video videoTrack.
Definition createVideoTrackDestination (o : NodeOptions) : VC nat := new_destination DTrack o.
Definition createVideoImageSource (image : Image) : VC nat := new_image_source image.

(** The track's [onmute] handler [noFrame] of [VideoTrackDestination]. *)
Definition track_mute (id : nat) : VC unit :=
  n <- get_node id ;;
  match n_kind n with
  | KDest dd =>
      if dd_onmute dd then
        upd_node id (upd_dest (fun dd => mkDest (dd_kind dd) (dd_intervalId dd) (dd_sequence dd)
                                                (dd_trackLive dd) false)) ;;;
        destroy (Some "video track mute")
      else mret tt
  | _ => mret tt
  end.

(** ** The pointwise relations of [Lifecycle] *)

Section Pres.
Context (Rn : Node -> Node -> Prop) `{!PointRel Rn}.

Lemma pres_node_disconnect_listener id : preserves (pw Rn) (node_disconnect_listener id).
Proof. unfold node_disconnect_listener. pres. Qed.

#[local] Hint Resolve pres_node_disconnect_listener : vc.

Lemma pres_ctx_disconnect : preserves (pw Rn) ctx_disconnect.
Proof. unfold ctx_disconnect. pres. Qed.

#[local] Hint Resolve pres_ctx_disconnect : vc.

Lemma pres_destroy_body r : preserves (pw Rn) (destroy_body r).
Proof. unfold destroy_body. pres. Qed.

Lemma pres_destroy_success r : preserves (pw Rn) (destroy_success r).
Proof. unfold destroy_success. pres. Qed.

#[local] Hint Resolve pres_destroy_body pres_destroy_success : vc.

Lemma pres_destroy r : preserves (pw Rn) (destroy r).
Proof. unfold destroy, ctx_change. pres. Qed.

#[local] Hint Resolve pres_destroy : vc.

Lemma pres_new_node o k : preserves (pw Rn) (new_node o k).
Proof. unfold new_node, node_alloc, upd_res. pres. Qed.
End Pres.

#[export] Hint Resolve pres_node_disconnect_listener pres_ctx_disconnect pres_destroy_body pres_destroy_success
  pres_destroy pres_new_node : vc.

(** ** [destroy] *)

Lemma destroy_body_Ok reason w a w1 :
  destroy_body reason w = Ok a w1 ->
  a = reason /\ c_gl (w_ctx w1) = false /\ c_ctx2d (w_ctx w1) = false /\ c_canvas (w_ctx w1) = None.
Proof.
  unfold destroy_body. intros H. apply mbind_Ok_inv in H as ([] & w2 & _ & H).
  unfold mbind, get_ctx, mret in H. cbn in H.
  destruct (c_gl (w_ctx w2)); [destruct (c_defaultProgram (w_ctx w2))|]; cbn in H;
    by injection H as <- <-.
Qed.

(** [destroy] is idempotent: on a context that is not [created]
    (destroyed already, or never created) it does nothing. *)
Theorem destroy_idempotent reason w :
  c_state (w_ctx w) = SInit -> destroy reason w = Ok tt w.
Proof.
  intros Hs. unfold destroy, ctx_change.
  by rewrite (mbind_Ok _ _ w None w) by (by apply change_state_same).
Qed.

(** C22: [destroy] with a non-empty reason on a created context: when the
    teardown returns, the context is back to [uninitialized], holds no
    backend and no canvas, is marked failed ([glFaild]), has no listener
    left and the last thing it emitted is ['unavailable'] with the
    reason; when a node's teardown throws, the context stays [created].
    The condition is the reason string, not the error: the specification
    ties the notification to an error being passed. *)
Theorem destroy_reports_reason r w :
  c_state (w_ctx w) = SCreated -> r <> "" ->
  match destroy (Some r) w with
  | Ok _ w' => c_state (w_ctx w') = SInit /\ c_gl (w_ctx w') = false /\
               c_ctx2d (w_ctx w') = false /\ c_canvas (w_ctx w') = None /\
               c_glFaild (w_ctx w') = true /\ c_listeners (w_ctx w') = [] /\
               last (w_trace w') = Some (EvUnavailable r)
  | Exn _ w' => c_state (w_ctx w') = SCreated
  end.
Proof.
  intros Hs Hr. unfold destroy, ctx_change, mbind.
  rewrite change_state_run; cbn; rewrite ?Hs; [|done|done].
  destruct (destroy_body (Some r) w) as [a w1|e w1] eqn:Hb; cbn; [|done].
  destruct (destroy_body_Ok _ _ _ _ Hb) as (-> & Hg & Hc & Hv).
  assert (Ht : js_truthy_str (Some r) = true).
  { cbn. destruct (String.eqb_spec r ""); done. }
  unfold destroy_success, mbind, mret. cbn in Ht |- *. rewrite Ht. cbn.
  rewrite last_snoc. auto 10.
Qed.

(** ** [create] *)

(** C25: when WebGL answers but creating the default shaders or program
    throws, [create] catches the error and returns it: the context is
    nevertheless [created], keeps its WebGL context and its canvas, has no
    default program, and no 2-D context is tried.  The specification says
    a GPU failure falls back to software raster. *)
Theorem create_shader_failure alpha ctx2d_ok w :
  c_state (w_ctx w) = SInit -> gl_fail (w_gl w) = true ->
  exists w', create alpha false true ctx2d_ok w = Ok tt w' /\
    c_state (w_ctx w') = SCreated /\ c_gl (w_ctx w') = true /\ c_ctx2d (w_ctx w') = c_ctx2d (w_ctx w) /\
    c_defaultProgram (w_ctx w') = c_defaultProgram (w_ctx w) /\ available (w_ctx w') = true /\
    w_gl w' = w_gl w.
Proof.
  intros Hs Hf. unfold create. unfold mbind at 1. unfold ctx_change.
  rewrite change_state_run; [|by rewrite Hs|by rewrite Hs].
  unfold create_body, mbind, try_catch, upd_ctx, get_ctx, modify, mret, gl_create. cbn.
  rewrite Hf. cbn. eexists. split; [reflexivity|]. cbn. auto 10.
Qed.

(** *** Every registered node is closed by the teardown *)

Definition closed_in (w : World) (id : nat) : Prop :=
  exists n, w_nodes w !! id = Some n /\ n_state n = SClosed.

Lemma closed_in_lc w w' id : lc_rel w w' -> closed_in w id -> closed_in w' id.
Proof. intros Hr (n & Hn & Hs). by eapply lc_rel_closed. Qed.

Lemma node_disconnect_listener_Ok id w w' :
  node_disconnect_listener id w = Ok tt w' -> closed_in w' id.
Proof.
  unfold node_disconnect_listener. intros H.
  apply mbind_Ok_inv in H as ([] & w1 & _ & H). apply mbind_Ok_inv in H as (n & w2 & Hg & H).
  unfold get_node in Hg. destruct (w_nodes w1 !! id) as [m|] eqn:Hm; [|discriminate].
  injection Hg as <- <-. case_decide; [injection H as <-; by exists m|exact (close_Ok_closed id w1 w' H)].
Qed.

Lemma mfor_listeners_Ok l w w' :
  mfor l node_disconnect_listener w = Ok tt w' -> forall id, id ∈ l -> closed_in w' id.
Proof.
  revert w. induction l as [|x l IH]; intros w H id Hid; [by apply elem_of_nil in Hid|].
  simpl in H. apply mbind_Ok_inv in H as ([] & w1 & H1 & H2).
  apply elem_of_cons in Hid as [->|Hid]; [|by eapply IH].
  eapply closed_in_lc; [|by eapply node_disconnect_listener_Ok].
  eapply preserves_Ok; [|exact H2]. apply preserves_mfor; [apply _|].
  intros. apply pres_node_disconnect_listener. apply _.
Qed.

(** C26: when [destroy] tears a created context down and returns, every
    node registered on its ['disconnect'] event (every node constructed
    on it) is [closed]. *)
Theorem destroy_closes_nodes r w w' :
  c_state (w_ctx w) = SCreated -> destroy r w = Ok tt w' ->
  forall id, id ∈ c_listeners (w_ctx w) -> closed_in w' id.
Proof.
  intros Hs H id Hid. unfold destroy in H. apply mbind_Ok_inv in H as (o & w1 & H1 & H2).
  injection H2 as <-. unfold ctx_change in H1.
  apply change_state_Ok_cases in H1 as [[_ [Hc|Hc]]|(a & w2 & Hb & Hsu)].
  1, 2: cbn in Hc; by rewrite Hs in Hc.
  unfold destroy_body in Hb. apply mbind_Ok_inv in Hb as ([] & w3 & Hd & Hb).
  unfold ctx_disconnect, mbind, get_ctx in Hd.
  apply (closed_in_lc w3); [|exact (mfor_listeners_Ok _ _ _ Hd id Hid)].
  apply (transitivity (y:=w2)); [eapply preserves_Ok; [|exact Hb]; pres|].
  apply (transitivity (y:=set_ctx (ctx_set_state (ch_to ch_destroy) (w_ctx w2)) w2)).
  { apply (pw_same_nodes lc_node). reflexivity. }
  eapply preserves_Ok; [|exact Hsu]. apply pres_destroy_success. apply _.
Qed.

(** C30: [replaceTrack] on a track source with another track: the node
    records the new track and the element is played again; a stream that
    holds just the old track, as the constructor leaves it, then holds just
    the new one.  [close] does not make the method inert: on a closed
    source, whose stream was deleted, the track is still recorded and
    [play()] still called, on an element whose [srcObject] is [null]. *)
Theorem replaceTrack_swaps id t w n sd cur :
  w_nodes w !! id = Some n -> n_kind n = KSource sd -> sd_track sd = Some cur ->
  sd_stream sd = Some [cur] \/ sd_stream sd = None -> cur <> t ->
  exists w' n', replaceTrack id t w = Ok tt w' /\ w_nodes w' !! id = Some n' /\
    n_kind n' = KSource (mkSource (sd_image sd) (sd_last sd) (sd_totalFrames sd) (Some t)
                                  ((fun _ => [t]) <$> sd_stream sd)) /\
    n_state n' = n_state n /\ w_trace w' = w_trace w ++ [EvPlay id].
Proof.
  intros Hn Hk Ht Hs Hne. unfold replaceTrack, mbind, get_node, upd_node, modify, emit.
  rewrite Hn, Hk, Ht, (proj2 (Nat.eqb_neq _ _) Hne). cbn.
  do 2 eexists. split; [reflexivity|]. cbn. rewrite lookup_alter_eq, Hn. cbn.
  split; [reflexivity|]. unfold upd_source. rewrite Hk, Ht.
  destruct Hs as [Hs|Hs]; rewrite Hs; cbn; [rewrite Nat.eqb_refl|repeat split].
  unfold stream_add. destruct (decide (t ∈ [])) as [Hin|_]; [by apply elem_of_nil in Hin|].
  repeat split.
Qed.

