(* ===== verification/Destination.v ===== *)
(** * The frame clock of [VideoDestinationNode]

    [start(lastFrameRate)] of [src/video-node/destination.ts] arms a
    [wtimer] interval whose callback is modelled by [tick]: when the
    context's frame rate differs from the one the interval was armed with,
    the node's current interval is cleared and a new one armed
    ([tick_rearm]); then the destination pulls a frame with its sequence
    number, which it increments, and an error code reported by [getError]
    destroys the context with a reason that calls [getError] again
    ([tick_glcheck]).  The timer itself is the external scheduler:
    [tick iv] is one firing of interval [iv].  [getVideoFrame] of
    [VideoFrameDestination] is here too.  The file ends with the
    teardown [tick_glcheck] starts on a recorded error. *)

From stdpp Require Import base list gmap strings pretty.
From Stdlib Require Import ZArith Lia.
From S2P Require Import Prelude Fsm Model Layout Graph Render Context.

Local Open Scope Z_scope.

(** [gl.getError()]: the recorded error code, which the call resets to
    [NO_ERROR]. *)
Definition gl_getError : VC Z :=
  fun w => let g := w_gl w in
           Ok (gl_error g) (set_gl (mkGL (gl_live g) (gl_next g) 0 (gl_fail g)) w).

(** The reason of the teardown:
    [`${this.name} req ${this._sequence} render ${this.totalFrames} faild ${gl.getError()}`];
    a number prints as its decimal digits ([pretty]). *)
Definition render_failed_reason (n : Node) (err : Z) : string :=
  n_name n +:+ " req " +:+ pretty (default 0 (dest_seq n)) +:+ " render " +:+ pretty (n_totalFrames n)
    +:+ " faild " +:+ pretty err.

(** The first lines of the interval's callback, for an interval armed with
    [lastFrameRate = last]: when the context's rate changed, clear the
    node's current interval and [start] a new one at the new rate. *)
Definition tick_rearm (id : nat) (last : Z) : VC unit :=
  c <- get_ctx ;;
  if negb (Z.eqb last (c_frameRate c)) then
    n <- get_node id ;;
    match n_kind n with
    | KDest dd => timer_clear (dd_intervalId dd) ;;; dest_start id
    | _ => mret tt
    end
  else mret tt.

(** The last lines: a WebGL error code other than [NO_ERROR] destroys the
    context, with a reason that reads the node's fields again and calls
    [getError] a second time. *)
Definition tick_glcheck (id : nat) : VC unit :=
  c <- get_ctx ;;
  if c_gl c then
    err <- gl_getError ;;
    if negb (Z.eqb err 0) then
      n' <- get_node id ;;
      err' <- gl_getError ;;
      destroy (Some (render_failed_reason n' err'))
    else mret tt
  else mret tt.

(** The callback of the interval armed for destination [id]:
    [this.requestFrame(this._sequence++)] between the two. *)
Definition tick_body (fuel : nat) (id : nat) (last : Z) : VC unit :=
  tick_rearm id last ;;;
  n <- get_node id ;;
  match n_kind n with
  | KDest dd =>
      upd_node id (upd_dest (fun dd => mkDest (dd_kind dd) (dd_intervalId dd) (dd_sequence dd + 1)
                                              (dd_trackLive dd) (dd_onmute dd))) ;;;
      _ <- requestFrame fuel id (dd_sequence dd) ;;
      tick_glcheck id
  | _ => mret tt
  end.

(** With the destination in the store, the first lines return. *)
Lemma tick_rearm_Ok id last w n : w_nodes w !! id = Some n -> exists w1, tick_rearm id last w = Ok tt w1.
Proof.
  intros Hn. unfold tick_rearm, dest_start, get_ctx, get_node, mbind, mret. cbn.
  destruct (negb _); [rewrite Hn; destruct (n_kind n) eqn:Hk; cbn; rewrite ?Hn; cbn; rewrite ?Hk|]; eauto.
Qed.

(** One firing of interval [iv]; a cleared interval never fires. *)
Definition tick (fuel : nat) (iv : nat) : VC unit :=
  w <- mget ;;
  match w_timers w !! iv with
  | Some i => tick_body fuel (iv_node i) (iv_rate i)
  | None => mret tt
  end.

(** [VideoFrameDestination.getVideoFrame()]: [new VideoFrame(this.context._canvas!)],
    a frame of the context's canvas as it is; without a canvas (a destroyed
    context) the constructor throws a [TypeError], as on a node of another
    class, which has no such method. *)
Definition getVideoFrame (id : nat) : VC Canvas :=
  n <- get_node id ;;
  match n_kind n with
  | KDest dd =>
      match dd_kind dd with
      | DFrame =>
          c <- get_ctx ;;
          match c_canvas c with Some cv => mret cv | None => throw ETypeError end
      | _ => throw ETypeError
      end
  | _ => throw ETypeError
  end.

(** The number of armed intervals that fire the callback of node [id]. *)
Definition active_timers (w : World) (id : nat) : nat :=
  length (filter (fun p => iv_node p.2 = id) (map_to_list (w_timers w))).

(** C14: a WebGL error seen by the frame clock tears the context down:
    when the context holds WebGL, an error other than [NO_ERROR] is
    recorded and the destination is in the store, [tick_glcheck] resets
    the error and runs [destroy] with the reason built from the node,
    whose last field is the second [getError], which the first one reset:
    the reason always ends in ["faild 0"]. *)
Theorem tick_glcheck_error id w n :
  c_gl (w_ctx w) = true -> gl_error (w_gl w) <> 0 -> w_nodes w !! id = Some n ->
  tick_glcheck id w =
    destroy (Some (render_failed_reason n 0))
      (set_gl (mkGL (gl_live (w_gl w)) (gl_next (w_gl w)) 0 (gl_fail (w_gl w))) w).
Proof.
  intros Hg He Hn. unfold tick_glcheck, get_ctx, gl_getError, get_node, mbind. cbn.
  rewrite Hg. apply Z.eqb_neq in He. rewrite He. cbn. rewrite Hn. reflexivity.
Qed.
