(* ===== verification/Info.v ===== *)
(** * Diagnostics: [getInfo]

    [VideoNode.getInfo] ([src/video-node/base.ts]) and its override
    [VideoMixNode.getInfo] ([src/video-node/mix.ts]) take a snapshot of a
    node's statistics, store it in the field [lastInfo], and return it
    together with the snapshots of the node's inputs, taken recursively.
    The frame rate is [(Δ totalFrames) / (Δ ms / 1000) >> 0]: two
    subtractions and two divisions of JS numbers, computed here on
    doubles ([JsNumber]), then [ToInt32], which sends [NaN] and the
    infinities to [0], truncates toward zero and wraps modulo [2^32].
    The double quotient is not the exact one: 7 frames in 70 ms give
    [99.99999999999999] and a rate of 99 ([fps_of_rounding]).

    [Date.now()] is the parameter [now]; every read of one traversal
    returns it. *)

From stdpp Require Import base list gmap.
From Stdlib Require Import ZArith Lia Floats.
From S2P Require Import Prelude JsNumber Fsm Model.

Local Open Scope Z_scope.

(** ** The frame rate *)

(** [(totalFrames - this.lastInfo.totalFrames) / ((timestamp -
    this.lastInfo.timestamp) / 1000) >> 0] on the numbers of the
    counters and of the timestamps. *)
Definition fps_of (frames lastFrames now lastTime : Z) : Z :=
  ToInt32 ((num_of_Z frames - num_of_Z lastFrames) / ((num_of_Z now - num_of_Z lastTime) / 1000))%float.

(** Lines [const { totalFrames, x, y, width, height } = this; const timestamp
    = Date.now(); const fps = ...]: the snapshot [getInfo] stores. *)
Definition snapshot (n : Node) (now : Z) : NodeInfo :=
  let li := n_lastInfo n in
  mkNodeInfo now (n_totalFrames n) (n_x n) (n_y n) (n_width n) (n_height n)
    (fps_of (n_totalFrames n) (i_totalFrames li) now (i_timestamp li)).

(** ** The result: [{ parent, ...this.lastInfo }] *)

(** [parent] is the input's result ([undefined] without input) for the
    base class, the array of the slots' results for a mix. *)
Inductive InfoTree :=
| IBase (parent : option InfoTree) (info : NodeInfo)
| IMix (parents : list InfoTree) (info : NodeInfo).

Definition tree_info (t : InfoTree) : NodeInfo :=
  match t with IBase _ i | IMix _ i => i end.

(** Every snapshot of a result, the root first. *)
Fixpoint tree_infos (t : InfoTree) : list NodeInfo :=
  match t with
  | IBase p i => i :: match p with Some t' => tree_infos t' | None => [] end
  | IMix ps i => i :: concat (map tree_infos ps)
  end.

(** [this.inputs.filter(input => input).map(input => input!.node)]:
    [filter] visits the elements of the array in index order and skips
    its holes. *)
Definition mix_children (a : jsarr NodeMixInfo) : list nat :=
  map mi_node (omap id (ja_elems a)).

Section Methods.
(** The call of [getInfo()] on another node. *)
Variable rec : nat -> VC InfoTree.

(** [VideoNode.getInfo]: the snapshot is stored before the input is
    visited; [...this.lastInfo] is read after it. *)
Definition base_getInfo (now : Z) (id : nat) : VC InfoTree :=
  n <- get_node id ;;
  upd_node id (set_lastInfo (snapshot n now)) ;;;
  parent <- (match n_input n with
             | Some i => p <- rec i ;; mret (Some p)
             | None => mret None
             end) ;;
  n' <- get_node id ;;
  mret (IBase parent (n_lastInfo n')).

(** [VideoMixNode.getInfo]: the same, over the occupied slots. *)
Definition mix_getInfo (now : Z) (id : nat) : VC InfoTree :=
  n <- get_node id ;;
  upd_node id (set_lastInfo (snapshot n now)) ;;;
  parents <- mmap rec (match n_kind n with KMix a => mix_children a | _ => [] end) ;;
  n' <- get_node id ;;
  mret (IMix parents (n_lastInfo n')).
End Methods.

(** [getInfo()] on the node [id], dispatched on its class.  The recursion
    follows the inputs, without end on a cyclic graph: [fuel] bounds it and
    its exhaustion is the [RangeError]. *)
Fixpoint getInfo (fuel : nat) (now : Z) (id : nat) : VC InfoTree :=
  match fuel with
  | O => throw EStack
  | S f =>
      n <- get_node id ;;
      match n_kind n with
      | KMix _ => mix_getInfo (getInfo f now) now id
      | _ => base_getInfo (getInfo f now) now id
      end
  end.

(** ** [getInfo] changes nothing but [lastInfo] *)

(** A node without its [lastInfo], and the store without any. *)
Definition strip (n : Node) : Node := set_lastInfo info0 n.
Definition strip_world (w : World) : World := set_nodes (strip <$> w_nodes w) w.

(** [w'] differs from [w] at most in the fields [lastInfo]. *)
Definition info_frame (w w' : World) : Prop := strip_world w' = strip_world w.

#[export] Instance info_frame_preorder : PreOrder info_frame.
Proof. split; [intros w; reflexivity|intros a b c H1 H2; unfold info_frame in *; congruence]. Qed.

Lemma strip_set_lastInfo li n : strip (set_lastInfo li n) = strip n.
Proof. by destruct n. Qed.

Lemma strip_alter_lastInfo (m : gmap nat Node) id li :
  strip <$> alter (set_lastInfo li) id m = strip <$> m.
Proof.
  apply map_eq. intros k. rewrite !lookup_fmap.
  destruct (decide (id = k)) as [->|Hk].
  - rewrite lookup_alter_eq. destruct (m !! k) as [n|]; [exact (f_equal Some (strip_set_lastInfo li n))|done].
  - by rewrite lookup_alter_ne.
Qed.

Lemma info_frame_set_lastInfo id li : preserves (E:=Err) info_frame (upd_node id (set_lastInfo li)).
Proof. intros w. unfold info_frame, strip_world. cbn. by rewrite strip_alter_lastInfo. Qed.

Lemma info_frame_get_node id : preserves info_frame (get_node id).
Proof. intros w. unfold get_node. destruct (w_nodes w !! id); reflexivity. Qed.

#[local] Hint Resolve info_frame_set_lastInfo info_frame_get_node : vc.

(** C27: [getInfo] changes nothing but the [lastInfo] fields, whether it
    returns or throws: states, edges, sizes, counters, resources, the
    context and the trace are those it started with. *)
Theorem getInfo_only_lastInfo fuel now id w :
  strip_world (res_state (getInfo fuel now id w)) = strip_world w.
Proof.
  revert id w. induction fuel as [|f IH]; intros id w; [reflexivity|].
  change (info_frame w (res_state (getInfo (S f) now id w))). revert w.
  change (preserves info_frame (getInfo (S f) now id)). cbn [getInfo].
  assert (Hf : forall i, preserves info_frame (getInfo f now i)) by exact IH.
  apply preserves_bind; [apply _|apply info_frame_get_node|intros n].
  destruct (n_kind n); unfold base_getInfo, mix_getInfo;
    repeat (apply preserves_bind; [apply _| |intros ?]);
    try destruct (n_input _); try destruct (n_kind _); eauto 6 with vc typeclass_instances.
Qed.

(** ** The result on a node without inputs *)

(** C28: [getInfo] on a source, mirror or destination without input stores
    the new snapshot in [lastInfo] and returns it, with no parent. *)
Theorem getInfo_leaf fuel now id w n :
  w_nodes w !! id = Some n -> (forall a, n_kind n <> KMix a) -> n_input n = None ->
  getInfo (S fuel) now id w =
    Ok (IBase None (snapshot n now)) (set_nodes (alter (set_lastInfo (snapshot n now)) id (w_nodes w)) w).
Proof.
  intros Hn Hk Hi. cbn [getInfo]. unfold base_getInfo, mbind, get_node, upd_node, modify, mret.
  rewrite Hn. cbn.
  destruct (n_kind n); [| |exfalso; by eapply Hk|]; cbn; rewrite Hn; cbn; rewrite Hi; cbn;
    rewrite lookup_alter_eq, Hn; reflexivity.
Qed.

(** ** The frame rate *)

(** C29: the reported frame rate is [0] when no frame was produced since
    the previous snapshot, whatever the interval, and when the previous
    snapshot was taken in the same millisecond, whatever the frames: the
    double quotient is then a zero, [NaN] or an infinity, which [>> 0]
    turns into [0]. *)
Theorem fps_of_idle frames lastFrames now lastTime :
  (frames = lastFrames /\ - 2 ^ 53 < frames < 2 ^ 53) \/ (now = lastTime /\ - 2 ^ 53 < now < 2 ^ 53) ->
  fps_of frames lastFrames now lastTime = 0.
Proof.
  unfold fps_of. intros [[-> Hf]|[-> Ht]].
  - apply ToInt32_zero_div, sub_self_zero, Hf.
  - apply ToInt32_div_by_zero, zero_div_1000, sub_self_zero, Ht.
Qed.

Lemma fps_of_idle_witness : fps_of 5 5 60000 1000 = 0.
Proof. apply fps_of_idle. left. split; [reflexivity|lia]. Defined.

(** The quotient in doubles can fall below an integer rate: 7 frames in
    70 ms are reported as 99 frames per second, not 100. *)
Lemma fps_of_rounding : fps_of 7 0 70 0 = 99.
Proof. vm_compute. reflexivity. Qed.
