(* ===== verification/Small.v ===== *)
(** * The size of [SmallVideoTrackDestination]

    [SmallVideoTrackDestination.resize(width, height)]
    ([src/video-node/destination.ts]) scales the size it is given down to
    a lower resolution before the resize of [VideoTrackDestination]: by
    the square root of the ratio of the pixel counts when the given size
    has more pixels than [this.resolution], and otherwise down to the pixel
    count of 160 x 120 (which enlarges a smaller size).  This file is the
    abstraction of that computation on real numbers: [Number] arithmetic
    without its rounding, on which the pixel count and the aspect ratio
    are exact.  [SmallDest] models the code itself, on doubles. *)

From Stdlib Require Import Reals Lra.
From S2P Require Import Prelude.

Local Open Scope R_scope.

(** [ratio]: [bigResolution / smallResolution] or
    [bigResolution / (160 * 120)]. *)
Definition small_ratio (width height rw rh : R) : R :=
  let big := width * height in
  let small := rw * rh in
  if Rlt_dec small big then big / small else big / (160 * 120).

(** The arguments of [super.resize]:
    [width / Math.sqrt(ratio), height / Math.sqrt(ratio)]. *)
Definition small_size (width height rw rh : R) : R * R :=
  let r := small_ratio width height rw rh in
  (width / sqrt r, height / sqrt r).

(** The pixel count of the result: the [resolution]'s when the given size
    is larger, [160 * 120] otherwise. *)
Lemma small_size_area width height rw rh :
  0 < width -> 0 < height -> 0 < rw -> 0 < rh ->
  fst (small_size width height rw rh) * snd (small_size width height rw rh) =
    if Rlt_dec (rw * rh) (width * height) then rw * rh else 160 * 120.
Proof.
  intros Hw Hh Hrw Hrh. unfold small_size, small_ratio. cbn.
  assert (Hb : 0 < width * height) by (apply Rmult_lt_0_compat; lra).
  assert (Hs : 0 < rw * rh) by (apply Rmult_lt_0_compat; lra).
  destruct (Rlt_dec (rw * rh) (width * height)) as [Hlt|Hge];
    [set (r := width * height / (rw * rh))|set (r := width * height / (160 * 120))];
    (assert (Hr : 0 < r) by (unfold r; apply Rdiv_lt_0_compat; lra));
    (assert (Hq : sqrt r * sqrt r = r) by (apply sqrt_sqrt; lra));
    (assert (Hq0 : 0 < sqrt r) by (apply sqrt_lt_R0; lra));
    (replace (width / sqrt r * (height / sqrt r)) with (width * height / (sqrt r * sqrt r))
       by (field; lra));
    rewrite Hq; unfold r; field; lra.
Qed.

(** The aspect ratio is kept. *)
Lemma small_size_aspect width height rw rh :
  0 < width -> 0 < height -> 0 < rw -> 0 < rh ->
  fst (small_size width height rw rh) / snd (small_size width height rw rh) = width / height.
Proof.
  intros Hw Hh Hrw Hrh. unfold small_size. cbn.
  assert (Hr : 0 < small_ratio width height rw rh).
  { unfold small_ratio. destruct (Rlt_dec _ _); apply Rdiv_lt_0_compat;
      apply Rmult_lt_0_compat; lra. }
  pose proof (sqrt_lt_R0 _ Hr). field. lra.
Qed.
