(* ===== verification/System.v ===== *)
(** * The public operations and the runs of a graph

    [Op] lists what the embedding application and the browser can do to a
    running graph: create or destroy the context, construct nodes, edit
    edges, resize, pull a frame, read diagnostics ([getInfo]), replace a
    source's track, set the context's size, fire an interval of a
    destination, mute the exported track, record a WebGL error, lose the
    WebGL context, change the frame rate.  [run_op] executes one of
    them with the model of the corresponding method, and [reach] is the
    reflexive-transitive closure of that step: the states of a program
    that builds and runs a graph.  The lifecycle refinement of [Lifecycle]
    is extended here to every operation.

    The file ends with the lifecycle refinement over every run, the
    monotonicity of frame counters and the progress of a destination's
    sequence number on each tick. *)

From stdpp Require Import base list gmap relations strings.
From Stdlib Require Import ZArith Lia.
From S2P Require Import Prelude Fsm Model Webgl Layout Graph Frame Lifecycle Render Context Destination Info.

Local Open Scope Z_scope.

Inductive Op :=
| OpCreate (alpha use2d webgl_ok ctx2d_ok : bool)
| OpDestroy (reason : option string)
| OpContextDisconnect
| OpNewImageSource (img : Image)
| OpNewTrackSource (video : Image) (track : nat)
| OpReplaceTrack (id track : nat)
| OpNewMirror
| OpNewMix
| OpNewDestination (k : DestKind) (width height : option Z) (matchInputSize : bool)
| OpConnect (id target : nat) (layout : option MixLayout)
| OpDisconnect (id : nat)
| OpClose (id : nat)
| OpResize (id : nat) (width height : Z)
| OpRequestFrame (id : nat) (seq : Z)
| OpTick (iv : nat)
| OpTrackMute (id : nat)
| OpSetFrameRate (rate : Z)
| OpSetImage (id : nat) (img : Image)
| OpGetInfo (id : nat) (now : Z)
| OpGLError (code : Z)
| OpContextLost
| OpSetWidth (width : Z)
| OpSetHeight (height : Z)
| OpRunTask
| OpGetVideoFrame (id : nat).

(** Assigning the public [image] field of a source node, or advancing the
    video behind it. *)
Definition set_image (id : nat) (img : Image) : VC unit :=
  n <- get_node id ;;
  match n_kind n with
  | KSource _ => upd_node id (upd_source (fun sd => mkSource img (sd_last sd) (sd_totalFrames sd)
                                                             (sd_track sd) (sd_stream sd)))
  | _ => mret tt
  end.

(** The event loop runs the oldest callback queued by [setTimeout]. *)
Definition run_task : VC unit :=
  w <- mget ;;
  match w_tasks w with
  | [] => mret tt
  | TMirrorFlip id :: ts => modify (set_tasks ts) ;;; mirror_flip id
  end.

Definition node_st (w : World) (id : nat) : option St := n_state <$> w_nodes w !! id.

Definition run_op (fuel : nat) (op : Op) : VC unit :=
  match op with
  | OpCreate a u g c => create a u g c
  | OpDestroy r => destroy r
  | OpContextDisconnect => ctx_disconnect
  | OpNewImageSource img => _ <- createVideoImageSource img ;; mret tt
  | OpNewTrackSource v t => _ <- createVideoTrackSource v t ;; mret tt
  | OpReplaceTrack id t => replaceTrack id t
  | OpNewMirror => _ <- new_mirror ;; mret tt
  | OpNewMix => _ <- new_mix ;; mret tt
  | OpNewDestination DTrack w h m => _ <- createVideoTrackDestination (dest_options w h m) ;; mret tt
  | OpNewDestination k w h m => _ <- new_destination k (dest_options w h m) ;; mret tt
  | OpConnect id t l => connect fuel id t l
  | OpDisconnect id => disconnect id
  | OpClose id => close id
  | OpResize id w h => resize fuel id w h
  | OpRequestFrame id sq => _ <- requestFrame fuel id sq ;; mret tt
  | OpTick iv => tick fuel iv
  | OpTrackMute id => track_mute id
  | OpSetFrameRate r => upd_ctx (ctx_set_frameRate r)
  | OpSetImage id img => set_image id img
  | OpGetInfo id now => _ <- getInfo fuel now id ;; mret tt
  | OpGLError code => gl_raise code
  | OpContextLost => context_lost
  | OpSetWidth width => ctx_set_width width
  | OpSetHeight height => ctx_set_height height
  | OpRunTask => run_task
  | OpGetVideoFrame id => _ <- getVideoFrame id ;; mret tt
  end.

(** The stores a program reaches from [w] by a sequence of operations,
    each run with [fuel], whether it returned or threw. *)
Inductive reach (fuel : nat) : World -> World -> Prop :=
| reach_refl w : reach fuel w w
| reach_step w op w' : reach fuel (exec (run_op fuel op) w) w' -> reach fuel w w'.

(** ** The pointwise relations for the remaining methods *)

Section Methods.
Context (Rn : Node -> Node -> Prop) `{!PointRel Rn}.

Lemma pres_gl_getError : preserves (pw Rn) gl_getError.
Proof. intros w. by apply pw_same_nodes. Qed.

Lemma pres_mget : preserves (E:=Err) (pw Rn) mget.
Proof. apply preserves_get. apply _. Qed.

#[local] Hint Resolve pres_gl_getError pres_mget : vc.

Section RenderRel.
Variable rf : nat -> Z -> VC bool.
Hypothesis Hrf : forall i sq, preserves (pw Rn) (rf i sq).
Variable fuel : nat.

#[local] Hint Resolve Hrf : vc.

Lemma pres_draw2d id img a b c d : preserves (pw Rn) (draw2d id img a b c d).
Proof. unfold draw2d. pres. Qed.

#[local] Hint Resolve pres_draw2d : vc.

Lemma pres_source_render id gl : preserves (pw Rn) (source_render fuel id gl).
Proof. unfold source_render, source_upload. pres. Qed.

Lemma pres_mix_pull id sq idx nf : preserves (pw Rn) (mix_pull rf id sq idx nf).
Proof. revert nf. induction idx; intros nf; simpl; pres. Qed.

#[local] Hint Resolve pres_source_render pres_mix_pull : vc.

Lemma pres_render id sq : preserves (pw Rn) (render rf fuel id sq).
Proof.
  unfold render, mix_render, mirror_render, dest_render, draw_quad, pull_input, mix_slots_len, mix_draw_slot. pres.
Qed.

Lemma pres_render2d id sq : preserves (pw Rn) (render2d rf fuel id sq).
Proof.
  unfold render2d, mix_render2d, base_render2d, pull_input, mix_slots_len, mix_draw2d_slot. pres.
Qed.
End RenderRel.

#[local] Hint Resolve pres_render pres_render2d : vc.

Lemma pres_requestFrame fuel id sq : preserves (pw Rn) (requestFrame fuel id sq).
Proof. revert id sq. induction fuel; intros id sq; simpl; pres. Qed.

#[local] Hint Resolve pres_requestFrame : vc.

Lemma pres_getInfo fuel now id : preserves (pw Rn) (getInfo fuel now id).
Proof. revert id. induction fuel; intros id; simpl; unfold base_getInfo, mix_getInfo; pres. Qed.

#[local] Hint Resolve pres_getInfo : vc.

Lemma pres_tick_rearm id last : preserves (pw Rn) (tick_rearm id last).
Proof. unfold tick_rearm, dest_start. pres. Qed.

Lemma pres_tick_glcheck id : preserves (pw Rn) (tick_glcheck id).
Proof. unfold tick_glcheck. pres. Qed.

Lemma pres_run_op fuel op : preserves (pw Rn) (run_op fuel op).
Proof.
  destruct op; simpl;
    unfold createVideoImageSource, createVideoTrackSource, createVideoTrackDestination,
      create, ctx_change, create_body, new_image_source, new_track_source, new_mirror,
      new_mix, new_destination, setTexBuffer, track_mute, set_image, tick, tick_body, tick_rearm,
      tick_glcheck, dest_start, context_lost, ctx_set_width, ctx_set_height, replaceTrack, run_task, mirror_flip, getVideoFrame;
    pres.
Qed.
End Methods.

#[export] Hint Resolve pres_requestFrame pres_tick_rearm pres_tick_glcheck : vc.

(** ** The lifecycle of every node follows the abstract state machine *)

(** A small program used by the witnesses: a WebGL context, a still
    image source connected to a track destination, one frame pulled,
    and the source closed. *)
Definition demo_ops : list Op :=
  [OpCreate false false true true; OpNewImageSource (IStill 50 HTMLImageElement 320 240);
   OpNewDestination DTrack None None true; OpConnect 0 1 None; OpRequestFrame 1 0].

Definition run_ops (fuel : nat) (ops : list Op) (w : World) : World :=
  fold_left (fun w op => exec (run_op fuel op) w) ops w.

Lemma reach_run_ops fuel ops w : reach fuel w (run_ops fuel ops w).
Proof.
  revert w. induction ops as [|op ops IH]; intros w; simpl; [constructor|].
  eapply reach_step. apply IH.
Qed.

Definition demo_world : World := run_ops 10 demo_ops (world0 30).

Lemma reach_pw Rn `{!PointRel Rn} fuel w w' : reach fuel w w' -> pw Rn w w'.
Proof.
  induction 1 as [w|w op w' _ IH]; [reflexivity|].
  etrans; [apply pres_run_op; apply _|exact IH].
Qed.

(** C1: along any run of the program, from any store, every node that
    exists keeps existing, and its state moves only by steps of the
    specification's lifecycle: [uninitialized -> connected] (connect),
    [connected -> uninitialized] (disconnect), anything but [closed] ->
    [closed] (close). *)
Theorem reach_refines_lifecycle fuel w w' : reach fuel w w' -> lc_rel w w'.
Proof. apply reach_pw. apply _. Qed.

Lemma reach_refines_lifecycle_witness :
  reach 10 (world0 30) demo_world /\ lc_rel (world0 30) demo_world.
Proof.
  split; [apply reach_run_ops|].
  apply (reach_refines_lifecycle 10 (world0 30) demo_world). apply reach_run_ops.
Defined.

Definition demo_closed : World := run_ops 10 [OpClose 0] demo_world.

(** C4: the frame counter [totalFrames] of a node never decreases along
    any run of the program, whatever the operations return or throw. *)
Theorem totalFrames_monotone fuel w w' id n :
  reach fuel w w' -> w_nodes w !! id = Some n ->
  exists n', w_nodes w' !! id = Some n' /\ (n_totalFrames n <= n_totalFrames n')%Z.
Proof.
  intros Hr Hn. specialize (reach_pw frames_node fuel w w' Hr id). rewrite Hn.
  destruct (w_nodes w' !! id) as [n'|]; [eauto|done].
Qed.

Lemma totalFrames_monotone_witness :
  exists n', w_nodes (run_ops 10 [OpSetImage 0 (IStill 50 HTMLImageElement 640 480);
                                  OpDisconnect 0; OpClose 1] demo_world) !! 1%nat = Some n' /\
             (1 <= n_totalFrames n')%Z.
Proof.
  assert (H : exists n, w_nodes demo_world !! 1%nat = Some n /\ n_totalFrames n = 1%Z)
    by (vm_compute; eauto).
  destruct H as [n [Hn Ht]].
  destruct (totalFrames_monotone 10 demo_world _ 1 n (reach_run_ops 10 [OpSetImage 0 (IStill 50 HTMLImageElement 640 480); OpDisconnect 0; OpClose 1] _) Hn) as [n' [H1 H2]].
  exists n'. split; [exact H1|lia].
Defined.

(** ** The progress of the frame clock *)

(** C7: progress of the frame clock: each firing of an interval armed for
    a destination raises its [_sequence], whatever the pull and the error
    check then do (a teardown included), so the sequence numbers the
    successive ticks pass to [requestFrame] strictly increase. *)
Theorem tick_sequence_increases fuel iv w i n s :
  w_timers w !! iv = Some i -> w_nodes w !! iv_node i = Some n -> dest_seq n = Some s ->
  exists n' s', w_nodes (exec (run_op fuel (OpTick iv)) w) !! iv_node i = Some n' /\
                dest_seq n' = Some s' /\ s < s'.
Proof.
  intros Hi Hn Hs. cbn [run_op]. unfold exec, tick, mget. cbn [mbind]. rewrite Hi.
  destruct (tick_rearm_Ok (iv_node i) (iv_rate i) w n Hn) as [w1 H1].
  unfold tick_body. rewrite (mbind_Ok _ _ _ _ _ H1).
  destruct (pw_lookup _ _ _ _ _ (preserves_Ok _ _ _ _ _ (pres_tick_rearm seq_le _ _) H1) Hn)
    as (n1 & Hn1 & Hle1).
  destruct (seq_le_Some _ _ _ Hle1 Hs) as (s1 & Hs1 & Hss1).
  unfold dest_seq in Hs1. destruct (n_kind n1) as [| | |dd1] eqn:Hk1; try discriminate Hs1.
  injection Hs1 as <-.
  rewrite (mbind_Ok _ _ _ _ _ (get_node_Some _ _ _ Hn1)), Hk1, (mbind_Ok _ _ _ _ _ (upd_node_run _ _ _)).
  match goal with |- context [res_state (?m ?w2)] =>
    assert (Hr : seq_rel w2 (res_state (m w2)))
      by (assert (Hp : preserves seq_rel m) by pres; exact (Hp w2)) end.
  set (g := upd_dest _) in Hr |- *.
  assert (Hn2 : w_nodes (set_nodes (alter g (iv_node i) (w_nodes w1)) w1) !! iv_node i = Some (g n1))
    by (cbn; rewrite lookup_alter_eq, Hn1; reflexivity).
  destruct (pw_lookup _ _ _ _ _ Hr Hn2) as (n' & Hn' & Hle').
  destruct (seq_le_Some _ _ (dd_sequence dd1 + 1) Hle') as (s' & Hs' & Hss');
    [unfold g, dest_seq, upd_dest; rewrite Hk1; reflexivity|].
  exists n', s'. split; [exact Hn'|split; [exact Hs'|lia]].
Qed.

(** A source and a mirror on a 2-D context; the mirror's deferred flip ran
    once the two were connected. *)
