(* ===== verification/GraphProps.v ===== *)
(** * The edges of the graph, and the witnesses of the properties

    [edge_rel] relates two stores whose nodes have the same lifecycle
    state, input, output and mix slots; it is preserved by [resize] and by
    the WebGL bookkeeping, which gives the [connect]/[disconnect] round
    trip.  The rest of the file applies each property of the
    development to a store built by running operations from a fresh
    context ([run_ops]), with its hypotheses checked by evaluation. *)

From stdpp Require Import base list gmap relations strings.
From Stdlib Require Import ZArith QArith Lia.
From S2P Require Import Prelude Fsm Model Layout Graph Frame Lifecycle Render Context Destination Info System.

Local Open Scope Z_scope.

(** A mix [2] whose depth 0 holds source [0]; source [1] is free. *)
Definition w_mix_busy : World :=
  run_ops 10 [OpCreate false false true true;
              OpNewImageSource (IStill 50 HTMLImageElement 320 240);
              OpNewImageSource (IStill 51 HTMLImageElement 160 120); OpNewMix;
              OpConnect 0 2 (Some (mkLayout None None None None 0))] (world0 30).

Lemma connect_mix_duplicate_zIndex_witness :
  connect 10 1 2 (Some (mkLayout (Some 10) None None None 0)) w_mix_busy = Exn EInputExists w_mix_busy.
Proof.
  assert (H : exists np nm inputs mi, w_nodes w_mix_busy !! 1%nat = Some np /\ n_state np = SInit /\
                w_nodes w_mix_busy !! 2%nat = Some nm /\ n_kind nm = KMix inputs /\
                ja_get inputs 0 = Some mi) by (vm_compute; eauto 12).
  destruct H as (np & nm & inputs & mi & H1 & H2 & H3 & H4 & H5).
  exact (connect_mix_duplicate_zIndex 10 1 2 (mkLayout (Some 10) None None None 0) w_mix_busy np nm inputs mi H1 H2 H3 H4 H5).
Defined.

(** ** The edges of the graph

    [edge_eq n n']: the two versions of a node have the same lifecycle
    state, input, output and (for a mix) the same child and layout at
    every depth; sizes, frame counters, vertex buffers and surfaces may
    differ. *)

Definition slot_skel (o : option NodeMixInfo) : option (nat * MixLayout) :=
  (fun mi => (mi_node mi, mi_layout mi)) <$> o.

Definition kind_edges (k k' : Kind) : Prop :=
  match k, k' with
  | KMix a, KMix a' => forall z, slot_skel (ja_get a z) = slot_skel (ja_get a' z)
  | KMix _, _ | _, KMix _ => False
  | _, _ => True
  end.

Definition edge_eq (n n' : Node) : Prop :=
  n_state n = n_state n' /\ n_input n = n_input n' /\ n_output n = n_output n' /\
  kind_edges (n_kind n) (n_kind n').

Definition edge_rel (w w' : World) : Prop :=
  forall id, match w_nodes w !! id, w_nodes w' !! id with
             | Some n, Some n' => edge_eq n n'
             | None, None => True
             | _, _ => False
             end.

Lemma edge_eq_refl n : edge_eq n n.
Proof. repeat split. destruct (n_kind n); simpl; auto. Qed.

#[export] Instance edge_rel_preorder : PreOrder edge_rel.
Proof.
  split.
  - intros w id. destruct (w_nodes w !! id) as [n|]; [|done].
    repeat split. destruct (n_kind n); simpl; auto.
  - intros w1 w2 w3 H12 H23 id. specialize (H12 id). specialize (H23 id).
    destruct (w_nodes w1 !! id) as [n1|], (w_nodes w2 !! id) as [n2|], (w_nodes w3 !! id) as [n3|];
      try done.
    destruct H12 as (A1 & B1 & C1 & D1), H23 as (A2 & B2 & C2 & D2).
    repeat split; try congruence.
    destruct (n_kind n1), (n_kind n2), (n_kind n3); simpl in *; try done.
    intros z. by rewrite D1, D2.
Qed.

#[export] Instance edge_rel_NodeRel : NodeRel edge_rel.
Proof.
  split; [apply _|]. intros w w' H. unfold edge_rel. rewrite H. intros id.
  destruct (w_nodes w !! id); [apply edge_eq_refl|done].
Qed.

Lemma pres_edge_upd_node id f :
  (forall n, edge_eq n (f n)) -> preserves edge_rel (upd_node id f).
Proof.
  intros Hf w i. simpl. rewrite lookup_alter.
  case_decide; subst; destruct (w_nodes w !! i) as [n|]; simpl; try done;
    first [apply Hf|apply edge_eq_refl].
Qed.

Lemma edge_eq_intro n n' :
  n_state n = n_state n' -> n_input n = n_input n' -> n_output n = n_output n' ->
  n_kind n = n_kind n' -> edge_eq n n'.
Proof. intros A B C D. repeat split; try done. rewrite D. destruct (n_kind n'); simpl; auto. Qed.

Lemma edge_eq_upd_dest f n : edge_eq n (upd_dest f n).
Proof. unfold upd_dest. destruct (n_kind n) eqn:Hk; try apply edge_eq_refl. repeat split. by rewrite Hk. Qed.

Lemma edge_eq_upd_source f n : edge_eq n (upd_source f n).
Proof. unfold upd_source. destruct (n_kind n) eqn:Hk; try apply edge_eq_refl. repeat split. by rewrite Hk. Qed.

#[export] Hint Resolve edge_eq_refl : vc.
#[export] Hint Extern 1 (preserves edge_rel (upd_node _ _)) =>
  apply pres_edge_upd_node; intros;
  first [apply edge_eq_intro; reflexivity | apply edge_eq_upd_dest | apply edge_eq_upd_source] : vc.

Lemma ja_get_of_nat {A} (a : jsarr A) i : ja_get a (Z.of_nat i) = mjoin (ja_elems a !! i).
Proof. unfold ja_get. rewrite decide_True by lia. by rewrite Nat2Z.id. Qed.

Lemma edge_eq_set_slot_buffer i b n : edge_eq n (set_slot_buffer i b n).
Proof.
  unfold set_slot_buffer. destruct (n_kind n) as [| |a|] eqn:Hk; try apply edge_eq_refl.
  destruct (mjoin (ja_elems a !! i)) as [mi|] eqn:Hi; [|apply edge_eq_refl].
  repeat split. rewrite Hk. simpl. intros z.
  destruct (decide (z = Z.of_nat i)) as [->|Hz].
  - rewrite ja_get_set_eq, ja_get_of_nat, Hi. done.
  - by rewrite ja_get_set_ne by done.
Qed.

Lemma pres_edge_mix_slot_buffer id i : preserves edge_rel (mix_slot_buffer id i).
Proof.
  unfold mix_slot_buffer. pres. apply pres_edge_upd_node. intros. apply edge_eq_set_slot_buffer.
Qed.

#[export] Hint Resolve pres_edge_mix_slot_buffer : vc.

Lemma pres_edge_slot_rect o : preserves edge_rel (slot_rect o).
Proof. unfold slot_rect. pres. Qed.

#[export] Hint Resolve pres_edge_slot_rect : vc.

Lemma pres_edge_resize fuel id a b : preserves edge_rel (resize fuel id a b).
Proof.
  revert id a b. induction fuel as [|f IH]; intros id a b; simpl; [pres|].
  unfold base_resize. pres.
Qed.

#[export] Hint Resolve pres_edge_resize : vc.

Lemma pres_edge_dest_start id : preserves edge_rel (dest_start id).
Proof. unfold dest_start. pres. Qed.

#[export] Hint Resolve pres_edge_dest_start : vc.

(** ** Running a method to its end *)

(** The store [connect] leaves, as far as the edges go, when [p] is
    connected to a target [t] that is not a mix. *)
Definition connected_world (p t : nat) (w : World) : World :=
  set_nodes (alter (set_state SConnected) p (alter (set_output (Some t)) p
              (alter (set_input (Some p)) t (w_nodes w)))) w.

Lemma edge_rel_alter w w' id f g n n' :
  edge_rel w w' -> w_nodes w !! id = Some n -> w_nodes w' !! id = Some n' ->
  edge_eq (f n) (g n') ->
  edge_rel (set_nodes (alter f id (w_nodes w)) w) (set_nodes (alter g id (w_nodes w')) w').
Proof.
  intros H Hn Hn' Hfg i. specialize (H i). simpl. rewrite !lookup_alter.
  case_decide; subst; [by rewrite Hn, Hn'|done].
Qed.

Lemma edge_rel_lookup w w' id n :
  edge_rel w w' -> w_nodes w !! id = Some n -> exists n', w_nodes w' !! id = Some n' /\ edge_eq n n'.
Proof. intros H Hn. specialize (H id). rewrite Hn in H. destruct (w_nodes w' !! id); [eauto|done]. Qed.

Lemma edge_eq_alter_state st n n' : edge_eq n n' -> edge_eq (set_state st n) (set_state st n').
Proof. intros (A & B & C & D). by repeat split. Qed.
Lemma edge_eq_alter_output o n n' : edge_eq n n' -> edge_eq (set_output o n) (set_output o n').
Proof. intros (A & B & C & D). by repeat split. Qed.
Lemma edge_eq_alter_input i n n' : edge_eq n n' -> edge_eq (set_input i n) (set_input i n').
Proof. intros (A & B & C & D). by repeat split. Qed.

#[export] Hint Resolve edge_eq_alter_state edge_eq_alter_output edge_eq_alter_input : vc.

Lemma base_addInput_edges fuel t p w w1 nt :
  w_nodes w !! t = Some nt ->
  base_addInput fuel t p w = Ok tt w1 ->
  edge_rel (set_nodes (alter (set_input (Some p)) t (w_nodes w)) w) w1.
Proof.
  intros Ht H. unfold base_addInput in H.
  rewrite (mbind_Ok _ _ w tt _ (upd_node_run _ _ _)) in H.
  eapply preserves_Ok; [|exact H]. pres.
Qed.

Lemma addInput_plain_edges fuel t p w w1 nt :
  w_nodes w !! t = Some nt -> (forall a, n_kind nt <> KMix a) ->
  addInput fuel t p None w = Ok tt w1 ->
  edge_rel (set_nodes (alter (set_input (Some p)) t (w_nodes w)) w) w1.
Proof.
  intros Ht Hk H. unfold addInput in H. rewrite (mbind_Ok _ _ w nt w) in H by (by apply get_node_Some).
  destruct (n_kind nt) eqn:Hkt; [eapply base_addInput_edges; eauto|eapply base_addInput_edges; eauto
                                 |by edestruct Hk|].
  unfold dest_addInput in H. apply mbind_Ok_inv in H as ([] & w2 & H1 & H2).
  etrans; [eapply base_addInput_edges; eauto|]. eapply preserves_Ok; [|exact H2]. pres.
Qed.

Lemma connect_plain_edges fuel p t w w1 np nt :
  p <> t -> w_nodes w !! p = Some np -> n_state np = SInit ->
  w_nodes w !! t = Some nt -> (forall a, n_kind nt <> KMix a) ->
  connect fuel p t None w = Ok tt w1 ->
  edge_rel (connected_world p t w) w1.
Proof.
  intros Hpt Hp Hst Ht Hk H. unfold connect, base_connect in H.
  apply mbind_Ok_inv in H as ([] & w2 & H1 & H2).
  apply mbind_Ok_inv in H1 as (r & w5 & H1 & [= <-]).
  rewrite (node_change_run _ _ _ _ _ np) in H1; [|done|by rewrite Hst|by rewrite Hst].
  destruct (mbind _ _ w) as [a w3|e w3] eqn:Hb; [|discriminate].
  simpl in H1. injection H1 as <- <-.
  apply mbind_Ok_inv in Hb as ([] & w4 & Hb1 & Hb2).
  rewrite upd_node_run in Hb2. injection Hb2 as <- <-.
  pose proof (addInput_plain_edges _ _ _ _ _ _ Ht Hk Hb1) as E.
  assert (Hp0 : w_nodes (set_nodes (alter (set_input (Some p)) t (w_nodes w)) w) !! p = Some np)
    by (simpl; by rewrite lookup_alter_ne).
  destruct (edge_rel_lookup _ _ _ _ E Hp0) as (n4 & Hp4 & Hn4).
  etrans; [|eapply preserves_Ok; [|exact H2]; pres].
  set (W0 := set_nodes (alter (set_input (Some p)) t (w_nodes w)) w).
  set (W1 := set_nodes (alter (set_output (Some t)) p (w_nodes W0)) W0).
  change (connected_world p t w) with (set_nodes (alter (set_state SConnected) p (w_nodes W1)) W1).
  eapply edge_rel_alter with (n := set_output (Some t) np) (n' := set_output (Some t) n4).
  - eapply edge_rel_alter; [exact E|exact Hp0|exact Hp4|auto with vc].
  - simpl. by rewrite lookup_alter_eq, lookup_alter_ne, Hp.
  - simpl. by rewrite lookup_alter_eq, Hp4.
  - auto with vc.
Qed.

Definition disconnected_world (p t : nat) (w : World) : World :=
  set_nodes (alter (set_state SInit) p (alter (set_output None) p
              (alter (set_input None) t (w_nodes w)))) w.

Lemma removeInput_plain_run t p w nt :
  w_nodes w !! t = Some nt -> (forall a, n_kind nt <> KMix a) ->
  exists w', removeInput t p w = Ok tt w' /\ w_nodes w' = alter (set_input None) t (w_nodes w).
Proof.
  intros Ht Hk. unfold removeInput. rewrite (mbind_Ok _ _ w nt w) by (by apply get_node_Some).
  destruct (n_kind nt); try (by edestruct Hk); eexists; split; reflexivity.
Qed.

Lemma disconnect_plain_run p t w1 n1 nt1 :
  p <> t -> w_nodes w1 !! p = Some n1 -> n_state n1 = SConnected -> n_output n1 = Some t ->
  w_nodes w1 !! t = Some nt1 -> (forall a, n_kind nt1 <> KMix a) ->
  exists w2, disconnect p w1 = Ok tt w2 /\ w_nodes w2 = w_nodes (disconnected_world p t w1).
Proof.
  intros Hpt Hp Hst Ho Ht Hk.
  destruct (removeInput_plain_run t p w1 nt1 Ht Hk) as (w' & Hr & Hw').
  unfold disconnect. unfold mbind at 1.
  rewrite (node_change_run _ _ _ _ _ n1); [|done|by rewrite Hst|by rewrite Hst].
  unfold disconnect_body. rewrite (mbind_Ok _ _ w1 n1 w1) by (by apply get_node_Some).
  rewrite Ho. rewrite (mbind_Ok _ _ _ _ _ Hr). rewrite upd_node_run. simpl.
  eexists; split; [reflexivity|]. simpl. by rewrite Hw'.
Qed.

(** C3: [connect] followed by [disconnect] restores the graph: when a
    node [p] in state [uninitialized] without output is connected to a
    node [t] that is not a mix and had no input, and then disconnected,
    every node has again the lifecycle state, input, output and mix slots
    it had at the start ([p] is [uninitialized] without output, [t] has
    no input). *)
Theorem connect_disconnect_roundtrip fuel p t w w1 np nt :
  p <> t -> w_nodes w !! p = Some np -> n_state np = SInit -> n_output np = None ->
  w_nodes w !! t = Some nt -> (forall a, n_kind nt <> KMix a) -> n_input nt = None ->
  connect fuel p t None w = Ok tt w1 ->
  exists w2, disconnect p w1 = Ok tt w2 /\ edge_rel w w2.
Proof.
  intros Hpt Hp Hst Ho Ht Hk Hi Hc.
  pose proof (connect_plain_edges _ _ _ _ _ _ _ Hpt Hp Hst Ht Hk Hc) as E.
  assert (Hpc : w_nodes (connected_world p t w) !! p =
                Some (set_state SConnected (set_output (Some t) np))).
  { unfold connected_world. simpl. by rewrite !lookup_alter_eq, lookup_alter_ne, Hp. }
  assert (Htc : w_nodes (connected_world p t w) !! t = Some (set_input (Some p) nt)).
  { unfold connected_world. simpl. rewrite !lookup_alter_ne by done. by rewrite lookup_alter_eq, Ht. }
  destruct (edge_rel_lookup _ _ _ _ E Hpc) as (n1 & Hp1 & (A1 & B1 & C1 & D1)).
  destruct (edge_rel_lookup _ _ _ _ E Htc) as (nt1 & Ht1 & (A2 & B2 & C2 & D2)).
  assert (Hs1 : n_state n1 = SConnected) by (simpl in A1; congruence).
  assert (Ho1 : n_output n1 = Some t) by (simpl in C1; congruence).
  assert (Hk1 : forall a, n_kind nt1 <> KMix a).
  { intros a Ha. simpl in D2. rewrite Ha in D2. destruct (n_kind nt) eqn:Ek; try done. by edestruct Hk. }
  destruct (disconnect_plain_run p t w1 n1 nt1 Hpt Hp1 Hs1 Ho1 Ht1 Hk1) as (w2 & Hd & Hw2).
  exists w2. split; [done|]. intros i. rewrite Hw2. specialize (E i). simpl.
  destruct (decide (p = i)) as [<-|Hpi]; [|destruct (decide (t = i)) as [<-|Hti]].
  - rewrite !lookup_alter_eq, lookup_alter_ne, Hp1, Hp by done. simpl in *.
    repeat split; simpl; congruence || done.
  - rewrite !lookup_alter_ne, lookup_alter_eq, Ht1, Ht by done. simpl in *.
    repeat split; simpl; congruence || done.
  - unfold connected_world in E. simpl in E. rewrite !lookup_alter_ne in E |- * by done. done.
Qed.

(** A still-image source [0] and a mirror [1], both unconnected. *)
Definition w_src_mirror : World :=
  run_ops 10 [OpCreate false false true true;
              OpNewImageSource (IStill 50 HTMLImageElement 320 240); OpNewMirror] (world0 30).

Lemma connect_disconnect_roundtrip_witness :
  exists w2, disconnect 0 (exec (connect 10 0 1 None) w_src_mirror) = Ok tt w2 /\ edge_rel w_src_mirror w2.
Proof.
  assert (H : exists np nt, w_nodes w_src_mirror !! 0%nat = Some np /\ n_state np = SInit /\
                n_output np = None /\ w_nodes w_src_mirror !! 1%nat = Some nt /\
                n_kind nt = KMirror /\ n_input nt = None) by (vm_compute; eauto 12).
  destruct H as (np & nt & H1 & H2 & H3 & H4 & H5 & H6).
  apply (connect_disconnect_roundtrip 10 0 1 w_src_mirror _ np nt); try assumption.
  - discriminate.
  - intros a. rewrite H5. discriminate.
  - vm_compute. reflexivity.
Defined.

(** ** Witnesses of the guard and sizing properties of [Graph] *)

Lemma connect_rejected_witness :
  connect 10 0 1 None demo_closed = Exn (EFsm SClosed SConnected) demo_closed.
Proof.
  assert (H : exists n, w_nodes demo_closed !! 0%nat = Some n /\ n_state n = SClosed)
    by (vm_compute; eauto).
  destruct H as (n & H1 & H2). rewrite <- H2.
  apply connect_rejected; [exact H1|rewrite H2; discriminate|rewrite H2; discriminate].
Defined.

Lemma disconnect_not_connected_witness : disconnect 0 w_src_mirror = Ok tt w_src_mirror.
Proof.
  assert (H : exists n, w_nodes w_src_mirror !! 0%nat = Some n /\ n_state n = SInit)
    by (vm_compute; eauto).
  destruct H as (n & H1 & H2).
  apply (disconnect_not_connected 0 w_src_mirror n H1). rewrite H2. discriminate.
Defined.

(** The destination [1] of [demo_world] (a [VideoTrackDestination]) closed. *)
Definition demo_dest_closed : World := run_ops 10 [OpClose 1] demo_world.

Lemma close_closed_witness :
  exists w', close 1 demo_dest_closed = Ok tt w' /\ w_gl w' = w_gl demo_dest_closed /\
    w_timers w' = w_timers demo_dest_closed /\ w_trace w' = w_trace demo_dest_closed ++ [EvTrackStop 1].
Proof.
  assert (H : exists n dd, w_nodes demo_dest_closed !! 1%nat = Some n /\ n_state n = SClosed /\
                n_kind n = KDest dd /\ dd_kind dd = DTrack) by (vm_compute; eauto 10).
  destruct H as (n & dd & H1 & H2 & H3 & H4).
  destruct (close_closed 1 demo_dest_closed n H1 H2) as (w' & A & B & C & D).
  { intros a. rewrite H3. discriminate. }
  exists w'. rewrite H3, H4 in D. auto.
Defined.

Lemma resize_same_size_witness : resize 11 1 300 150 w_src_mirror = Ok tt w_src_mirror.
Proof.
  assert (H : exists n, w_nodes w_src_mirror !! 1%nat = Some n /\ n_kind n = KMirror /\
                n_width n = 300 /\ n_height n = 150) by (vm_compute; eauto 10).
  destruct H as (n & H1 & H2 & H3 & H4). rewrite <- H3, <- H4.
  apply (resize_same_size 10 1 w_src_mirror n H1); rewrite H2; [intros a|intros dd]; discriminate.
Defined.

Lemma connect_connected_witness : connect 10 0 1 None demo_world = Ok tt demo_world.
Proof.
  assert (H : exists n sd, w_nodes demo_world !! 0%nat = Some n /\ n_state n = SConnected /\
                n_kind n = KSource sd) by (vm_compute; eauto 10).
  destruct H as (n & sd & H1 & H2 & H3).
  apply (connect_connected 10 0 1 None demo_world n H1 H2). intros a. rewrite H3. discriminate.
Defined.

(** ** Witnesses of the pull properties of [Render] *)

(** A video source that has already delivered frame 5 of its producer. *)
Definition w_video : World :=
  run_ops 10 [OpCreate false false true true; OpNewImageSource (IVideo 7 (Some 5) 640 480);
              OpRequestFrame 0 0] (world0 30).

Lemma requestFrame_video_unchanged_witness : requestFrame 11 0 1 w_video = Ok false w_video.
Proof.
  assert (H : exists n sd, w_nodes w_video !! 0%nat = Some n /\ n_kind n = KSource sd /\
                sd_image sd = IVideo 7 (Some 5) 640 480 /\ sd_totalFrames sd = 5)
    by (vm_compute; eauto 10).
  destruct H as (n & sd & H1 & H2 & H3 & H4).
  exact (requestFrame_video_unchanged 10 0 1 w_video n sd 7 5 640 480 H1 H2 H3 H4).
Defined.

Lemma requestFrame_no_input_witness : requestFrame 11 1 0 w_src_mirror = Ok false w_src_mirror.
Proof.
  assert (H : exists n, w_nodes w_src_mirror !! 1%nat = Some n /\ n_kind n = KMirror /\
                n_input n = None) by (vm_compute; eauto 10).
  destruct H as (n & H1 & H2 & H3).
  exact (requestFrame_no_input 10 1 0 w_src_mirror n H1 (or_introl H2) H3).
Defined.

(** ** Witnesses of the properties of [destroy] *)

Definition demo_destroyed : World := run_ops 10 [OpDestroy None] demo_world.

Lemma destroy_idempotent_witness :
  destroy (Some "again") demo_destroyed = Ok tt demo_destroyed.
Proof. apply destroy_idempotent. vm_compute. reflexivity. Defined.

Lemma destroy_reports_reason_witness :
  match destroy (Some "lost") demo_world with
  | Ok _ w' => c_state (w_ctx w') = SInit /\ c_gl (w_ctx w') = false /\
               c_ctx2d (w_ctx w') = false /\ c_canvas (w_ctx w') = None /\
               c_glFaild (w_ctx w') = true /\ c_listeners (w_ctx w') = [] /\
               last (w_trace w') = Some (EvUnavailable "lost")
  | Exn _ w' => c_state (w_ctx w') = SCreated
  end.
Proof. apply destroy_reports_reason; [vm_compute; reflexivity|discriminate]. Defined.

Lemma connect_mix_slot_witness :
  connect 10 1 2 (Some (mkLayout (Some 320) None None None 1)) w_mix_busy =
    Ok tt (set_nodes (alter (set_state SConnected) 1%nat (alter (set_output (Some 2%nat)) 1%nat
             (alter (upd_mix (fun a => ja_set a 1 (Some (mkInfo 1 (mkLayout (Some 320) None None None 1) None))))
                    2%nat (w_nodes w_mix_busy)))) w_mix_busy).
Proof.
  assert (H : exists np nm inputs sd, w_nodes w_mix_busy !! 1%nat = Some np /\ n_state np = SInit /\
                n_kind np = KSource sd /\ w_nodes w_mix_busy !! 2%nat = Some nm /\
                n_kind nm = KMix inputs /\ ja_get inputs 1 = None) by (vm_compute; eauto 12).
  destruct H as (np & nm & inputs & sd & H1 & H2 & H3 & H4 & H5 & H6).
  apply (connect_mix_slot 10 1 2 (mkLayout (Some 320) None None None 1) w_mix_busy np nm inputs);
    try assumption.
  intros a. rewrite H3. discriminate.
Defined.

(** A fresh context whose WebGL implementation fails to create objects. *)
Definition w_gl_broken : World := set_gl (mkGL ∅ 1 0 true) (world0 30).

Lemma create_shader_failure_witness :
  exists w', create false false true true w_gl_broken = Ok tt w' /\
    c_state (w_ctx w') = SCreated /\ c_gl (w_ctx w') = true /\
    c_ctx2d (w_ctx w') = c_ctx2d (w_ctx w_gl_broken) /\
    c_defaultProgram (w_ctx w') = c_defaultProgram (w_ctx w_gl_broken) /\
    available (w_ctx w') = true /\ w_gl w' = w_gl w_gl_broken.
Proof. apply create_shader_failure; reflexivity. Defined.

Lemma destroy_closes_nodes_witness : closed_in demo_destroyed 1.
Proof.
  apply (destroy_closes_nodes None demo_world).
  - vm_compute. reflexivity.
  - vm_compute. reflexivity.
  - vm_compute. set_solver.
Defined.

(** The video of [w_video] decoded four more frames (counter 9). *)
Definition w_video_next : World := run_ops 10 [OpSetImage 0 (IVideo 7 (Some 9) 640 480)] w_video.

Lemma requestFrame_video_new_frame_witness :
  exists w' n', requestFrame 11 0 2 w_video_next = Ok true w' /\ w_nodes w' !! 0%nat = Some n' /\
    n_totalFrames n' = 2 /\ n_dropFrames n' = 8.
Proof.
  assert (H : exists n sd t, w_nodes w_video_next !! 0%nat = Some n /\ n_kind n = KSource sd /\
                sd_image sd = IVideo 7 (Some 9) (n_width n) (n_height n) /\ sd_totalFrames sd = 5 /\
                n_totalFrames n = 1 /\ c_gl (w_ctx w_video_next) = true /\ r_texture (n_res n) = Some t)
    by (vm_compute; eauto 20).
  destruct H as (n & sd & t & H1 & H2 & H3 & H4 & H5 & H6 & H7).
  destruct (requestFrame_video_new_frame 10 0 2 w_video_next n sd 7 9 t H1 H2 H3)
    as (w' & n' & A & B & C & D & _); [by rewrite H4|by rewrite H5|done|done|].
  exists w', n'. rewrite C, D, H5. auto.
Defined.

(** The source [0] of [demo_world] has no input. *)
Lemma getInfo_leaf_witness :
  exists n, w_nodes demo_world !! 0%nat = Some n /\
    getInfo 1 60000 0 demo_world =
      Ok (IBase None (snapshot n 60000))
         (set_nodes (alter (set_lastInfo (snapshot n 60000)) 0%nat (w_nodes demo_world)) demo_world).
Proof.
  assert (H : exists n sd, w_nodes demo_world !! 0%nat = Some n /\ n_kind n = KSource sd /\
                n_input n = None) by (vm_compute; eauto).
  destruct H as (n & sd & H0 & K0 & I0). exists n. split; [exact H0|].
  refine (getInfo_leaf 0 60000 0 demo_world n H0 _ I0).
  intros a Ha. rewrite K0 in Ha. discriminate Ha.
Defined.

(** The interval [1] of [demo_world] is armed for the track destination
    [1], whose sequence number is still [0]. *)
Lemma tick_sequence_increases_witness :
  exists n' s', w_nodes (exec (run_op 10 (OpTick 1)) demo_world) !! 1%nat = Some n' /\
                dest_seq n' = Some s' /\ 0 < s'.
Proof.
  assert (H : exists r n, w_timers demo_world !! 1%nat = Some (mkInterval 1 r) /\
                w_nodes demo_world !! 1%nat = Some n /\ dest_seq n = Some 0) by (vm_compute; eauto).
  destruct H as (r & n & Hi & Hn & Hs).
  exact (tick_sequence_increases 10 1 demo_world (mkInterval 1 r) n 0 Hi Hn Hs).
Defined.


(** A track source [0] playing the track [70]. *)
Definition w_track : World :=
  run_ops 10 [OpCreate false false true true; OpNewTrackSource (IVideo 7 (Some 0) 640 480) 70] (world0 30).

Lemma replaceTrack_swaps_witness :
  exists w' n', replaceTrack 0 71 w_track = Ok tt w' /\ w_nodes w' !! 0%nat = Some n' /\
    exists sd', n_kind n' = KSource sd' /\ sd_track sd' = Some 71%nat /\ sd_stream sd' = Some [71%nat].
Proof.
  assert (H : exists n sd, w_nodes w_track !! 0%nat = Some n /\ n_kind n = KSource sd /\
                sd_track sd = Some 70%nat /\ sd_stream sd = Some [70%nat]) by (vm_compute; eauto 10).
  destruct H as (n & sd & Hn & Hk & Ht & Hs).
  destruct (replaceTrack_swaps 0 71 w_track n sd 70 Hn Hk Ht (or_introl Hs) ltac:(discriminate))
    as (w' & n' & A & B & C & _).
  exists w', n'. split; [exact A|split; [exact B|]]. eexists. split; [exact C|]. rewrite Hs. auto.
Defined.

(** ** Witnesses of the frame clock, [removeInput] and the constructors *)

(** [demo_world] after a draw call recorded [INVALID_OPERATION]. *)
Definition w_gl_error : World := run_ops 10 [OpGLError 1282] demo_world.

Lemma tick_glcheck_error_witness :
  exists n, w_nodes w_gl_error !! 1%nat = Some n /\
    tick_glcheck 1 w_gl_error =
      destroy (Some (render_failed_reason n 0))
        (set_gl (mkGL (gl_live (w_gl w_gl_error)) (gl_next (w_gl w_gl_error)) 0 (gl_fail (w_gl w_gl_error)))
           w_gl_error).
Proof.
  assert (H : exists n, w_nodes w_gl_error !! 1%nat = Some n) by (vm_compute; eauto).
  destruct H as (n & Hn). exists n. split; [exact Hn|].
  apply (tick_glcheck_error 1 w_gl_error n); [vm_compute; reflexivity|vm_compute; discriminate|exact Hn].
Defined.

(** Source [0] of [demo_world] feeds the track destination [1]. *)
Lemma disconnect_dest_drops_input_witness :
  exists dd, disconnect 0 demo_world =
    Ok tt (set_timers (delete (dd_intervalId dd) (w_timers demo_world)) (w_next_timer demo_world)
             (set_nodes (alter (set_state SInit) 0%nat (alter (set_output None) 0%nat
                           (alter (set_input None) 1%nat (w_nodes demo_world)))) demo_world)).
Proof.
  assert (H : exists np nt dd, w_nodes demo_world !! 0%nat = Some np /\ n_state np = SConnected /\
                n_output np = Some 1%nat /\ w_nodes demo_world !! 1%nat = Some nt /\ n_kind nt = KDest dd)
    by (vm_compute; eauto 10).
  destruct H as (np & nt & dd & H1 & H2 & H3 & H4 & H5). exists dd.
  exact (disconnect_dest_drops_input 0 1 demo_world np nt dd H1 H2 H3 H4 H5).
Defined.

(** Connecting the source of [demo_world] to its destination a second
    time, through [addInput]. *)
Lemma dest_addInput_keeps_interval_witness :
  exists dd iv, w_timers demo_world !! dd_intervalId dd = Some iv /\
    match dest_addInput 10 1 0 demo_world with
    | Ok _ w' => w_timers w' !! dd_intervalId dd = Some iv /\
                 w_timers w' = <[w_next_timer demo_world := mkInterval 1 (c_frameRate (w_ctx w'))]> (w_timers demo_world)
    | Exn _ w' => w_timers w' !! dd_intervalId dd = Some iv
    end.
Proof.
  assert (H : exists nt dd iv, w_nodes demo_world !! 1%nat = Some nt /\ n_kind nt = KDest dd /\
                w_timers demo_world !! dd_intervalId dd = Some iv) by (vm_compute; eauto 10).
  destruct H as (nt & dd & iv & H1 & H2 & H3). exists dd, iv. split; [exact H3|].
  apply (dest_addInput_keeps_interval 10 1 0 demo_world nt dd iv H1 H2 H3). vm_compute. reflexivity.
Defined.



