(* ===== verification/Termination.v ===== *)
(** * Enough fuel: [resize] ends on a graph without output cycle

    [VideoNode.resize] calls [resize] on its output when the output
    matches its input's size, so on a cycle of [output] edges JS recurses
    until the stack overflows.  The model's [resize] takes a [fuel] bound
    and throws [EStack] when it runs out.  This file shows that the bound
    is never reached when the chain of outputs from the resized node has
    fewer than [fuel] edges: [resize] then returns or throws one of the
    program's own exceptions.  The proof rests on two facts: the steps
    that do not recurse never throw [EStack] ([no_stack]), and [resize]
    leaves every edge of the graph as it was ([GraphProps.edge_rel]). *)

From stdpp Require Import base list gmap relations strings.
From Stdlib Require Import ZArith Lia.
From S2P Require Import Prelude Fsm Model Webgl Layout Graph Frame Lifecycle Render Context Destination System GraphProps.

Local Open Scope Z_scope.

(** ** Output chains *)

(** [out_bounded w id k]: following [output] from [id] in [w] ends after
    at most [k] edges (at a node without output, or at a reference that
    is not a node). *)
Inductive out_bounded (w : World) : nat -> nat -> Prop :=
| ob_absent id k : w_nodes w !! id = None -> out_bounded w id k
| ob_last id n k : w_nodes w !! id = Some n -> n_output n = None -> out_bounded w id k
| ob_next id n o k : w_nodes w !! id = Some n -> n_output n = Some o ->
    out_bounded w o k -> out_bounded w id (S k).

(** ** Computations that never overflow the stack *)

Definition no_stack {A} (m : VC A) : Prop := forall w w', m w <> Exn EStack w'.

(** Whether a run ended in the stack overflow. *)
Definition overflowed {A} (r : res Err World A) : bool :=
  match r with Exn EStack _ => true | _ => false end.

Create HintDb ns discriminated.

Lemma ns_ret {A} (a : A) : no_stack (mret a).
Proof. intros w w'. discriminate. Qed.

Lemma ns_throw {A} e : e <> EStack -> no_stack (A:=A) (throw e).
Proof. intros He w w' [= ->]. done. Qed.

Lemma ns_modify f : no_stack (modify f).
Proof. intros w w'. discriminate. Qed.

Lemma ns_get_node id : no_stack (get_node id).
Proof. intros w w'. unfold get_node. by destruct (w_nodes w !! id). Qed.

Lemma ns_get_ctx : no_stack get_ctx.
Proof. intros w w'. discriminate. Qed.

Lemma ns_get_bind : no_stack get_bind.
Proof. intros w w'. discriminate. Qed.

Lemma ns_gl_create : no_stack gl_create.
Proof. intros w w'. unfold gl_create. by destruct (gl_fail (w_gl w)). Qed.

Lemma ns_bind {A B} (m : VC A) (k : A -> VC B) :
  no_stack m -> (forall a, no_stack (k a)) -> no_stack (mbind m k).
Proof.
  intros Hm Hk w w' H. apply mbind_Exn_inv in H as [H|(a & w1 & _ & H)]; [by eapply Hm|by eapply Hk].
Qed.

Lemma ns_mfor {A} (l : list A) body : (forall x, no_stack (body x)) -> no_stack (mfor l body).
Proof. intros H. induction l; simpl; [apply ns_ret|by apply ns_bind]. Qed.

#[export] Hint Resolve ns_ret ns_modify ns_get_node ns_get_ctx ns_get_bind ns_gl_create : ns.
#[export] Hint Extern 1 (no_stack (throw _)) => apply ns_throw; discriminate : ns.

(** Split a computation into its steps, as [pres] does. *)
Ltac nostack :=
  repeat match goal with
  | |- no_stack (mbind _ _) => apply ns_bind; [|intros ?]
  | |- no_stack (mfor _ _) => apply ns_mfor; intros ?
  | |- no_stack (match ?x with _ => _ end) => destruct x
  | |- no_stack (if ?b then _ else _) => destruct b
  | |- no_stack ?m => progress unfold upd_node, upd_ctx, emit, gl_delete, ctx_useTexture, node_useTexture,
                        useInputTexture, useBufferFrame, need_gl, upd_bind, gl_raise in *
  | |- no_stack _ => progress unfold_gl
  | |- _ => solve [eauto with ns]
  end.

Lemma ns_mix_slot_buffer id i : no_stack (mix_slot_buffer id i).
Proof. unfold mix_slot_buffer. nostack. Qed.

Lemma ns_slot_rect o : no_stack (slot_rect o).
Proof. unfold slot_rect. nostack. Qed.

Lemma ns_mmap {A B} (f : A -> VC B) l : (forall x, no_stack (f x)) -> no_stack (mmap f l).
Proof. intros H. induction l; simpl; nostack. Qed.

Lemma ns_ctx_setSize a b : no_stack (ctx_setSize a b).
Proof. unfold ctx_setSize. nostack. Qed.

#[export] Hint Resolve ns_mix_slot_buffer ns_slot_rect ns_ctx_setSize ns_mmap : ns.

(** A step that cannot overflow did not. *)
Ltac stack_absurd H :=
  match type of H with
  | ?m ?w = Exn EStack ?w' => exfalso; assert (Hns : no_stack m) by nostack; exact (Hns _ _ H)
  end.

(** ** [base_resize] overflows only in its recursive call *)

Lemma base_resize_stack rec id a b w w' :
  base_resize rec id a b w = Exn EStack w' ->
  exists w2 n2 o, edge_rel w w2 /\ w_nodes w2 !! id = Some n2 /\ n_output n2 = Some o /\
                  rec o a b w2 = Exn EStack w'.
Proof.
  unfold base_resize. intros H.
  apply mbind_Exn_inv in H as [H|(n & w1 & Hn & H)]; [stack_absurd H|].
  unfold get_node in Hn. destruct (w_nodes w !! id) eqn:E; [injection Hn as -> <-|discriminate].
  destruct (_ && _); [discriminate|].
  (** the local updates: size, canvas, texture storage *)
  apply mbind_Exn_inv in H as [H|([] & w2 & H2 & H)]; [discriminate|].
  apply mbind_Exn_inv in H as [H|([] & w3 & H3 & H)]; [stack_absurd H|].
  apply mbind_Exn_inv in H as [H|([] & w4 & H4 & H)]; [stack_absurd H|].
  assert (Hr : edge_rel w w4).
  { etrans; [eapply preserves_Ok; [|exact H2]; pres|].
    etrans; [eapply preserves_Ok; [|exact H3]; pres|].
    eapply preserves_Ok; [|exact H4]; pres. }
  apply mbind_Exn_inv in H as [H|(n2 & w5 & Hn2 & H)]; [stack_absurd H|].
  unfold get_node in Hn2. destruct (w_nodes w4 !! id) eqn:E2; [injection Hn2 as -> <-|discriminate].
  destruct (n_output n2) as [o|] eqn:Ho; [|discriminate].
  apply mbind_Exn_inv in H as [H|(on & w6 & Hon & H)]; [stack_absurd H|].
  unfold get_node in Hon. destruct (w_nodes w4 !! o); [injection Hon as -> <-|discriminate].
  destruct (n_matchInputSize on); [|discriminate].
  exists w4, n2, o. auto.
Qed.

(** ** The bound *)

Lemma edge_rel_lookup_output w w' id n :
  edge_rel w w' -> w_nodes w !! id = Some n ->
  exists n', w_nodes w' !! id = Some n' /\ n_output n' = n_output n.
Proof.
  intros H Hn. specialize (H id). rewrite Hn in H.
  destruct (w_nodes w' !! id) as [n'|]; [|done]. destruct H as (_ & _ & Ho & _). eauto.
Qed.

Lemma out_bounded_edge w w' id k : edge_rel w w' -> out_bounded w id k -> out_bounded w' id k.
Proof.
  intros Hr. induction 1 as [id k Hn|id n k Hn Ho|id n o k Hn Ho _ IH].
  - apply ob_absent. specialize (Hr id). rewrite Hn in Hr. by destruct (w_nodes w' !! id).
  - destruct (edge_rel_lookup_output _ _ _ _ Hr Hn) as (n' & Hn' & Ho'). eapply ob_last; [exact Hn'|congruence].
  - destruct (edge_rel_lookup_output _ _ _ _ Hr Hn) as (n' & Hn' & Ho'). eapply ob_next; [exact Hn'|rewrite Ho'; exact Ho|exact IH].
Qed.

Lemma out_bounded_next w id k n o :
  out_bounded w id k -> w_nodes w !! id = Some n -> n_output n = Some o ->
  exists k', k = S k' /\ out_bounded w o k'.
Proof. inversion 1; intros Hn Ho; simplify_eq; eauto. Qed.

(** The recursive call of [base_resize] is on a shorter chain. *)
Lemma base_resize_bounded f id a b w k :
  out_bounded w id k ->
  (forall w2 o k', k = S k' -> out_bounded w2 o k' -> forall w', resize f o a b w2 <> Exn EStack w') ->
  forall w', base_resize (resize f) id a b w <> Exn EStack w'.
Proof.
  intros Hb IH w' H. apply base_resize_stack in H as (w2 & n2 & o & Hr & Hn2 & Ho & H).
  destruct (out_bounded_next _ _ _ _ _ (out_bounded_edge _ _ _ _ Hr Hb) Hn2 Ho) as (k' & -> & Hk).
  by eapply IH.
Qed.

(** [base_resize] followed by steps that cannot overflow. *)
Lemma base_resize_then_bounded {A} f id a b w k (rest : VC A) :
  out_bounded w id k -> no_stack rest ->
  (forall w2 o k', k = S k' -> out_bounded w2 o k' -> forall w', resize f o a b w2 <> Exn EStack w') ->
  forall w', (base_resize (resize f) id a b ;;; rest) w <> Exn EStack w'.
Proof.
  intros Hb Hr IH w' H. apply mbind_Exn_inv in H as [H|(u & w1 & _ & H)]; [|by eapply Hr].
  by eapply base_resize_bounded.
Qed.

Lemma resize_no_stack fuel id a b w k :
  out_bounded w id k -> (k < fuel)%nat -> forall w', resize fuel id a b w <> Exn EStack w'.
Proof.
  revert id a b w k. induction fuel as [|f IH]; intros id a b w k Hb Hk w' H; [lia|].
  assert (IH' : forall a b w2 o k', k = S k' -> out_bounded w2 o k' ->
                  forall w', resize f o a b w2 <> Exn EStack w')
    by (intros a' b' w2 o k' -> Hk'; eapply IH; [exact Hk'|lia]).
  simpl in H. apply mbind_Exn_inv in H as [H|(n & w1 & Hn & H)]; [stack_absurd H|].
  unfold get_node in Hn. destruct (w_nodes w !! id) eqn:E; [injection Hn as -> <-|discriminate].
  destruct (n_kind n) as [| |inputs|dd].
  - exact (base_resize_bounded f id a b w k Hb (IH' a b) w' H).
  - exact (base_resize_bounded f id a b w k Hb (IH' a b) w' H).
  - apply mbind_Exn_inv in H as [H|(rs & w2 & H2 & H)]; [stack_absurd H|].
    assert (Hr : edge_rel w w2) by (eapply preserves_Ok; [|exact H2]; pres).
    refine (base_resize_then_bounded f id _ _ w2 k _ (out_bounded_edge _ _ _ _ Hr Hb) _ (IH' _ _) w' H).
    nostack.
  - destruct (dd_kind dd).
    + exact (base_resize_bounded f id a b w k Hb (IH' a b) w' H).
    + refine (base_resize_then_bounded f id a b w k _ Hb _ (IH' a b) w' H). auto with ns.
    + exact (base_resize_bounded f id a b w k Hb (IH' a b) w' H).
Qed.

(** C5: [resize] ends without exhausting its fuel when the chain of
    outputs from the resized node has fewer edges than the fuel: whatever
    the store, it returns or throws an exception of the program, never
    the stack overflow. *)
Theorem resize_terminates fuel id a b w k :
  out_bounded w id k -> (k < fuel)%nat -> overflowed (resize fuel id a b w) = false.
Proof.
  intros Hb Hk. pose proof (resize_no_stack fuel id a b w k Hb Hk) as H.
  destruct (resize fuel id a b w) as [|[] w']; try done. by destruct (H w').
Qed.

(** The source [0] of [demo_world] feeds the track destination [1], which
    has no output: one edge. *)
Lemma resize_terminates_witness : overflowed (resize 2 0 640 480 demo_world) = false.
Proof.
  assert (H : exists n0 n1, w_nodes demo_world !! 0%nat = Some n0 /\ n_output n0 = Some 1%nat /\
                w_nodes demo_world !! 1%nat = Some n1 /\ n_output n1 = None)
    by (vm_compute; eauto 10).
  destruct H as (n0 & n1 & H0 & O0 & H1 & O1).
  apply (resize_terminates 2 0 640 480 demo_world 1); [|lia].
  eapply ob_next; [exact H0|exact O0|]. eapply ob_last; [exact H1|exact O1].
Defined.

(** ** [requestFrame] keeps the edges of the graph *)

Section EdgeRender.
Variable rf : nat -> Z -> VC bool.
Hypothesis Hrf : forall i sq, preserves edge_rel (rf i sq).
Variable fuel : nat.

#[local] Hint Resolve Hrf : vc.

Lemma pres_edge_draw2d id img a b c d : preserves edge_rel (draw2d id img a b c d).
Proof. unfold draw2d. pres. Qed.

#[local] Hint Resolve pres_edge_draw2d : vc.

Lemma pres_edge_pull_input id sq : preserves edge_rel (pull_input rf id sq).
Proof. unfold pull_input. pres. Qed.

Lemma pres_edge_source_render id gl : preserves edge_rel (source_render fuel id gl).
Proof. unfold source_render, source_upload. pres. Qed.

Lemma pres_edge_mix_pull id sq idx nf : preserves edge_rel (mix_pull rf id sq idx nf).
Proof. revert nf. induction idx; intros nf; simpl; pres. Qed.

#[local] Hint Resolve pres_edge_source_render pres_edge_mix_pull : vc.

Lemma pres_edge_render id sq : preserves edge_rel (render rf fuel id sq).
Proof. unfold render, mix_render, mirror_render, dest_render, draw_quad, pull_input, mix_slots_len, mix_draw_slot.
  pres.
Qed.

Lemma pres_edge_render2d id sq : preserves edge_rel (render2d rf fuel id sq).
Proof. unfold render2d, mix_render2d, base_render2d, pull_input, mix_slots_len, mix_draw2d_slot. pres. Qed.
End EdgeRender.

#[export] Hint Resolve pres_edge_draw2d pres_edge_pull_input pres_edge_source_render
  pres_edge_mix_pull pres_edge_render pres_edge_render2d : vc.

Lemma pres_edge_requestFrame fuel id sq : preserves edge_rel (requestFrame fuel id sq).
Proof. revert id sq. induction fuel; intros id sq; simpl; pres. Qed.

#[export] Hint Resolve pres_edge_requestFrame : vc.

(** ** No overflow under an invariant of the edges *)

(** [ns_at P m]: from a store satisfying [P], [m] does not overflow. *)
Definition ns_at (P : World -> Prop) {A} (m : VC A) : Prop :=
  forall w w', P w -> m w <> Exn EStack w'.

(** [P] depends on the edges of the graph only. *)
Definition edge_stable (P : World -> Prop) : Prop := forall w w', edge_rel w w' -> P w -> P w'.

Lemma ns_at_of P {A} (m : VC A) : no_stack m -> ns_at P m.
Proof. intros H w w' _. apply H. Qed.

Lemma ns_at_bind P {A B} (m : VC A) (k : A -> VC B) :
  edge_stable P -> preserves edge_rel m -> ns_at P m -> (forall a, ns_at P (k a)) ->
  ns_at P (mbind m k).
Proof.
  intros Hs Hp Hm Hk w w' HP H. apply mbind_Exn_inv in H as [H|(a & w1 & H1 & H)]; [by eapply Hm|].
  eapply Hk; [|exact H]. eapply Hs; [|exact HP]. by eapply preserves_Ok.
Qed.

Ltac nsat :=
  repeat match goal with
  | |- ns_at _ (mbind _ _) => apply ns_at_bind; [assumption|solve [pres]| |intros ?]
  | |- ns_at _ (match ?x with _ => _ end) => destruct x
  | |- ns_at _ (if ?b then _ else _) => destruct b
  | |- ns_at _ _ => solve [eauto with ns]
  | |- ns_at _ _ => apply ns_at_of; solve [nostack]
  end.

(** ** The pulls a node can make *)

(** [pull_ok w fuel id]: [requestFrame] on [id] with [fuel] cannot run
    out of it: the node's own output chain (which a source's [resize]
    follows) is shorter than the fuel left after its call, and its input
    and the children of its mix slots can be pulled with one unit less. *)
Fixpoint pull_ok (w : World) (fuel : nat) (id : nat) : Prop :=
  match fuel with
  | O => False
  | S f =>
      match w_nodes w !! id with
      | None => True
      | Some n =>
          (exists k, out_bounded w id k /\ (k < f)%nat) /\
          (forall i, n_input n = Some i -> pull_ok w f i) /\
          (forall a j mi, n_kind n = KMix a -> mjoin (ja_elems a !! j) = Some mi -> pull_ok w f (mi_node mi))
      end
  end.

Lemma edge_rel_lookup_edges w w' id n :
  edge_rel w w' -> w_nodes w' !! id = Some n ->
  exists n0, w_nodes w !! id = Some n0 /\ edge_eq n0 n.
Proof.
  intros H Hn. specialize (H id). rewrite Hn in H.
  destruct (w_nodes w !! id) as [n0|]; [eauto|done].
Qed.

Lemma kind_edges_slot k a j mi :
  kind_edges k (KMix a) -> mjoin (ja_elems a !! j) = Some mi ->
  exists a0 mi0, k = KMix a0 /\ mjoin (ja_elems a0 !! j) = Some mi0 /\ mi_node mi0 = mi_node mi.
Proof.
  intros Hk Hj. destruct k as [| |a0|]; simpl in Hk; try done.
  specialize (Hk (Z.of_nat j)). rewrite !ja_get_of_nat, Hj in Hk.
  destruct (mjoin (ja_elems a0 !! j)) as [mi0|] eqn:E0; [|done]. injection Hk as Hk _.
  exists a0, mi0. auto.
Qed.

Lemma pull_ok_edge fuel : forall id, edge_stable (fun w => pull_ok w fuel id).
Proof.
  induction fuel as [|f IH]; intros id w w' Hr H; [done|]. simpl in *.
  destruct (w_nodes w' !! id) as [n'|] eqn:E'; [|done].
  destruct (edge_rel_lookup_edges _ _ _ _ Hr E') as (n & E & (_ & Hi & _ & Hk)).
  rewrite E in H. destruct H as ((k & Hb & Hk') & Hin & Hmix). split; [|split].
  - exists k. split; [by eapply out_bounded_edge|done].
  - intros i Hi'. eapply IH; [exact Hr|]. apply Hin. congruence.
  - intros a j mi Ha Hj. rewrite Ha in Hk.
    destruct (kind_edges_slot _ _ _ _ Hk Hj) as (a0 & mi0 & Ha0 & Hj0 & <-).
    eapply IH; [exact Hr|]. by eapply Hmix.
Qed.

(** ** The pulls do not overflow *)

Lemma ns_draw2d id img a b c d : no_stack (draw2d id img a b c d).
Proof. unfold draw2d. nostack. Qed.

#[export] Hint Resolve ns_draw2d : ns.

Lemma ns_mix_draw_slot id i : no_stack (mix_draw_slot id i).
Proof. unfold mix_draw_slot. nostack. Qed.

Lemma ns_mix_draw2d_slot id i : no_stack (mix_draw2d_slot id i).
Proof. unfold mix_draw2d_slot. nostack. Qed.

#[export] Hint Resolve ns_mix_draw_slot ns_mix_draw2d_slot : ns.

Lemma out_bounded_lt_edge id f : edge_stable (fun w => exists k, out_bounded w id k /\ (k < f)%nat).
Proof. intros w w' Hr (k & Hb & Hk). exists k. split; [by eapply out_bounded_edge|done]. Qed.

Lemma ns_at_resize f id a b : ns_at (fun w => exists k, out_bounded w id k /\ (k < f)%nat) (resize f id a b).
Proof. intros w w' (k & Hb & Hk). by eapply resize_no_stack. Qed.

#[export] Hint Resolve ns_at_resize : ns.

Lemma ns_source_render f id gl :
  ns_at (fun w => exists k, out_bounded w id k /\ (k < f)%nat) (source_render f id gl).
Proof.
  pose proof (out_bounded_lt_edge id f).
  unfold source_render, source_upload. nsat.
Qed.

Section Pull.
Variable f : nat.
Hypothesis IH : forall i sq, ns_at (fun w => pull_ok w f i) (requestFrame f i sq).

Lemma pull_ok_node w id n :
  pull_ok w (S f) id -> w_nodes w !! id = Some n ->
  (exists k, out_bounded w id k /\ (k < f)%nat) /\
  (forall i, n_input n = Some i -> pull_ok w f i) /\
  (forall a j mi, n_kind n = KMix a -> mjoin (ja_elems a !! j) = Some mi -> pull_ok w f (mi_node mi)).
Proof. simpl. intros H E. by rewrite E in H. Qed.

(** The node read first is the node the invariant speaks of. *)
Lemma ns_at_get_node id {A} (k : Node -> VC A) :
  (forall n w w', pull_ok w (S f) id -> w_nodes w !! id = Some n -> k n w <> Exn EStack w') ->
  ns_at (fun w => pull_ok w (S f) id) (n <- get_node id ;; k n).
Proof.
  intros Hk w w' HP H. apply mbind_Exn_inv in H as [H|(n & w1 & Hn & H)]; [stack_absurd H|].
  unfold get_node in Hn. destruct (w_nodes w !! id) eqn:E; [injection Hn as -> <-|discriminate].
  by eapply Hk.
Qed.

Lemma ns_pull_input id sq : ns_at (fun w => pull_ok w (S f) id) (pull_input (requestFrame f) id sq).
Proof.
  apply ns_at_get_node. intros n w w' HP E H.
  destruct (pull_ok_node _ _ _ HP E) as (_ & Hin & _).
  destruct (n_input n) as [i|] eqn:Ei; [|discriminate]. eapply IH; [|exact H]. by apply Hin.
Qed.

Lemma ns_mix_pull id sq idx nf :
  ns_at (fun w => pull_ok w (S f) id) (mix_pull (requestFrame f) id sq idx nf).
Proof.
  revert nf. induction idx as [|j idx IHi]; intros nf; [apply ns_at_of; nostack|]. simpl.
  apply ns_at_get_node. intros n w w' HP E H.
  destruct (pull_ok_node _ _ _ HP E) as (_ & _ & Hmix).
  destruct (n_kind n) as [| |a|] eqn:Ek; try discriminate.
  destruct (mjoin (ja_elems a !! j)) as [mi|] eqn:Ej; [|by eapply IHi].
  apply mbind_Exn_inv in H as [H|(r & w1 & H1 & H)]; [eapply IH; [|exact H]; by eapply Hmix|].
  eapply IHi; [|exact H]. eapply pull_ok_edge; [|exact HP]. by eapply preserves_Ok; [apply pres_edge_requestFrame|].
Qed.

#[local] Hint Resolve ns_pull_input ns_mix_pull : ns.

Lemma ns_mirror_render id sq : ns_at (fun w => pull_ok w (S f) id) (mirror_render (requestFrame f) id sq).
Proof. pose proof (pull_ok_edge (S f) id). unfold mirror_render, draw_quad. nsat. Qed.

Lemma ns_dest_render id sq : ns_at (fun w => pull_ok w (S f) id) (dest_render (requestFrame f) id sq).
Proof. pose proof (pull_ok_edge (S f) id). unfold dest_render, draw_quad. nsat. Qed.

Lemma ns_base_render2d id sq : ns_at (fun w => pull_ok w (S f) id) (base_render2d (requestFrame f) id sq).
Proof. pose proof (pull_ok_edge (S f) id). unfold base_render2d. nsat. Qed.

Lemma ns_mix_render id sq : ns_at (fun w => pull_ok w (S f) id) (mix_render (requestFrame f) id sq).
Proof. pose proof (pull_ok_edge (S f) id). unfold mix_render, mix_slots_len. nsat. Qed.

Lemma ns_mix_render2d id sq : ns_at (fun w => pull_ok w (S f) id) (mix_render2d (requestFrame f) id sq).
Proof. pose proof (pull_ok_edge (S f) id). unfold mix_render2d, mix_slots_len. nsat. Qed.

Lemma ns_render id sq : ns_at (fun w => pull_ok w (S f) id) (render (requestFrame f) f id sq).
Proof.
  apply ns_at_get_node. intros n w w' HP E.
  destruct (pull_ok_node _ _ _ HP E) as (Hb & _ & _).
  destruct (n_kind n).
  - exact (ns_source_render f id true w w' Hb).
  - exact (ns_mirror_render id sq w w' HP).
  - exact (ns_mix_render id sq w w' HP).
  - exact (ns_dest_render id sq w w' HP).
Qed.

Lemma ns_render2d id sq : ns_at (fun w => pull_ok w (S f) id) (render2d (requestFrame f) f id sq).
Proof.
  apply ns_at_get_node. intros n w w' HP E.
  destruct (pull_ok_node _ _ _ HP E) as (Hb & _ & _).
  destruct (n_kind n).
  - exact (ns_source_render f id false w w' Hb).
  - exact (ns_base_render2d id sq w w' HP).
  - exact (ns_mix_render2d id sq w w' HP).
  - exact (ns_base_render2d id sq w w' HP).
Qed.
End Pull.

Lemma ns_requestFrame fuel : forall id sq, ns_at (fun w => pull_ok w fuel id) (requestFrame fuel id sq).
Proof.
  induction fuel as [|f IH]; intros id sq; [by intros w w' []|].
  pose proof (pull_ok_edge (S f) id). pose proof (ns_render f IH id sq). pose proof (ns_render2d f IH id sq).
  simpl. nsat.
Qed.

(** C6: [requestFrame] never exhausts its fuel when the node can be
    pulled within it ([pull_ok]): every pull through inputs and mix slots
    goes one level deeper, and the [resize] a source starts follows an
    output chain shorter than the fuel left. *)
Theorem requestFrame_terminates fuel id sq w :
  pull_ok w fuel id -> overflowed (requestFrame fuel id sq w) = false.
Proof.
  intros H. pose proof (ns_requestFrame fuel id sq w) as Hn.
  destruct (requestFrame fuel id sq w) as [|[] w']; try done. by destruct (Hn w').
Qed.

Lemma pull_ok_intro w f id n :
  w_nodes w !! id = Some n -> (exists k, out_bounded w id k /\ (k < f)%nat) ->
  (forall i, n_input n = Some i -> pull_ok w f i) ->
  (forall a j mi, n_kind n = KMix a -> mjoin (ja_elems a !! j) = Some mi -> pull_ok w f (mi_node mi)) ->
  pull_ok w (S f) id.
Proof. intros E A B C. cbn [pull_ok]. rewrite E. auto. Qed.

(** The track destination [1] of [demo_world] pulls the source [0], whose
    output chain has one edge: fuel 4 suffices. *)
Lemma requestFrame_terminates_witness : overflowed (requestFrame 4 1 7 demo_world) = false.
Proof.
  assert (H : exists n0 n1 sd dd, w_nodes demo_world !! 0%nat = Some n0 /\ n_output n0 = Some 1%nat /\
                n_input n0 = None /\ n_kind n0 = KSource sd /\
                w_nodes demo_world !! 1%nat = Some n1 /\ n_output n1 = None /\
                n_input n1 = Some 0%nat /\ n_kind n1 = KDest dd) by (vm_compute; eauto 20).
  destruct H as (n0 & n1 & sd & dd & H0 & O0 & I0 & K0 & H1 & O1 & I1 & K1).
  apply (requestFrame_terminates 4 1 7 demo_world).
  refine (pull_ok_intro demo_world 3 1 n1 H1 _ _ _).
  - exists 0%nat. split; [exact (ob_last demo_world 1 n1 0 H1 O1)|clear; lia].
  - intros i Hi. rewrite I1 in Hi. injection Hi as Hi. subst i.
    refine (pull_ok_intro demo_world 2 0 n0 H0 _ _ _).
    + exists 1%nat. split; [|clear; lia].
      exact (ob_next demo_world 0 n0 1 0 H0 O0 (ob_last demo_world 1 n1 0 H1 O1)).
    + intros i Hi. rewrite I0 in Hi. discriminate Hi.
    + intros a j mi Ha. rewrite K0 in Ha. discriminate Ha.
  - intros a j mi Ha. rewrite K1 in Ha. discriminate Ha.
Defined.
