(* ===== verification/GlState.v ===== *)
(** * The WebGL bindings a frame pull leaves behind

    The render methods bind a framebuffer ([useBufferFrame]) or a texture
    ([VideoContext.useTexture]) around the operation they draw with, and
    unbind it afterwards.  [VideoDestinationNode.render] binds no
    framebuffer: it draws on the canvas only because every bracket opened
    before it was closed.  This file shows that a [requestFrame] that
    returns leaves the [FRAMEBUFFER] and [TEXTURE_2D] bindings unbound
    when it found them unbound, so that the destination's draw lands on
    the canvas; and that [VideoMixNode.render] clears the canvas rather
    than its own framebuffer, since it calls [gl.clear] before
    [useBufferFrame]. *)

From stdpp Require Import base list gmap strings.
From Stdlib Require Import ZArith Lia.
From S2P Require Import Prelude Fsm Model Webgl Layout Graph Frame Render Context System.

Local Open Scope Z_scope.

(** ** The two bindings *)

Definition fbo_clear (w : World) : Prop := b_fbo (w_bind w) = None.
Definition tex_clear (w : World) : Prop := b_tex (w_bind w) = None.

(** [P] reads the framebuffer and texture bindings only. *)
Definition bind_stable (P : World -> Prop) : Prop :=
  forall w w', b_fbo (w_bind w') = b_fbo (w_bind w) -> b_tex (w_bind w') = b_tex (w_bind w) -> P w -> P w'.

Lemma fbo_stable : bind_stable fbo_clear.
Proof. intros w w' Hf _. unfold fbo_clear. by rewrite Hf. Qed.

Lemma tex_stable : bind_stable tex_clear.
Proof. intros w w' _ Ht. unfold tex_clear. by rewrite Ht. Qed.

Create HintDb rst discriminated.

(** ** The steps that touch neither binding *)

Section Steps.
Context (P : World -> Prop) (HP : bind_stable P).

(** A step after which both bindings are as before. *)
Lemma restores_keep {A} (m : VC A) :
  (forall w a w', m w = Ok a w' -> b_fbo (w_bind w') = b_fbo (w_bind w) /\ b_tex (w_bind w') = b_tex (w_bind w)) ->
  restores P m.
Proof. intros H w a w' HPw Hm. destruct (H _ _ _ Hm). by eapply HP. Qed.

Lemma rst_modify (f : World -> World) :
  (forall w, b_fbo (w_bind (f w)) = b_fbo (w_bind w) /\ b_tex (w_bind (f w)) = b_tex (w_bind w)) ->
  restores (E:=Err) P (modify f).
Proof. intros H. apply restores_keep. intros w ? w' [= _ <-]. apply H. Qed.

Lemma rst_get_node id : restores P (get_node id).
Proof. apply restores_keep. intros w a w' [-> _]%get_node_Ok_inv. auto. Qed.

Lemma rst_get_ctx : restores P get_ctx.
Proof. apply restores_keep. by intros w a w' [= _ <-]. Qed.

Lemma rst_get_bind : restores P get_bind.
Proof. apply restores_keep. by intros w a w' [= _ <-]. Qed.

Lemma rst_gl_create : restores P gl_create.
Proof. apply restores_keep. intros w a w'. unfold gl_create. case_match; by intros [= _ <-]. Qed.
End Steps.

#[export] Hint Resolve restores_ret restores_throw rst_get_node rst_get_ctx rst_get_bind rst_gl_create : rst.

(** Split a computation into its steps, as [pres] and [nostack] do; the
    brackets are left to the caller. *)
Ltac rst_step :=
  match goal with
  | |- restores _ (mbind _ _) => apply restores_bind; [|intros ?]
  | |- restores _ (mfor _ _) => apply restores_mfor; intros ?
  | |- restores _ (mmap _ _) => apply restores_mmap; intros ?
  | |- restores _ (match ?x with _ => _ end) => destruct x
  | |- restores _ (if ?b then _ else _) => destruct b
  | |- restores _ (modify _) =>
      apply rst_modify; [assumption|intros ?; cbn; repeat case_match; split; reflexivity]
  | |- restores _ _ => solve [eauto with rst]
  | |- restores _ _ => progress unfold upd_node, upd_ctx, emit, gl_delete, upd_bind, gl_raise, need_gl,
                        node_useTexture, useInputTexture, timer_clear in *
  | |- restores _ _ => progress unfold_gl
  end.

(** ** The brackets *)

(** [useTexture] ends by unbinding the texture, [useBufferFrame] by
    unbinding the framebuffer: whatever their operation did. *)
Lemma tex_ctx_useTexture t op : restores tex_clear (ctx_useTexture t op).
Proof.
  apply restores_establishes. unfold ctx_useTexture.
  do 4 (simple apply establishes_bind; intros _). apply establishes_modify. reflexivity.
Qed.

Lemma fbo_useBufferFrame id op : restores fbo_clear (useBufferFrame id op).
Proof.
  apply restores_establishes. unfold useBufferFrame.
  simple apply establishes_bind; intros _. simple apply establishes_bind; intros n.
  do 2 (simple apply establishes_bind; intros _). apply establishes_modify. reflexivity.
Qed.

(** The other binding is kept when the operation keeps it. *)
Lemma fbo_ctx_useTexture t op : restores fbo_clear op -> restores fbo_clear (ctx_useTexture t op).
Proof.
  intros Hop. pose proof fbo_stable. unfold ctx_useTexture.
  repeat (simple apply restores_bind; [|intros _]); try exact Hop;
    unfold need_gl, gl_activeTexture, gl_bindTexture, upd_bind;
    repeat rst_step; apply restores_modify; intros ? H'; exact H'.
Qed.

Lemma tex_useBufferFrame id op : restores tex_clear op -> restores tex_clear (useBufferFrame id op).
Proof.
  intros Hop. pose proof tex_stable. unfold useBufferFrame.
  repeat (simple apply restores_bind; [|intros ?]); try exact Hop;
    unfold need_gl, gl_bindFramebuffer, upd_bind;
    repeat rst_step; apply restores_modify; intros ? H'; exact H'.
Qed.

(** ** A frame pull closes every bracket it opens *)

Section Pull.
Context (P : World -> Prop) (HP : bind_stable P).
Hypothesis Hctx : forall t op, restores P op -> restores P (ctx_useTexture t op).
Hypothesis Hbuf : forall id op, restores P op -> restores P (useBufferFrame id op).

Ltac rst :=
  repeat first [ match goal with
                 | |- restores _ (ctx_useTexture _ _) => apply Hctx
                 | |- restores _ (useBufferFrame _ _) => apply Hbuf
                 end
               | rst_step ].

Lemma rst_ctx_setSize a b : restores P (ctx_setSize a b).
Proof. unfold ctx_setSize. rst. Qed.

Lemma rst_slot_rect o : restores P (slot_rect o).
Proof. unfold slot_rect. rst. Qed.

Lemma rst_mix_slot_buffer id i : restores P (mix_slot_buffer id i).
Proof. unfold mix_slot_buffer. rst. Qed.

#[local] Hint Resolve rst_ctx_setSize rst_slot_rect rst_mix_slot_buffer : rst.

Lemma rst_base_resize rec id a b :
  (forall o a b, restores P (rec o a b)) -> restores P (base_resize rec id a b).
Proof. intros Hrec. unfold base_resize. rst. Qed.

Lemma rst_resize fuel : forall id a b, restores P (resize fuel id a b).
Proof.
  induction fuel as [|f IH]; intros id a b; simpl; [rst|].
  pose proof (rst_base_resize (resize f)). rst.
Qed.

#[local] Hint Resolve rst_resize : rst.

Lemma rst_draw2d id img a b c d : restores P (draw2d id img a b c d).
Proof. unfold draw2d. rst. Qed.

Lemma rst_source_render fuel id gl : restores P (source_render fuel id gl).
Proof. unfold source_render, source_upload. rst. Qed.

#[local] Hint Resolve rst_draw2d rst_source_render : rst.

Section Render.
Variable rf : nat -> Z -> VC bool.
Hypothesis Hrf : forall i sq, restores P (rf i sq).
Variable fuel : nat.

Lemma rst_mix_pull id sq idx nf : restores P (mix_pull rf id sq idx nf).
Proof. revert nf. induction idx; intros nf; simpl; rst. Qed.

#[local] Hint Resolve rst_mix_pull : rst.

Lemma rst_render id sq : restores P (render rf fuel id sq).
Proof.
  unfold render, mix_render, mirror_render, dest_render, draw_quad, pull_input, mix_slots_len,
    mix_draw_slot.
  rst.
Qed.

Lemma rst_render2d id sq : restores P (render2d rf fuel id sq).
Proof. unfold render2d, mix_render2d, base_render2d, pull_input, mix_slots_len, mix_draw2d_slot. rst. Qed.
End Render.

Lemma rst_requestFrame fuel : forall id sq, restores P (requestFrame fuel id sq).
Proof.
  induction fuel as [|f IH]; intros id sq; simpl; [rst|].
  pose proof (rst_render (requestFrame f) IH f). pose proof (rst_render2d (requestFrame f) IH f). rst.
Qed.
End Pull.

Lemma fbo_requestFrame fuel id sq : restores fbo_clear (requestFrame fuel id sq).
Proof. apply rst_requestFrame; [exact fbo_stable|exact fbo_ctx_useTexture|intros; apply fbo_useBufferFrame]. Qed.

Lemma tex_requestFrame fuel id sq : restores tex_clear (requestFrame fuel id sq).
Proof. apply rst_requestFrame; [exact tex_stable|intros; apply tex_ctx_useTexture|exact tex_useBufferFrame]. Qed.

(** C8: a [requestFrame] that returns, on any node and whatever it
    pulls, resizes or draws, leaves [FRAMEBUFFER] and [TEXTURE_2D]
    unbound when they were unbound before: every [useBufferFrame] and
    [useTexture] it opens is closed again. *)
Theorem requestFrame_restores_bindings fuel id sq w r w' :
  fbo_clear w -> tex_clear w -> requestFrame fuel id sq w = Ok r w' -> fbo_clear w' /\ tex_clear w'.
Proof. intros Hf Ht H. split; [exact (fbo_requestFrame _ _ _ _ _ _ Hf H)|exact (tex_requestFrame _ _ _ _ _ _ Ht H)]. Qed.

(** ** Where the destination draws *)

Lemma fbo_pull_input fuel id sq : restores fbo_clear (pull_input (requestFrame fuel) id sq).
Proof.
  unfold pull_input. apply restores_bind; [exact (rst_get_node _ fbo_stable id)|intros n].
  destruct (n_input n); [apply fbo_requestFrame|apply restores_ret].
Qed.

(** The steps between binding the texture and drawing: the nodes, the
    trace, the framebuffer, the texture and the program stay. *)
Definition quiet (w w' : World) : Prop :=
  w_nodes w' = w_nodes w /\ w_trace w' = w_trace w /\ b_fbo (w_bind w') = b_fbo (w_bind w) /\
  b_tex (w_bind w') = b_tex (w_bind w) /\ b_program (w_bind w') = b_program (w_bind w).

#[export] Instance quiet_preorder : PreOrder quiet.
Proof. split; [by repeat split|intros w1 w2 w3 (?&?&?&?&?) (?&?&?&?&?); repeat split; congruence]. Qed.

Lemma quiet_setAttributes id attrs : preserves quiet (setAttributes id attrs).
Proof.
  unfold setAttributes. apply preserves_mfor; [apply _|intros attr].
  unfold setAttribute, need_gl, gl_bindBuffer, gl_vertexAttrib, upd_bind, gl_raise.
  repeat match goal with
  | |- preserves _ (mbind _ _) => apply preserves_bind; [apply _| |intros ?]
  | |- preserves _ (match ?x with _ => _ end) => destruct x
  | |- preserves _ (if ?b then _ else _) => destruct b
  | |- preserves _ (modify _) => apply preserves_modify; intros ?; cbn; repeat case_match; by repeat split
  | |- preserves _ (get_node _) => intros ?; unfold get_node; case_match; reflexivity
  | |- preserves _ _ => first [apply preserves_ret|apply preserves_throw|intros ?; reflexivity]; apply _
  end.
Qed.

(** Reading a node or the context, or checking for the WebGL context,
    changes nothing. *)
Lemma need_gl_Ok w u w' : need_gl w = Ok u w' -> w' = w /\ c_gl (w_ctx w) = true.
Proof. unfold need_gl, mbind, get_ctx. cbn. destruct (c_gl (w_ctx w)); [by intros [= _ <-]|discriminate]. Qed.

(** C9: when [VideoDestinationNode.render] produces a frame, starting
    with the canvas bound, its last effect is the draw of its input's
    texture with its program on the canvas: every framebuffer bound while
    the input was pulled was unbound again, although the destination
    binds none itself. *)
Theorem dest_render_draws_on_canvas fuel id sq w w' :
  fbo_clear w -> dest_render (requestFrame fuel) id sq w = Ok true w' ->
  exists n i inp b, w_nodes w' !! id = Some n /\ n_input n = Some i /\ w_nodes w' !! i = Some inp /\
    last (w_trace w') = Some (EvDraw b) /\ b_fbo b = None /\ b_tex b = r_texture (n_res inp) /\
    b_program b = r_program (n_res n).
Proof.
  intros Hf H. unfold dest_render in H.
  apply mbind_Ok_inv in H as (ok & w1 & H1 & H).
  pose proof (fbo_pull_input fuel id sq w ok w1 Hf H1) as Hf1.
  destruct ok; [|discriminate H].
  apply mbind_Ok_inv in H as ([] & w2 & H2 & H).
  apply mbind_Ok_inv in H as ([] & w3 & H3 & H). injection H as <-.
  (* useProgram *)
  unfold useProgram in H2. apply mbind_Ok_inv in H2 as ([] & w4 & H4 & H2).
  apply need_gl_Ok in H4 as [-> Hgl].
  apply mbind_Ok_inv in H2 as (n & w5 & H5 & H2). apply get_node_Ok_inv in H5 as [-> Hn].
  injection H2 as <-.
  (* useInputTexture *)
  unfold useInputTexture in H3. apply mbind_Ok_inv in H3 as (n' & w6 & H6 & H3).
  apply get_node_Ok_inv in H6 as [-> Hn']. cbn in Hn'. rewrite Hn in Hn'. injection Hn' as <-.
  destruct (n_input n) as [i|] eqn:Hi; [|discriminate H3].
  apply mbind_Ok_inv in H3 as (inp & w7 & H7 & H3). apply get_node_Ok_inv in H7 as [-> Hinp].
  unfold ctx_useTexture in H3.
  apply mbind_Ok_inv in H3 as ([] & w8 & H8 & H3). apply need_gl_Ok in H8 as [-> _].
  apply mbind_Ok_inv in H3 as ([] & w9 & H9 & H3). injection H9 as <-.
  apply mbind_Ok_inv in H3 as ([] & w10 & H10 & H3). injection H10 as <-.
  apply mbind_Ok_inv in H3 as ([] & w11 & H11 & H3). injection H3 as <-.
  unfold draw_quad in H11.
  apply mbind_Ok_inv in H11 as (n2 & w12 & H12 & H11). apply get_node_Ok_inv in H12 as [-> _].
  apply mbind_Ok_inv in H11 as ([] & w13 & H13 & H11).
  pose proof (preserves_Ok _ _ _ _ _ (quiet_setAttributes _ _) H13) as (Hq1 & Hq2 & Hq3 & Hq4 & Hq5).
  unfold gl_drawArrays in H11. apply mbind_Ok_inv in H11 as (b & w14 & H14 & H11).
  injection H14 as <- <-. injection H11 as <-.
  cbn in *. exists n, i, inp, (w_bind w13). rewrite Hq1. repeat split; auto.
  - rewrite last_app. reflexivity.
  - rewrite Hq3. exact Hf1.
Qed.

(** ** What the mix clears *)

(** [gl.clear] is the only call that clears a framebuffer. *)
Definition no_clear (e : Event) : bool := match e with EvClear _ => false | _ => true end.

(** The trace grows by events that clear nothing. *)
Definition appends_no_clear (w w' : World) : Prop :=
  exists tr, w_trace w' = w_trace w ++ tr /\ Forall (fun e => no_clear e = true) tr.

#[export] Instance appends_no_clear_preorder : PreOrder appends_no_clear.
Proof.
  split; [intros w; exists []; by rewrite app_nil_r|].
  intros w1 w2 w3 (tr1 & H1 & F1) (tr2 & H2 & F2). exists (tr1 ++ tr2).
  rewrite H2, H1, app_assoc. split; [reflexivity|by apply Forall_app].
Qed.

Ltac ncpres :=
  repeat match goal with
  | |- preserves appends_no_clear (mbind _ _) => apply preserves_bind; [apply _| |intros ?]
  | |- preserves appends_no_clear (mfor _ _) => apply preserves_mfor; [apply _|intros ?]
  | |- preserves appends_no_clear (match ?x with _ => _ end) => destruct x
  | |- preserves appends_no_clear (if ?b then _ else _) => destruct b
  | |- preserves appends_no_clear _ =>
      progress unfold mix_slots_len, mix_draw_slot, node_useTexture, ctx_useTexture, need_gl in *
  | |- preserves appends_no_clear _ => progress unfold_gl
  | |- preserves appends_no_clear _ =>
      intros ?; unfold get_node, get_ctx, get_bind, upd_bind, gl_raise, emit, modify, mret, throw,
        appends_no_clear; cbn; repeat case_match; cbn;
      first [exists []; split; [by rewrite app_nil_r|constructor] | eexists; split; [reflexivity|by repeat constructor]]
  end.

(** What [VideoMixNode.render] does after its [gl.clear]: select the
    texture coordinates, then draw the slots into its framebuffer. *)
Lemma mix_render_tail_no_clear id :
  preserves appends_no_clear
    (n <- get_node id ;;
     setAttributes id [("a_texCoord", r_texCoordBuffer (n_res n))] ;;;
     useBufferFrame id (len' <- mix_slots_len id ;; mfor (seq 0 len') (mix_draw_slot id)) ;;;
     mret true).
Proof. unfold useBufferFrame. ncpres. Qed.

Lemma fbo_mix_pull fuel id sq idx nf : restores fbo_clear (mix_pull (requestFrame fuel) id sq idx nf).
Proof.
  apply rst_mix_pull; [exact fbo_stable|intros; apply fbo_requestFrame].
Qed.

(** C11: [VideoMixNode.render] clears the framebuffer bound when it is
    called, not its own: when it produces a frame, starting with the
    canvas bound, the last [gl.clear] it issues clears the canvas (its
    inputs' pulls leave the canvas bound), and the slots are then drawn
    into the mix's framebuffer, which nothing clears. *)
Theorem mix_render_clears_canvas fuel id sq w w' :
  fbo_clear w -> mix_render (requestFrame fuel) id sq w = Ok true w' ->
  exists tr1 tr2, w_trace w' = tr1 ++ EvClear None :: tr2 /\ Forall (fun e => no_clear e = true) tr2.
Proof.
  intros Hf H. unfold mix_render in H.
  apply mbind_Ok_inv in H as (c & w1 & H1 & H). injection H1 as <- <-.
  apply mbind_Ok_inv in H as (len & w2 & H2 & H).
  unfold mix_slots_len, mbind, get_node in H2. destruct (w_nodes w !! id) as [n|]; [|discriminate].
  assert (w2 = w) as -> by (destruct (n_kind n); by injection H2).
  apply mbind_Ok_inv in H as (nf & w3 & H3 & H). pose proof (fbo_mix_pull _ _ _ _ _ _ _ _ Hf H3) as Hf3.
  destruct (negb nf && c_gl (w_ctx w)); [|discriminate].
  apply mbind_Ok_inv in H as ([] & w4 & H4 & H).
  unfold useProgram in H4. apply mbind_Ok_inv in H4 as ([] & w5 & H5 & H4). apply need_gl_Ok in H5 as [-> _].
  apply mbind_Ok_inv in H4 as (n' & w6 & H6 & H4). apply get_node_Ok_inv in H6 as [-> _].
  injection H4 as <-.
  apply mbind_Ok_inv in H as ([] & w7 & H7 & H). unfold gl_clear, mbind, get_bind, emit, modify in H7.
  injection H7 as <-.
  destruct (preserves_Ok _ _ _ _ _ (mix_render_tail_no_clear id) H) as (tr2 & Htr & F).
  exists (w_trace w3), tr2. rewrite Htr. cbn. rewrite Hf3, <- app_assoc. split; [reflexivity|exact F].
Qed.

(** ** Witnesses *)

(** An image source behind a mirror behind a track destination, on a
    WebGL context. *)
Definition w_gl_mirror : World :=
  run_ops 10 [OpCreate false false true true; OpNewImageSource (IStill 50 HTMLImageElement 320 240);
              OpNewMirror; OpNewDestination DTrack None None true;
              OpConnect 0 1 None; OpConnect 1 2 None] (world0 30).

(** The first pull of the destination uploads the image, draws it into
    the mirror's framebuffer and draws the mirror's texture on the canvas. *)
Lemma requestFrame_restores_bindings_witness :
  exists r w', requestFrame 10 2 1 w_gl_mirror = Ok r w' /\ b_fbo (w_bind w') = None /\ b_tex (w_bind w') = None.
Proof.
  destruct (requestFrame 10 2 1 w_gl_mirror) as [r w'|e w'] eqn:E.
  - exists r, w'. split; [reflexivity|].
    apply (requestFrame_restores_bindings 10 2 1 w_gl_mirror r w'); [vm_compute; reflexivity|vm_compute; reflexivity|exact E].
  - exfalso. vm_compute in E. discriminate E.
Defined.

Lemma dest_render_draws_on_canvas_witness :
  exists w' b, dest_render (requestFrame 9) 2 1 w_gl_mirror = Ok true w' /\
    last (w_trace w') = Some (EvDraw b) /\ b_fbo b = None.
Proof.
  destruct (dest_render (requestFrame 9) 2 1 w_gl_mirror) as [[|] w'|e w'] eqn:E.
  - destruct (dest_render_draws_on_canvas 9 2 1 w_gl_mirror w') as (n & i & inp & b & _ & _ & _ & Hl & Hb & _);
      [vm_compute; reflexivity|exact E|].
    exists w', b. auto.
  - exfalso. vm_compute in E. discriminate E.
  - exfalso. vm_compute in E. discriminate E.
Defined.

(** Two image sources in a mix at depths 0 and 1, the mix behind a track
    destination, on a WebGL context. *)
Definition w_gl_mix : World :=
  run_ops 10 [OpCreate false false true true;
              OpNewImageSource (IStill 50 HTMLImageElement 100 100);
              OpNewImageSource (IStill 51 HTMLImageElement 100 100);
              OpNewMix; OpNewDestination DTrack None None true;
              OpConnect 0 2 (Some (mkLayout (Some 0) (Some 0) (Some 100) (Some 100) 0));
              OpConnect 1 2 (Some (mkLayout (Some 50) (Some 50) (Some 100) (Some 100) 1));
              OpConnect 2 3 None] (world0 30).

Lemma mix_render_clears_canvas_witness :
  exists w' tr1 tr2, mix_render (requestFrame 9) 2 1 w_gl_mix = Ok true w' /\
    w_trace w' = tr1 ++ EvClear None :: tr2 /\ Forall (fun e => no_clear e = true) tr2.
Proof.
  destruct (mix_render (requestFrame 9) 2 1 w_gl_mix) as [[|] w'|e w'] eqn:E.
  - destruct (mix_render_clears_canvas 9 2 1 w_gl_mix w') as (tr1 & tr2 & A & B);
      [vm_compute; reflexivity|exact E|].
    exists w', tr1, tr2. auto.
  - exfalso. vm_compute in E. discriminate E.
  - exfalso. vm_compute in E. discriminate E.
Defined.
