(* ===== verification/SmallDest.v ===== *)
(** * [SmallVideoTrackDestination] on JavaScript numbers

    [SmallVideoTrackDestination] ([src/video-node/destination.ts]) is a
    [VideoTrackDestination] whose [resize] scales the size it is given
    by [1 / Math.sqrt(ratio)] before handing it on.  The scaled size is
    not an integer: the node's [width] and [height] become non-integer
    numbers, and the context's [setSize] passes them to [gl.viewport]
    and to [canvas.width] / [canvas.height], which convert them to
    integers ([JsNumber]).  This file models the class's [resize] with
    its numbers as [float]s, on the fields it reads and writes ([Small]):
    [small_ratio_num] and [small_size_num] are its arithmetic,
    [small_node_resize] is [VideoNode.resize] on this node, and
    [small_resize] their composition in [VideoTrackDestination.resize]
    with [setSize] ([ctx_setSize_num], the store's [Graph.ctx_setSize]
    after the conversion of the numbers).  [small_resize_zero_width]
    shows that a zero width yields a [NaN] width and an empty canvas.

    The node of the store is not linked to this record: the store's
    sizes are integers, so a small destination is not among the classes
    of [Model] and the graph's methods never reach [small_resize].
    [Small] gives the real-number abstraction of the same computation. *)

From stdpp Require Import base list gmap strings.
From Stdlib Require Import ZArith Lia Floats.
From S2P Require Import Prelude JsNumber Fsm Model Webgl Graph Context.

Local Open Scope Z_scope.

(** ** [setSize] on numbers *)

(** [VideoContext.setSize(width, height)] called with numbers:
    [gl.viewport] and the canvas's setters convert them, truncating
    toward zero and sending [NaN] and the infinities to [0], before the
    conversions of [Graph.ctx_setSize]. *)
Definition ctx_setSize_num (width height : float) : VC unit :=
  ctx_setSize (num_to_Z width) (num_to_Z height).

(** ** The node *)

(** The fields of a [SmallVideoTrackDestination] that [resize] reads
    and writes. *)
Record Small := mkSmall {
  sm_width : float;
  sm_height : float;
  sm_resolution : float * float
}.

(** [ratio] of [resize]: [bigResolution / smallResolution] when
    [bigResolution > smallResolution], else [bigResolution / (160 * 120)]. *)
Definition small_ratio_num (width height : float) (resolution : float * float) : float :=
  let big := (width * height)%float in
  let small := (resolution.1 * resolution.2)%float in
  if (small <? big)%float then (big / small)%float else (big / (160 * 120))%float.

(** The arguments of [super.resize]. *)
Definition small_size_num (width height : float) (resolution : float * float) : float * float :=
  let r := small_ratio_num width height resolution in
  ((width / PrimFloat.sqrt r)%float, (height / PrimFloat.sqrt r)%float).

(** [VideoNode.resize(width, height)] on this node: a destination has no
    texture ([createTexture: false]) and no canvas of its own, and its
    [output] is not modelled, so the size check and the two assignments
    are all that runs. *)
Definition small_node_resize (s : Small) (width height : float) : Small :=
  if (sm_width s =? width)%float && (sm_height s =? height)%float then s
  else mkSmall width height (sm_resolution s).

(** [SmallVideoTrackDestination.resize(width, height)]: the scaled size
    goes through [VideoTrackDestination.resize], which runs
    [VideoNode.resize] and then [this.context.setSize]. *)
Definition small_resize (s : Small) (width height : float) : VC Small :=
  let '(w, h) := small_size_num width height (sm_resolution s) in
  ctx_setSize_num w h ;;; mret (small_node_resize s w h).

(** ** A zero width *)

(** With a zero width the pixel count is [0]: the ratio is [+0], its
    square root too, and the width divides [0] by [0]. *)
Lemma small_size_zero_width h rw rh :
  0 <= h < 2 ^ 53 -> 0 < rw < 2 ^ 53 -> 0 < rh < 2 ^ 53 ->
  small_size_num (num_of_Z 0) (num_of_Z h) (num_of_Z rw, num_of_Z rh) =
    (nan, if h =? 0 then nan else infinity).
Proof.
  intros Hh Hrw Hrh. unfold small_size_num, small_ratio_num. cbn [fst snd].
  assert (Hb : Prim2SF (num_of_Z 0 * num_of_Z h)%float = S754_zero false).
  { rewrite FloatAxioms.mul_spec. change (Prim2SF (num_of_Z 0)) with (S754_zero false).
    destruct (num_of_Z_nonneg h Hh) as [->|(m & e & -> & _)]; reflexivity. }
  rewrite (ltb_spec _ (num_of_Z 0 * num_of_Z h)%float), Hb, mul_num_of_Z_not_neg by lia.
  assert (Hs : Prim2SF (PrimFloat.sqrt (num_of_Z 0 * num_of_Z h / (160 * 120)))%float = S754_zero false).
  { rewrite sqrt_spec, FloatAxioms.div_spec, Hb. reflexivity. }
  f_equal; apply Prim2SF_inj; rewrite FloatAxioms.div_spec, Hs; [reflexivity|].
  destruct (Z.eqb_spec h 0) as [->|Hn]; [reflexivity|].
  destruct (num_of_Z_nonneg h Hh) as [Hz|(m & e & -> & _)]; [|reflexivity].
  exfalso. pose proof (integer_part_num_of_Z h ltac:(lia)) as Hi.
  unfold integer_part in Hi. rewrite Hz in Hi. cbn in Hi. congruence.
Qed.

(** C17: [SmallVideoTrackDestination.resize] with a zero width (a source
    whose image has no size yet passes it on) computes [0 / 0]: the
    node's width becomes [NaN], its height [Infinity] ([NaN] when the
    height is [0] too), and [setSize] empties the canvas and the
    viewport, [NaN] and [Infinity] converting to [0]. *)
Theorem small_resize_zero_width s h rw rh st :
  0 <= h < 2 ^ 53 -> 0 < rw < 2 ^ 53 -> 0 < rh < 2 ^ 53 ->
  sm_resolution s = (num_of_Z rw, num_of_Z rh) ->
  small_resize s (num_of_Z 0) (num_of_Z h) st =
    (ctx_setSize 0 0 ;;; mret (mkSmall nan (if h =? 0 then nan else infinity) (sm_resolution s))) st.
Proof.
  intros Hh Hrw Hrh Hr. unfold small_resize. rewrite Hr, small_size_zero_width by lia.
  rewrite <- Hr. cbv iota. unfold mbind, ctx_setSize_num.
  replace (num_to_Z nan) with 0 by reflexivity.
  replace (num_to_Z (if h =? 0 then nan else infinity)) with 0 by (destruct (h =? 0); reflexivity).
  destruct (ctx_setSize 0 0 st) as [[] st'|e st']; [|reflexivity].
  unfold small_node_resize. replace (sm_width s =? nan)%float with false; [reflexivity|].
  rewrite FloatAxioms.eqb_spec. change (Prim2SF nan) with S754_nan.
  destruct (Prim2SF (sm_width s)); reflexivity.
Qed.

(** ** Witnesses *)

Lemma small_resize_zero_width_witness :
  small_resize (mkSmall (num_of_Z 300) (num_of_Z 150) (num_of_Z 320, num_of_Z 180)) (num_of_Z 0) (num_of_Z 480)
    (world0 30) =
  (ctx_setSize 0 0 ;;; mret (mkSmall nan infinity (num_of_Z 320, num_of_Z 180))) (world0 30).
Proof.
  exact (small_resize_zero_width (mkSmall (num_of_Z 300) (num_of_Z 150) (num_of_Z 320, num_of_Z 180))
    480 320 180 (world0 30) ltac:(lia) ltac:(lia) ltac:(lia) eq_refl).
Defined.
