(* ===== verification/Viewport.v ===== *)
(** * The viewport of the WebGL context

    [VideoContext.setSize] and the [width] / [height] setters
    ([src/video-context.ts]) are the only callers of [gl.viewport]; a new
    WebGL context starts with a viewport covering its canvas.
    [gl.viewport] converts its arguments with [ToInt32] and records
    [INVALID_VALUE] on a negative size, keeping the viewport, while the
    canvas's setters fall back to their defaults ([Graph.ctx_setSize]):
    a size of [2^31] or more, or a negative one, leaves the viewport and
    the canvas different, with an error pending.  The destination's next
    tick reads the error ([Destination.tick_glcheck]) and destroys the
    context, and that teardown cannot fail: every node a node or the
    context refers to exists ([refs_ok]), so [close] and [disconnect]
    never throw on the way.

    The file shows that along every run of operations from a fresh
    context, whenever the context holds WebGL and no error is pending,
    the viewport is exactly the size of its canvas.  Every draw, also the
    draws of mirrors and mixes into their own framebuffers
    ([useBufferFrame] sets no viewport), then runs with the canvas's size,
    whatever the size of the node.

    [RR K] is the relation a method respects: the nodes that exist keep
    existing, and from a store where the nodes of [K] exist, [refs_ok]
    and the viewport invariant [vp_ok] are kept.  [K] names the nodes a
    method has already looked up when it writes a reference to them. *)

From stdpp Require Import base list gmap strings.
From Stdlib Require Import ZArith Lia.
From S2P Require Import Prelude JsNumber Fsm Model Webgl Layout Graph Frame Lifecycle Render Context Destination Info System.

Local Open Scope Z_scope.

(** ** The invariants *)

(** The nodes node [n] refers to: its [input], its [output] and the
    children of the slots of a mix. *)
Definition node_refs (n : Node) : list nat :=
  option_list (n_input n) ++ option_list (n_output n) ++
  match n_kind n with KMix a => mi_node <$> omap id (ja_elems a) | _ => [] end.

Definition has (w : World) (id : nat) : Prop := is_Some (w_nodes w !! id).

(** The nodes the context's [disconnect] listeners and the nodes'
    references name exist. *)
Definition refs_ok (w : World) : Prop :=
  (forall l, l ∈ c_listeners (w_ctx w) -> has w l) /\
  (forall id n x, w_nodes w !! id = Some n -> x ∈ node_refs n -> has w x).

(** The context is [uninitialized] or [created], holds no WebGL context
    when [uninitialized], and with WebGL it has a canvas whose size is in
    the range of the setters, and its viewport is that size unless an
    error is pending. *)
Definition vp_ok (w : World) : Prop :=
  (c_state (w_ctx w) = SInit \/ c_state (w_ctx w) = SCreated) /\
  (c_state (w_ctx w) = SInit -> c_gl (w_ctx w) = false) /\
  (c_gl (w_ctx w) = true -> exists cv, c_canvas (w_ctx w) = Some cv /\
     0 <= cv_width cv < 2 ^ 31 /\ 0 <= cv_height cv < 2 ^ 31 /\
     (b_viewport (w_bind w) = (cv_width cv, cv_height cv) \/ gl_error (w_gl w) <> 0)).

Definition known (K : list nat) (w : World) : Prop := forall k, k ∈ K -> has w k.

Definition RR (K : list nat) (w w' : World) : Prop :=
  (forall k, has w k -> has w' k) /\
  (known K w -> refs_ok w -> refs_ok w' /\ (vp_ok w -> vp_ok w')).

#[export] Instance RR_preorder K : PreOrder (RR K).
Proof.
  split.
  - intros w. split; [done|intros _ H; split; [exact H|done]].
  - intros w1 w2 w3 [D12 H12] [D23 H23]. split; [auto|].
    intros Hk Hr. destruct (H12 Hk Hr) as [Hr2 Hv2].
    destruct (H23 (fun k Hk' => D12 k (Hk k Hk')) Hr2) as [Hr3 Hv3]. split; [exact Hr3|auto].
Qed.

Lemma known_nil w : known [] w.
Proof. intros k Hk. by apply elem_of_nil in Hk. Qed.

Lemma known_cons k K w : known (k :: K) w <-> has w k /\ known K w.
Proof.
  unfold known. setoid_rewrite elem_of_cons. split; [intros H; split; auto|].
  intros [Hk HK] k' [->|Hk']; auto.
Qed.

(** A method that starts by looking [k] up: from a store where [k] is
    missing it changes nothing. *)
Lemma RR_case {A} k K (m : VC A) :
  preserves (RR (k :: K)) m -> (forall w, w_nodes w !! k = None -> res_state (m w) = w) ->
  preserves (RR K) m.
Proof.
  intros Hm Hn w. destruct (w_nodes w !! k) as [n|] eqn:E.
  - destruct (Hm w) as [D H]. split; [exact D|].
    intros Hk Hr. apply H; [apply known_cons; split; [by exists n|exact Hk]|exact Hr].
  - rewrite (Hn w E). reflexivity.
Qed.

(** What the invariants read. *)
Definition rframe (w : World) :=
  (w_nodes w, c_listeners (w_ctx w), c_state (w_ctx w), c_gl (w_ctx w), c_canvas (w_ctx w),
   b_viewport (w_bind w), gl_error (w_gl w)).

Lemma RR_frame K w w' : rframe w' = rframe w -> RR K w w'.
Proof.
  unfold rframe, RR, refs_ok, vp_ok, has. intros [= -> -> -> -> -> -> ->]. split; [done|].
  intros _ Hr. split; [exact Hr|done].
Qed.

Lemma rr_keep {A} K (m : VC A) : (forall w, rframe (res_state (m w)) = rframe w) -> preserves (RR K) m.
Proof. intros H w. apply RR_frame, H. Qed.

(** ** Writing a node *)

Lemma elem_of_insert_inv {A} (l : list A) i x y : y ∈ <[i := x]> l -> y = x \/ y ∈ l.
Proof.
  intros H. apply list_elem_of_lookup in H as [j Hj].
  apply list_lookup_insert_Some in Hj as [(_ & -> & _)|[_ Hj]]; [by left|right].
  by eapply list_elem_of_lookup_2.
Qed.

Lemma elem_of_list_write {A} (l : list (option A)) i v y :
  Some y ∈ list_write l i v -> v = Some y \/ Some y ∈ l.
Proof.
  unfold list_write. case_decide.
  - intros H'. apply elem_of_insert_inv in H' as [<-|H']; auto.
  - rewrite !elem_of_app. intros [H'|[H'|H']]; auto.
    + apply elem_of_replicate in H' as [[=] _].
    + apply list_elem_of_singleton in H'. auto.
Qed.

(** The children of the slots after [arr[k] = v]. *)
Lemma slots_ja_set (a : jsarr NodeMixInfo) k v x :
  x ∈ mi_node <$> omap id (ja_elems (ja_set a k v)) ->
  x ∈ mi_node <$> omap id (ja_elems a) \/ exists mi, v = Some mi /\ x = mi_node mi.
Proof.
  unfold ja_set. case_decide; cbn; [|by left].
  rewrite !list_elem_of_fmap. setoid_rewrite list_elem_of_omap. cbn.
  intros (mi & -> & o & Ho & Heq). unfold id in Heq. subst o.
  apply elem_of_list_write in Ho as [->|Ho]; [right; eauto|].
  left. exists mi. split; [done|]. exists (Some mi). auto.
Qed.

Lemma rr_upd_node K id f :
  (forall n x, x ∈ node_refs (f n) -> x ∈ node_refs n \/ x ∈ K) -> preserves (RR K) (upd_node id f).
Proof.
  intros Hf w. rewrite upd_node_run. cbn. unfold RR, refs_ok, has. cbn. split.
  - intros k. by rewrite lookup_alter_is_Some.
  - intros Hk [Hl Hn]. split; [split|].
    + intros l Hl'. cbn. rewrite lookup_alter_is_Some. apply Hl, Hl'.
    + intros id' n' x Hid Hx. cbn. rewrite lookup_alter_is_Some.
      destruct (decide (id = id')) as [<-|Hne].
      * rewrite lookup_alter_eq in Hid. destruct (w_nodes w !! id) as [n|] eqn:E; [|discriminate].
        injection Hid as <-. destruct (Hf n x Hx) as [Hx'|Hx']; [exact (Hn id n x E Hx')|exact (Hk x Hx')].
      * rewrite lookup_alter_ne in Hid by done. exact (Hn id' n' x Hid Hx).
    + unfold vp_ok. cbn. done.
Qed.

(** A write [f] adds to a node's references only nodes of [K]. *)
Definition refs_within (K : list nat) (f : Node -> Node) : Prop :=
  forall n x, x ∈ node_refs (f n) -> x ∈ node_refs n \/ x ∈ K.

Lemma rr_upd_node' K id f : refs_within K f -> preserves (RR K) (upd_node id f).
Proof. apply rr_upd_node. Qed.

Lemma within_eq K f : (forall n, node_refs (f n) = node_refs n) -> refs_within K f.
Proof. intros H n x. rewrite H. auto. Qed.

Lemma within_set_input K i : (forall c, i = Some c -> c ∈ K) -> refs_within K (set_input i).
Proof.
  intros Hi n x. unfold node_refs. cbn. rewrite !elem_of_app.
  intros [Hx|Hx]; [|auto]. destruct i as [c|]; [|by apply elem_of_nil in Hx].
  apply list_elem_of_singleton in Hx as ->. right. by apply Hi.
Qed.

Lemma within_set_output K o : (forall c, o = Some c -> c ∈ K) -> refs_within K (set_output o).
Proof.
  intros Ho n x. unfold node_refs. cbn. rewrite !elem_of_app.
  intros [Hx|[Hx|Hx]]; [auto| |auto]. destruct o as [c|]; [|by apply elem_of_nil in Hx].
  apply list_elem_of_singleton in Hx as ->. right. by apply Ho.
Qed.

Lemma within_upd_mix_set K (g : jsarr NodeMixInfo -> Z) v :
  (forall mi, v = Some mi -> mi_node mi ∈ K) -> refs_within K (upd_mix (fun a => ja_set a (g a) v)).
Proof.
  intros Hv n x. unfold upd_mix. destruct (n_kind n) as [| |a|] eqn:E; [auto|auto| |auto].
  unfold node_refs. cbn. rewrite E, !elem_of_app.
  intros [Hx|[Hx|Hx]]; [auto|auto|]. apply slots_ja_set in Hx as [Hx|(mi & -> & ->)]; [auto|].
  right. by apply Hv.
Qed.

Lemma within_upd_source K f : refs_within K (upd_source f).
Proof. apply within_eq. intros n. unfold upd_source. destruct (n_kind n) eqn:E; [|done..]. unfold node_refs. cbn. by rewrite E. Qed.

Lemma within_upd_dest K f : refs_within K (upd_dest f).
Proof. apply within_eq. intros n. unfold upd_dest. destruct (n_kind n) eqn:E; [done..|]. unfold node_refs. cbn. by rewrite E. Qed.

Lemma within_set_slot_buffer K i b : refs_within K (set_slot_buffer i b).
Proof.
  intros n x. unfold set_slot_buffer. destruct (n_kind n) as [| |a|] eqn:E; [auto|auto| |auto].
  destruct (mjoin (ja_elems a !! i)) as [mi|] eqn:Hmi; [|auto].
  unfold node_refs. cbn. rewrite E, !elem_of_app.
  intros [Hx|[Hx|Hx]]; [auto|auto|]. left. right. right.
  apply slots_ja_set in Hx as [Hx|(mi' & [= <-] & ->)]; [exact Hx|]. cbn.
  apply list_elem_of_fmap. exists mi. split; [done|]. apply list_elem_of_omap. exists (Some mi).
  split; [|done]. destruct (ja_elems a !! i) as [[mi0|]|] eqn:Hl; cbn in Hmi; try discriminate.
  injection Hmi as ->. by eapply list_elem_of_lookup_2.
Qed.

Create HintDb rr discriminated.
#[export] Hint Resolve within_upd_source within_upd_dest within_set_slot_buffer : rr.

(** ** The guard of the node methods *)

Lemma RR_forget k K w w' : has w k -> RR (k :: K) w w' -> RR K w w'.
Proof.
  intros Hk [D H]. split; [exact D|]. intros HK Hr. apply H; [by apply known_cons|exact Hr].
Qed.

Lemma rr_set_state K id st w : RR K w (set_nodes (alter (set_state st) id (w_nodes w)) w).
Proof.
  change (set_nodes (alter (set_state st) id (w_nodes w)) w) with (res_state (upd_node id (set_state st) w)).
  apply (rr_upd_node' K id). by apply within_eq.
Qed.

Lemma rr_node_change {A} K id ch (body : VC A) succ :
  preserves (RR (id :: K)) body -> (forall a, preserves (RR K) (succ a)) ->
  preserves (RR K) (node_change id ch body succ).
Proof.
  intros Hb Hs w. unfold node_change. destruct (w_nodes w !! id) as [n|] eqn:E; [|reflexivity].
  assert (Hk : has w id) by (by exists n).
  unfold change_state. destruct (decide _); [reflexivity|].
  destruct (allowed _ _); [|destruct (ch_ignoreError ch); reflexivity].
  pose proof (RR_forget _ _ _ _ Hk (Hb w)) as H1.
  destruct (body w) as [a w1|e w1]; cbn in H1 |- *.
  - etrans; [exact H1|]. etrans; [apply rr_set_state|].
    specialize (Hs a (set_nodes (alter (set_state (ch_to ch)) id (w_nodes w1)) w1)).
    by destruct (succ a _).
  - etrans; [exact H1|apply rr_set_state].
Qed.

(** ** The WebGL error *)

(** [gl_raise] never clears a pending error. *)
Lemma rr_gl_raise K code : preserves (RR K) (gl_raise code).
Proof.
  intros w. unfold gl_raise, modify. cbn. destruct (Z.eqb_spec (gl_error (w_gl w)) 0) as [E|E].
  - split; [done|]. intros _ Hr. split; [exact Hr|].
    unfold vp_ok. cbn. intros (A & B & C). split; [exact A|split; [exact B|]].
    intros Hg. destruct (C Hg) as (cv & Hcv & Hw & Hh & Hv). exists cv. repeat split; try lia; [exact Hcv|].
    destruct Hv as [Hv|Hv]; [by left|done].
  - apply RR_frame. reflexivity.
Qed.

#[export] Hint Resolve rr_gl_raise : rr.

(** ** The size setters *)

(** [gl.viewport(0, 0, x, y)]: it returns, and either records an error
    (a negative size after [ToInt32]) or sets the viewport to the
    converted size. *)
Lemma gl_viewport_spec x y w :
  exists w', gl_viewport x y w = Ok tt w' /\ w_ctx w' = w_ctx w /\ w_nodes w' = w_nodes w /\
    ((to_int32 x < 0 \/ to_int32 y < 0) /\ gl_error (w_gl w') <> 0 \/
     0 <= to_int32 x /\ 0 <= to_int32 y /\ b_viewport (w_bind w') = (to_int32 x, to_int32 y)).
Proof.
  unfold gl_viewport. cbv zeta. destruct ((to_int32 x <? 0) || (to_int32 y <? 0)) eqn:E.
  - apply orb_true_iff in E. rewrite !Z.ltb_lt in E.
    unfold gl_raise, modify. eexists. split; [reflexivity|]. cbv zeta.
    destruct (Z.eqb_spec (gl_error (w_gl w)) 0) as [He|He]; cbn;
      (do 2 (split; [reflexivity|])); left; (split; [exact E|]); [unfold GL_INVALID_VALUE; lia|exact He].
  - apply orb_false_iff in E. rewrite !Z.ltb_ge in E.
    eexists. do 3 (split; [reflexivity|]). right. repeat split; lia.
Qed.

(** The three setters: [gl.viewport] on a size read from the context,
    then the canvas's [width] and [height]. *)
Lemma rr_setter K (x y : Ctx -> Z) (g : Ctx -> Canvas -> Canvas) :
  (forall c cv, c_canvas c = Some cv -> 0 <= cv_width cv < 2 ^ 31 -> 0 <= cv_height cv < 2 ^ 31 ->
     0 <= cv_width (g c cv) < 2 ^ 31 /\ 0 <= cv_height (g c cv) < 2 ^ 31 /\
     (0 <= to_int32 (x c) -> 0 <= to_int32 (y c) ->
        (cv_width (g c cv), cv_height (g c cv)) = (to_int32 (x c), to_int32 (y c)))) ->
  preserves (RR K)
    (c <- get_ctx ;; (if c_gl c then gl_viewport (x c) (y c) else mret tt) ;;;
     match c_canvas c with Some cv => upd_ctx (ctx_set_canvas (Some (g c cv))) | None => mret tt end).
Proof.
  intros Hg w. unfold mbind at 1, get_ctx.
  assert (Hcanvas : forall w1, w_ctx w1 = w_ctx w -> w_nodes w1 = w_nodes w ->
            (forall cv, c_canvas (w_ctx w) = Some cv -> c_gl (w_ctx w) = true ->
               0 <= cv_width cv < 2 ^ 31 -> 0 <= cv_height cv < 2 ^ 31 ->
               b_viewport (w_bind w1) = (cv_width (g (w_ctx w) cv), cv_height (g (w_ctx w) cv)) \/
               gl_error (w_gl w1) <> 0) ->
            RR K w (res_state ((match c_canvas (w_ctx w) with
                                | Some cv => upd_ctx (ctx_set_canvas (Some (g (w_ctx w) cv)))
                                | None => mret tt end) w1))).
  { intros w1 Hc Hn Hv. unfold RR, refs_ok, vp_ok, has.
    destruct (c_canvas (w_ctx w)) as [cv|] eqn:Hcv; cbn; rewrite ?Hn, ?Hc.
    all: split; [done|intros _ Hr; split; [exact Hr|]].
    all: intros (A & B & C); split; [exact A|split; [exact B|]].
    - intros Hgl. destruct (C Hgl) as (cv0 & Hcv0 & Hw0 & Hh0 & _). injection Hcv0 as <-.
      destruct (Hg _ _ Hcv Hw0 Hh0) as (Hw & Hh & _). exists (g (w_ctx w) cv). repeat split; try lia.
      exact (Hv cv eq_refl Hgl Hw0 Hh0).
    - intros Hgl. destruct (C Hgl) as (cv0 & Hcv0 & _). congruence. }
  cbn. destruct (c_gl (w_ctx w)) eqn:Hgl.
  - destruct (gl_viewport_spec (x (w_ctx w)) (y (w_ctx w)) w) as (w1 & E & Hc & Hn & Hcase).
    unfold mbind. rewrite E. apply Hcanvas; [exact Hc|exact Hn|]. intros cv Hcv _ Hw Hh.
    destruct Hcase as [[_ He]|(Hx & Hy & Hb)]; [by right|left].
    rewrite Hb. destruct (Hg _ _ Hcv Hw Hh) as (_ & _ & Heq). by rewrite Heq.
  - apply (Hcanvas w); [done|done|]. intros _ _ [=].
Qed.

Lemma rr_ctx_setSize K a b : preserves (RR K) (ctx_setSize a b).
Proof.
  apply (rr_setter K (fun _ => a) (fun _ => b) (fun _ cv => cv_set_size (canvas_dim 300 a) (canvas_dim 150 b) cv)).
  intros c cv _ _ _. cbn.
  pose proof (canvas_dim_range 300 a ltac:(lia)). pose proof (canvas_dim_range 150 b ltac:(lia)).
  split; [lia|split; [lia|]]. intros Ha Hb. by rewrite !canvas_dim_to_int32.
Qed.

Lemma rr_ctx_set_width K a : preserves (RR K) (ctx_set_width a).
Proof.
  apply (rr_setter K (fun _ => a) ctx_height (fun _ cv => cv_set_size (canvas_dim 300 a) (cv_height cv) cv)).
  intros c cv Hcv _ Hh. cbn. pose proof (canvas_dim_range 300 a ltac:(lia)).
  split; [lia|split; [lia|]]. intros Ha _. unfold ctx_height. rewrite Hcv, canvas_dim_to_int32 by done.
  by rewrite (to_int32_small (cv_height cv)) by lia.
Qed.

Lemma rr_ctx_set_height K a : preserves (RR K) (ctx_set_height a).
Proof.
  apply (rr_setter K ctx_width (fun _ => a) (fun _ cv => cv_set_size (cv_width cv) (canvas_dim 150 a) cv)).
  intros c cv Hcv Hw _. cbn. pose proof (canvas_dim_range 150 a ltac:(lia)).
  split; [lia|split; [lia|]]. intros _ Ha. unfold ctx_width. rewrite Hcv, canvas_dim_to_int32 by done.
  by rewrite (to_int32_small (cv_width cv)) by lia.
Qed.

#[export] Hint Resolve rr_ctx_setSize rr_ctx_set_width rr_ctx_set_height : rr.

(** ** Method by method *)

Ltac solve_within :=
  first [ apply within_eq; intros ?; reflexivity
        | solve [eauto with rr]
        | apply within_set_input; intros ? [= <-]; set_solver
        | apply within_set_input; intros ? [=]
        | apply within_set_output; intros ? [= <-]; set_solver
        | apply within_set_output; intros ? [=]
        | apply within_upd_mix_set; intros ? [= <-]; cbn; set_solver
        | apply within_upd_mix_set; intros ? [=] ].

(** A write of the context that drops [disconnect] listeners and keeps
    what [vp_ok] reads. *)
Lemma rr_upd_ctx_sub K f :
  (forall c, (forall l, l ∈ c_listeners (f c) -> l ∈ c_listeners c) /\
             c_state (f c) = c_state c /\ c_gl (f c) = c_gl c /\ c_canvas (f c) = c_canvas c) ->
  preserves (RR K) (upd_ctx f).
Proof.
  intros Hf w. destruct (Hf (w_ctx w)) as (Hl & Hs & Hg & Hc).
  unfold upd_ctx, modify, RR, refs_ok, vp_ok, has. cbn. rewrite Hs, Hg, Hc.
  split; [done|]. intros _ [H1 H2]. split; [split; [intros l Hl'; apply H1, Hl, Hl'|exact H2]|done].
Qed.

Ltac solve_ctx_sub :=
  split; [intros ?l ?Hl; rewrite ?list_elem_of_filter in Hl; first [by apply elem_of_nil in Hl|tauto|exact Hl]|
          repeat split].

(** Split a method into its steps; a step that touches neither the nodes
    nor what [vp_ok] reads is checked by evaluation. *)
Ltac rpres :=
  repeat match goal with
  | |- preserves (RR _) (mbind _ _) => apply preserves_bind; [apply _| |intros ?]
  | |- preserves (RR _) (mfor _ _) => apply preserves_mfor; [apply _|intros ?]
  | |- preserves (RR _) (mmap _ _) => apply preserves_mmap; [apply _|intros ?]
  | |- preserves (RR _) (try_catch _ _) => apply preserves_try; [apply _| |intros ?]
  | |- preserves (RR _) (node_change _ _ _ _) => apply rr_node_change; [|intros ?]
  | |- preserves (RR _) (upd_node _ _) => apply rr_upd_node'; solve_within
  | |- preserves (RR _) (match ?x with _ => _ end) => destruct x
  | |- preserves (RR _) (if ?b then _ else _) => destruct b
  | |- preserves (RR _) _ => solve [eauto with rr]
  | |- preserves (RR _) _ => progress unfold ctx_useTexture, node_useTexture, useInputTexture, useBufferFrame,
                               need_gl, upd_res in *
  | |- preserves (RR _) _ => progress unfold_gl
  | |- preserves (RR _) (upd_ctx _) => apply rr_upd_ctx_sub; intros ?; cbn; solve_ctx_sub
  | |- preserves (RR _) _ =>
      apply rr_keep; intros ?;
      unfold get_node, get_ctx, get_bind, upd_ctx, emit, gl_delete, upd_bind, gl_create, timer_set,
        timer_clear, modify, mret, throw, mget, rframe;
      cbn; repeat case_match; reflexivity
  end.

Lemma rr_removeInput K t c : preserves (RR K) (removeInput t c).
Proof. unfold removeInput, mix_removeInput, dest_removeInput, base_removeInput. rpres. Qed.

#[export] Hint Resolve rr_removeInput : rr.

Lemma rr_disconnect K id : preserves (RR K) (disconnect id).
Proof. unfold disconnect, disconnect_body. rpres. Qed.

Lemma rr_slot_rect K o : preserves (RR K) (slot_rect o).
Proof. unfold slot_rect. rpres. Qed.

Lemma rr_mix_slot_buffer K id i : preserves (RR K) (mix_slot_buffer id i).
Proof. unfold mix_slot_buffer. rpres. Qed.

#[export] Hint Resolve rr_disconnect rr_slot_rect rr_mix_slot_buffer : rr.

Lemma rr_resize K fuel : forall id a b, preserves (RR K) (resize fuel id a b).
Proof.
  induction fuel as [|f IH]; intros id a b; simpl; [rpres|].
  assert (forall id a b, preserves (RR K) (base_resize (resize f) id a b)) by (intros; unfold base_resize; rpres).
  rpres.
Qed.

#[export] Hint Resolve rr_resize : rr.

(** [connect]'s body writes references to the connecting node, which
    its guard looked up, and to the target, which [addInput] looks up
    first. *)
Lemma rr_connect_body K fuel id t l :
  preserves (RR (id :: K)) (addInput fuel t id l ;;; upd_node id (set_output (Some t))).
Proof.
  apply (RR_case t).
  - unfold addInput, mix_addInput, dest_addInput, base_addInput, dest_start. rpres.
  - intros w Hw. unfold addInput, get_node, mbind. cbn. by rewrite Hw.
Qed.

Lemma rr_connect K fuel id t l : preserves (RR K) (connect fuel id t l).
Proof.
  unfold connect, base_connect. apply preserves_bind; [apply _| |intros _; rpres].
  apply preserves_bind; [apply _| |intros _; rpres].
  apply rr_node_change; [apply rr_connect_body|intros _; rpres].
Qed.

Lemma rr_close K id : preserves (RR K) (close id).
Proof. unfold close, base_close_body, release_res, mix_close_slot, track_dest_close, track_source_close. rpres. Qed.

#[export] Hint Resolve rr_connect rr_close : rr.

(** ** The context's methods *)

Lemma rr_node_disconnect_listener K id : preserves (RR K) (node_disconnect_listener id).
Proof. unfold node_disconnect_listener. rpres. Qed.

Lemma rr_ctx_disconnect K : preserves (RR K) ctx_disconnect.
Proof. unfold ctx_disconnect. pose proof rr_node_disconnect_listener. rpres. Qed.

#[export] Hint Resolve rr_node_disconnect_listener rr_ctx_disconnect : rr.

(** The body of [destroy] drops the WebGL context and then the canvas. *)
Lemma rr_destroy_body K r : preserves (RR K) (destroy_body r).
Proof.
  unfold destroy_body. apply preserves_bind; [apply _|apply rr_ctx_disconnect|intros _].
  intros w. unfold mbind, get_ctx, upd_ctx, modify, mret.
  destruct (c_gl (w_ctx w)); [unfold gl_delete; destruct (c_defaultProgram (w_ctx w))|]; cbn;
    (split; [done|intros _ Hr; split; [exact Hr|]]);
    unfold vp_ok; cbn; intros (A & _ & _); (split; [exact A|split; [done|discriminate]]).
Qed.

Lemma rr_destroy_success K r : preserves (RR K) (destroy_success r).
Proof. unfold destroy_success. rpres. Qed.

#[export] Hint Resolve rr_destroy_body rr_destroy_success : rr.

(** The guard of [destroy]: the state goes from [created] to
    [uninitialized] only when the body returned, which dropped WebGL. *)
Lemma rr_destroy K r : preserves (RR K) (destroy r).
Proof.
  unfold destroy. apply preserves_bind; [apply _| |intros; apply preserves_ret; apply _].
  intros w. unfold ctx_change, change_state.
  destruct (decide _); [reflexivity|].
  destruct (allowed ch_destroy _) eqn:Ha; [|destruct (ch_ignoreError ch_destroy); reflexivity].
  assert (Hs : c_state (w_ctx w) = SCreated).
  { cbn in Ha. case_bool_decide as Hin; [|discriminate]. by apply list_elem_of_singleton in Hin. }
  pose proof (rr_destroy_body K r w) as Hb.
  destruct (destroy_body r w) as [a w1|e w1] eqn:E; cbn in Hb |- *.
  - destruct (destroy_body_Ok _ _ _ _ E) as (_ & Hg & _).
    assert (H1 : RR K w1 (set_ctx (ctx_set_state SInit (w_ctx w1)) w1)).
    { unfold RR, refs_ok, vp_ok, has. cbn. split; [done|]. intros _ Hr. split; [exact Hr|].
      intros _. split; [by left|split; [done|by rewrite Hg]]. }
    pose proof (rr_destroy_success K a (set_ctx (ctx_set_state SInit (w_ctx w1)) w1)) as H2.
    destruct (destroy_success a _); cbn in H2 |- *; (etrans; [exact Hb|]); (etrans; [exact H1|exact H2]).
  - etrans; [exact Hb|]. destruct Hb as [D Hb]. split; [done|]. intros _ Hr. split; [exact Hr|].
    unfold vp_ok. cbn. intros (_ & _ & C). rewrite Hs. split; [by right|split; [discriminate|exact C]].
Qed.

#[export] Hint Resolve rr_destroy : rr.

(** ** The teardown does not throw *)

(** [m] returns from every store where the nodes of [K] exist and the
    references are sound. *)
Definition total {A} (K : list nat) (m : VC A) : Prop :=
  forall w, known K w -> refs_ok w -> exists a w', m w = Ok a w'.

Lemma total_nothrow {A} K (m : VC A) : (forall w, exists a w', m w = Ok a w') -> total K m.
Proof. intros H w _ _. apply H. Qed.

Lemma total_bind {A B} K (m : VC A) (k : A -> VC B) :
  total K m -> preserves (RR K) m -> (forall a, total K (k a)) -> total K (mbind m k).
Proof.
  intros Hm Pm Hk w HK Hr. destruct (Hm w HK Hr) as (a & w1 & E).
  destruct (Pm w) as [D H]. rewrite E in D, H. cbn in D, H. destruct (H HK Hr) as [Hr1 _].
  destruct (Hk a w1 (fun k' Hk' => D k' (HK k' Hk')) Hr1) as (b & w2 & E2).
  exists b, w2. unfold mbind. by rewrite E.
Qed.

Lemma total_mfor {A} K (l : list A) f :
  (forall x, x ∈ l -> total K (f x)) -> (forall x, preserves (RR K) (f x)) -> total K (mfor l f).
Proof.
  induction l as [|x l IH]; intros Hf Pf; simpl; [apply total_nothrow; eauto|].
  apply total_bind; [apply Hf; left|apply Pf|intros _; apply IH; [intros y Hy; apply Hf; by right|exact Pf]].
Qed.

(** After [get_node k] the nodes [k] refers to are known. *)
Lemma total_get_node_ref {B} K k (f : Node -> VC B) :
  k ∈ K -> (forall n, total (node_refs n ++ K) (f n)) -> total K (n <- get_node k ;; f n).
Proof.
  intros Hk Hf w HK Hr. destruct (HK k Hk) as [n Hn].
  unfold mbind, get_node. rewrite Hn. apply Hf; [|exact Hr].
  intros x Hx. apply elem_of_app in Hx as [Hx|Hx]; [exact (proj2 Hr k n x Hn Hx)|exact (HK x Hx)].
Qed.

Lemma total_node_change {A} K id ch (body : VC A) succ :
  id ∈ K -> ch_from ch = [] \/ ch_ignoreError ch = true ->
  total K body -> preserves (RR K) body -> (forall a, total K (succ a)) ->
  total K (node_change id ch body succ).
Proof.
  intros Hid Hch Hb Pb Hs w HK Hr. destruct (HK id Hid) as [n Hn].
  unfold node_change. rewrite Hn. unfold change_state. destruct (decide _); [eauto|].
  destruct (allowed ch _) eqn:Ha.
  - destruct (Hb w HK Hr) as (a & w1 & E). rewrite E.
    destruct (Pb w) as [D H]. rewrite E in D, H. cbn in D, H. destruct (H HK Hr) as [Hr1 _].
    destruct (rr_set_state K id (ch_to ch) w1) as [D2 H2].
    assert (HK1 : known K w1) by (intros k Hk; apply D, HK, Hk).
    destruct (H2 HK1 Hr1) as [Hr2 _].
    destruct (Hs a _ (fun k Hk => D2 k (HK1 k Hk)) Hr2) as (b & w2 & E2). rewrite E2. eauto.
  - destruct Hch as [Hch|Hch]; [unfold allowed in Ha; by rewrite Hch in Ha|rewrite Hch; eauto].
Qed.

Lemma output_refs n o : n_output n = Some o -> o ∈ node_refs n.
Proof. intros H. unfold node_refs. rewrite H. set_solver. Qed.

Lemma input_refs n i : n_input n = Some i -> i ∈ node_refs n.
Proof. intros H. unfold node_refs. rewrite H. set_solver. Qed.

Lemma slot_refs n a i mi : n_kind n = KMix a -> mjoin (ja_elems a !! i) = Some mi -> mi_node mi ∈ node_refs n.
Proof.
  intros Hk Hmi. unfold node_refs. rewrite Hk, !elem_of_app. right. right.
  apply list_elem_of_fmap. exists mi. split; [done|]. apply list_elem_of_omap. exists (Some mi).
  split; [|done]. destruct (ja_elems a !! i) as [[mi0|]|] eqn:Hl; cbn in Hmi; try discriminate.
  injection Hmi as ->. by eapply list_elem_of_lookup_2.
Qed.

(** Steps that never throw. *)
Ltac nothrow :=
  apply total_nothrow; intros ?;
  unfold upd_node, upd_ctx, emit, timer_clear, gl_delete, get_ctx, modify, mret, mbind;
  cbn; repeat case_match; eauto.

Lemma total_removeInput K t c : t ∈ K -> total K (removeInput t c).
Proof.
  intros Ht. unfold removeInput. apply total_get_node_ref; [done|intros n].
  unfold mix_removeInput, dest_removeInput, base_removeInput. destruct (n_kind n); nothrow.
Qed.

Lemma total_disconnect K i : i ∈ K -> total K (disconnect i).
Proof.
  intros Hi. unfold disconnect. apply total_bind; [|unfold disconnect_body; rpres|intros; nothrow].
  apply total_node_change; [done|by right| |unfold disconnect_body; rpres|intros; nothrow].
  unfold disconnect_body. apply total_get_node_ref; [done|intros n].
  apply total_bind; [|rpres|intros; nothrow].
  destruct (n_output n) as [o|] eqn:Ho; [|nothrow]. apply total_removeInput.
  apply elem_of_app. left. by apply output_refs.
Qed.

Lemma total_base_close_body K id : id ∈ K -> total K (base_close_body id).
Proof.
  intros Hid. unfold base_close_body. apply total_get_node_ref; [done|intros n].
  apply total_bind; [|rpres|intros _].
  { destruct (n_output n) as [o|] eqn:Ho; [|nothrow].
    apply total_removeInput. apply elem_of_app. left. by apply output_refs. }
  apply total_bind; [nothrow|rpres|intros _].
  apply total_get_node_ref; [set_solver|intros n'].
  apply total_bind; [|rpres|intros _].
  { destruct (n_input n') as [i|] eqn:Hi; [|nothrow].
    apply total_disconnect. apply elem_of_app. left. by apply input_refs. }
  apply total_bind; [nothrow|rpres|intros c].
  apply total_bind; [destruct (c_gl c); [unfold release_res|]; nothrow|unfold release_res; rpres|intros _].
  apply total_get_node_ref; [set_solver|intros n'']. destruct (n_canvas n''); nothrow.
Qed.

Lemma total_close K id : id ∈ K -> total K (close id).
Proof.
  intros Hid. unfold close. apply total_bind; [|unfold base_close_body, release_res; rpres|intros _].
  { apply total_node_change; [done|by left|by apply total_base_close_body| |intros; nothrow].
    unfold base_close_body, release_res. rpres. }
  apply total_get_node_ref; [set_solver|intros n].
  destruct (n_kind n) as [sd| |a|dd] eqn:Hk.
  - destruct (sd_track sd); [unfold track_source_close|]; nothrow.
  - nothrow.
  - apply total_mfor; [intros i _|intros i; unfold mix_close_slot; rpres].
    unfold mix_close_slot. apply total_get_node_ref; [set_solver|intros n'].
    destruct (n_kind n') as [| |a'|] eqn:Hk'; [nothrow|nothrow| |nothrow].
    destruct (mjoin (ja_elems a' !! i)) as [mi|] eqn:Hmi; [|nothrow].
    apply total_bind; [|rpres|intros _; nothrow].
    apply total_disconnect. apply elem_of_app. left. by eapply slot_refs.
  - destruct (dd_kind dd); [|unfold track_dest_close|]; nothrow.
Qed.

Lemma total_node_disconnect_listener K id : id ∈ K -> total K (node_disconnect_listener id).
Proof.
  intros Hid. unfold node_disconnect_listener. apply total_bind; [nothrow|rpres|intros _].
  apply total_get_node_ref; [done|intros n]. case_decide; [nothrow|apply total_close; set_solver].
Qed.

(** [VideoContext.disconnect()] returns: its listeners name nodes that exist. *)
Lemma total_ctx_disconnect K : total K ctx_disconnect.
Proof.
  intros w HK Hr. unfold ctx_disconnect, get_ctx. unfold mbind at 1. cbv beta iota.
  apply (total_mfor (c_listeners (w_ctx w))); [intros x Hx; by apply total_node_disconnect_listener|
    intros; apply rr_node_disconnect_listener|exact (proj1 Hr)|exact Hr].
Qed.

Lemma total_destroy_body K r : total K (destroy_body r).
Proof.
  unfold destroy_body. apply total_bind; [apply total_ctx_disconnect|apply rr_ctx_disconnect|intros _].
  apply total_bind; [nothrow|rpres|intros c]. destruct (c_gl c); [destruct (c_defaultProgram c)|]; nothrow.
Qed.

Lemma destroy_success_run a w :
  exists w', destroy_success a w = Ok tt w' /\ c_state (w_ctx w') = c_state (w_ctx w) /\
    c_gl (w_ctx w') = c_gl (w_ctx w).
Proof.
  unfold destroy_success, upd_ctx, emit, modify, mret, mbind.
  destruct a as [r|]; [destruct (js_truthy_str (Some r))|]; cbn; eauto.
Qed.

(** [destroy] on a created context whose references are sound returns,
    with the context [uninitialized] and without WebGL. *)
Lemma destroy_tears_down r w :
  refs_ok w -> c_state (w_ctx w) = SCreated ->
  exists w', destroy r w = Ok tt w' /\ c_state (w_ctx w') = SInit /\ c_gl (w_ctx w') = false.
Proof.
  intros Hr Hs. destruct (total_destroy_body [] r w (known_nil w) Hr) as (a & w1 & E).
  destruct (destroy_body_Ok _ _ _ _ E) as (_ & Hg & _).
  destruct (destroy_success_run a (set_ctx (ctx_set_state SInit (w_ctx w1)) w1)) as (w2 & E2 & Hs2 & Hg2).
  exists w2. unfold destroy, ctx_change, change_state, mbind. cbn. rewrite Hs, E. cbn. rewrite E2.
  split; [reflexivity|]. rewrite Hs2, Hg2. cbn. split; [reflexivity|exact Hg].
Qed.

(** ** Frame pulls and diagnostics *)

Lemma rr_draw2d K id img a b c d : preserves (RR K) (draw2d id img a b c d).
Proof. unfold draw2d. rpres. Qed.

#[export] Hint Resolve rr_draw2d : rr.

Lemma rr_requestFrame K fuel : forall id sq, preserves (RR K) (requestFrame fuel id sq).
Proof.
  induction fuel as [|f IH]; intros id sq; simpl; [rpres|].
  unfold render, render2d, source_render, source_upload, mix_render, mix_render2d, mirror_render,
    dest_render, draw_quad, base_render2d, pull_input, mix_slots_len, mix_draw_slot, mix_draw2d_slot.
  assert (forall id sq idx nf, preserves (RR K) (mix_pull (requestFrame f) id sq idx nf))
    by (intros ? ? idx; induction idx; intros; simpl; rpres).
  rpres.
Qed.

Lemma rr_getInfo K fuel now : forall id, preserves (RR K) (getInfo fuel now id).
Proof. induction fuel; intros id; simpl; unfold base_getInfo, mix_getInfo; rpres. Qed.

#[export] Hint Resolve rr_requestFrame rr_getInfo : rr.

(** ** The frame clock *)

(** The [getError] check of the interval callback: an error tears the
    context down, which cannot fail, so no WebGL context is left whose
    error was reset. *)
Lemma rr_tick_glcheck K id : preserves (RR (id :: K)) (tick_glcheck id).
Proof.
  intros w. unfold tick_glcheck, get_ctx, gl_getError, get_node. unfold mbind at 1. cbn.
  destruct (c_gl (w_ctx w)) eqn:Hg; [|reflexivity].
  unfold mbind. cbn. destruct (Z.eqb_spec (gl_error (w_gl w)) 0) as [He|He]; cbn.
  { apply RR_frame. unfold rframe. cbn. by rewrite He. }
  destruct (w_nodes w !! id) as [n|] eqn:Hn; cbn.
  - lazymatch goal with |- RR _ _ (res_state (destroy ?R ?w2)) =>
      destruct (rr_destroy K R w2) as [D H]; split; [exact D|];
      intros HK Hr; destruct (H (fun k Hk => proj2 (proj1 (known_cons _ _ _) HK) k Hk) Hr) as [Hr' _];
      split; [exact Hr'|]; intros (A & B & _);
      destruct A as [A|A]; [rewrite (B A) in Hg; discriminate|];
      destruct (destroy_tears_down R w2 Hr A) as (w' & E & Hs' & Hg')
    end.
    rewrite E. cbn. unfold vp_ok. rewrite Hs', Hg'. split; [by left|split; [done|discriminate]].
  - split; [done|]. intros HK. exfalso. destruct (HK id ltac:(set_solver)) as [x Hx]. congruence.
Qed.

Lemma rr_tick_body K fuel id last : preserves (RR K) (tick_body fuel id last).
Proof.
  unfold tick_body. apply preserves_bind; [apply _|unfold tick_rearm, dest_start; rpres|intros _].
  apply (RR_case id).
  - apply preserves_bind; [apply _|unfold get_node; rpres|intros n].
    destruct (n_kind n); [rpres|rpres|rpres|].
    apply preserves_bind; [apply _|rpres|intros _].
    apply preserves_bind; [apply _|apply rr_requestFrame|intros _]. apply rr_tick_glcheck.
  - intros w Hw. unfold get_node, mbind. cbn. by rewrite Hw.
Qed.

(** ** [create] and the constructors *)

(** The body of [create], run without WebGL, returns, leaves the nodes,
    the listeners and the state alone, and when it obtained WebGL the
    viewport covers the new 300 by 150 canvas. *)
Lemma create_body_viewport alpha u g c w :
  match create_body alpha u g c w with
  | Ok _ w1 => rframe w1 = (w_nodes w, c_listeners (w_ctx w), c_state (w_ctx w), c_gl (w_ctx w1),
                            c_canvas (w_ctx w1), b_viewport (w_bind w1), gl_error (w_gl w1)) /\
               (c_gl (w_ctx w) = false -> c_gl (w_ctx w1) = true -> exists cv, c_canvas (w_ctx w1) = Some cv /\
                  0 <= cv_width cv < 2 ^ 31 /\ 0 <= cv_height cv < 2 ^ 31 /\
                  b_viewport (w_bind w1) = (cv_width cv, cv_height cv))
  | Exn _ _ => False
  end.
Proof.
  unfold create_body, try_catch, mbind, upd_ctx, upd_bind, get_ctx, modify, mret, gl_create.
  destruct u, g, c; cbn; destruct (c_gl (w_ctx w)) eqn:Hg;
    destruct (gl_fail (w_gl w)) eqn:Hf; destruct (c_ctx2d (w_ctx w)); cbn; rewrite ?Hf; cbn;
    (split; [reflexivity|]); intros H0 Hgl; try discriminate H0; try discriminate Hgl;
    (eexists; split; [reflexivity|]); cbn; repeat split; lia.
Qed.

Lemma rr_create K alpha u g c : preserves (RR K) (create alpha u g c).
Proof.
  unfold create. apply preserves_bind; [apply _| |intros; apply preserves_ret; apply _].
  intros w. unfold ctx_change, change_state.
  destruct (decide _); [reflexivity|].
  destruct (allowed ch_create _) eqn:Ha; [|destruct (ch_ignoreError ch_create); reflexivity].
  assert (Hi : c_state (w_ctx w) = SInit).
  { cbn in Ha. case_bool_decide as Hin; [|discriminate]. by apply list_elem_of_singleton in Hin. }
  pose proof (create_body_viewport alpha u g c w) as Hb.
  destruct (create_body alpha u g c w) as [a w1|e w1]; [|done]. cbn.
  destruct Hb as [Hf Hv]. unfold rframe in Hf. injection Hf as Hn Hl Hs.
  unfold RR, refs_ok, vp_ok, has. cbn. rewrite Hn, Hl. split; [done|].
  intros _ Hr. split; [exact Hr|]. intros (_ & B & _). split; [by right|split; [discriminate|]].
  intros Hgl. destruct (Hv (B Hi) Hgl) as (cv & H1 & H2 & H3 & H4). exists cv. auto.
Qed.

#[export] Hint Resolve rr_create : rr.



#[export] Hint Resolve rr_tick_body : rr.


(** ** Along every run *)






(** ** Witnesses *)



